(** * Verification of the iperf timer module (src/timer.c)

    The module keeps two intrusive linked lists of [Timer] records: the
    active list [timers], doubly linked and kept sorted by expiry, and the
    free list [free_timers], singly linked through [next].  The embedding
    below keeps the C data as it is: a heap of records addressed by
    pointers, the two global list heads, and 64-bit signed integers.

    Conventions of the embedding:
    - a non-null pointer is a [positive] address, [NULL] is [None];
    - [time_t], [long] and [int64_t] are 64-bit (LP64); the result of every
      signed addition, subtraction and multiplication is wrapped to 64 bits
      in two's complement ([wrap64]); [/] and [%] are C's truncating
      division ([Z.quot], [Z.rem]);
    - dereferencing a pointer that is not allocated is [Fault]; a loop that
      exhausts its fuel is [OutOfFuel];
    - [malloc], the monotonic clock and the callbacks are the environment:
      the answer of [malloc] and the clock reading are arguments, and the
      effect of a callback on the module's state is given by a table
      [procs]. *)

From Stdlib Require Import ZArith Lia List Sorted.
From stdpp Require Import base option list gmap fin_maps.

Local Open Scope Z_scope.

(** ** 64-bit signed arithmetic *)

Definition wrap64 (z : Z) : Z := (z + 2 ^ 63) mod 2 ^ 64 - 2 ^ 63.
Definition int64 (z : Z) : Prop := - 2 ^ 63 <= z < 2 ^ 63.
Definition add64 (a b : Z) : Z := wrap64 (a + b).
Definition sub64 (a b : Z) : Z := wrap64 (a - b).
Definition mul64 (a b : Z) : Z := wrap64 (a * b).

Definition NSEC_PER_SEC : Z := 1000000000.

(** ** struct timespec *)

Record timespec : Type := mk_timespec { tv_sec : Z; tv_nsec : Z }.

(** The time a timespec denotes, in nanoseconds. *)
Definition ts_to_ns (t : timespec) : Z := tv_sec t * NSEC_PER_SEC + tv_nsec t.

(** [a.tv_sec < b.tv_sec || (a.tv_sec == b.tv_sec && a.tv_nsec < b.tv_nsec)],
    the comparison of list_add (with the arguments swapped, of tmr_run). *)
Definition ts_lt (a b : timespec) : bool :=
  (tv_sec a <? tv_sec b) || ((tv_sec a =? tv_sec b) && (tv_nsec a <? tv_nsec b)).

(** Lexicographic order on (seconds, nanoseconds). *)
Definition ts_le (a b : timespec) : Prop :=
  tv_sec a < tv_sec b \/ (tv_sec a = tv_sec b /\ tv_nsec a <= tv_nsec b).

(** ** struct Timer and the state of the module *)

Definition addr : Type := positive.
Definition ptr : Type := option addr.

(** Modelled from the spec: timer.h is not among the sources.  A callback is
    an opaque function reference (here its code address) and the user data
    an opaque machine word; the record has the fields of the spec's data
    model, under the names timer.c uses. *)
Definition TimerProc : Type := Z.
Definition TimerClientData : Type := Z.

Record Timer : Type := mk_Timer {
  timer_proc : TimerProc;
  client_data : TimerClientData;
  nsecs : Z;
  periodic : Z;
  time : timespec;
  prev : ptr;
  next : ptr
}.

Definition set_prev (v : ptr) (tm : Timer) : Timer :=
  mk_Timer (timer_proc tm) (client_data tm) (nsecs tm) (periodic tm) (time tm) v (next tm).
Definition set_next (v : ptr) (tm : Timer) : Timer :=
  mk_Timer (timer_proc tm) (client_data tm) (nsecs tm) (periodic tm) (time tm) (prev tm) v.
Definition set_time (v : timespec) (tm : Timer) : Timer :=
  mk_Timer (timer_proc tm) (client_data tm) (nsecs tm) (periodic tm) v (prev tm) (next tm).
Definition set_timer_proc (v : TimerProc) (tm : Timer) : Timer :=
  mk_Timer v (client_data tm) (nsecs tm) (periodic tm) (time tm) (prev tm) (next tm).
Definition set_client_data (v : TimerClientData) (tm : Timer) : Timer :=
  mk_Timer (timer_proc tm) v (nsecs tm) (periodic tm) (time tm) (prev tm) (next tm).
Definition set_nsecs (v : Z) (tm : Timer) : Timer :=
  mk_Timer (timer_proc tm) (client_data tm) v (periodic tm) (time tm) (prev tm) (next tm).
Definition set_periodic (v : Z) (tm : Timer) : Timer :=
  mk_Timer (timer_proc tm) (client_data tm) (nsecs tm) v (time tm) (prev tm) (next tm).

(** The allocated records, and the two static list heads. *)
Record State : Type := mk_State {
  heap : gmap addr Timer;
  timers : ptr;
  free_timers : ptr
}.

Definition with_heap (h : gmap addr Timer) (s : State) : State :=
  mk_State h (timers s) (free_timers s).
Definition with_timers (p : ptr) (s : State) : State :=
  mk_State (heap s) p (free_timers s).
Definition with_free_timers (p : ptr) (s : State) : State :=
  mk_State (heap s) (timers s) p.

Definition init_state : State := mk_State ∅ None None.

(** ** Results of running C code *)

Inductive res (A : Type) : Type :=
| Ok (a : A)
| Fault
| OutOfFuel.
Arguments Ok {A} a.
Arguments Fault {A}.
Arguments OutOfFuel {A}.

Definition res_bind {A B : Type} (m : res A) (f : A -> res B) : res B :=
  match m with
  | Ok a => f a
  | Fault => Fault
  | OutOfFuel => OutOfFuel
  end.

Notation "x <- m ; k" := (res_bind m (fun x => k))
  (at level 20, m at level 100, k at level 200, only parsing).

(** [*p] for reading, and [p->field = v] for writing. *)
Definition load (p : addr) (s : State) : res Timer :=
  match heap s !! p with
  | Some tm => Ok tm
  | None => Fault
  end.

Definition store (p : addr) (f : Timer -> Timer) (s : State) : res State :=
  match heap s !! p with
  | Some tm => Ok (with_heap (<[p := f tm]> (heap s)) s)
  | None => Fault
  end.

(** ** getnow *)

Definition getnow (clock : timespec) (nowP : option timespec) : timespec :=
  match nowP with
  | Some now => now
  | None => clock
  end.

(** ** list_add *)

(** The [for] loop of list_add and the tail insertion after it.  A chain
    without a cycle has at most [size heap] records, so list_add runs the
    loop with that much fuel. *)
Fixpoint list_add_walk (fuel : nat) (t t2prev : addr) (t2 : ptr) (s : State) : res State :=
  match t2 with
  | None =>
      s1 <- store t2prev (set_next (Some t)) s;
      s2 <- store t (set_prev (Some t2prev)) s1;
      store t (set_next None) s2
  | Some b =>
      match fuel with
      | O => OutOfFuel
      | S fuel' =>
          tm <- load t s;
          tb <- load b s;
          if ts_lt (time tm) (time tb) then
            s1 <- store t2prev (set_next (Some t)) s;
            s2 <- store t (set_prev (Some t2prev)) s1;
            s3 <- store t (set_next (Some b)) s2;
            store b (set_prev (Some t)) s3
          else
            list_add_walk fuel' t b (next tb) s
      end
  end.

Definition list_add (t : addr) (s : State) : res State :=
  match timers s with
  | None =>
      let s1 := with_timers (Some t) s in
      s2 <- store t (set_next None) s1;
      store t (set_prev None) s2
  | Some hd =>
      tm <- load t s;
      th <- load hd s;
      if ts_lt (time tm) (time th) then
        s1 <- store t (set_prev None) s;
        s2 <- store t (set_next (Some hd)) s1;
        s3 <- store hd (set_prev (Some t)) s2;
        Ok (with_timers (Some t) s3)
      else
        list_add_walk (size (heap s)) t hd (next th) s
  end.

(** ** list_remove and list_resort *)

Definition list_remove (t : addr) (s : State) : res State :=
  tm <- load t s;
  s1 <- match prev tm with
           | None => Ok (with_timers (next tm) s)
           | Some p => store p (set_next (next tm)) s
           end;
  tm1 <- load t s1;
  match next tm1 with
  | Some n => store n (set_prev (prev tm1)) s1
  | None => Ok s1
  end.

Definition list_resort (t : addr) (s : State) : res State :=
  s1 <- list_remove t s;
  list_add t s1.

(** ** add_nsecs *)

Definition add_nsecs (t : timespec) (nsecs : Z) : timespec :=
  let sec1 := add64 (tv_sec t) (Z.quot nsecs NSEC_PER_SEC) in
  let nsec1 := add64 (tv_nsec t) (Z.rem nsecs NSEC_PER_SEC) in
  if NSEC_PER_SEC <=? nsec1 then
    mk_timespec (add64 sec1 (Z.quot nsec1 NSEC_PER_SEC)) (Z.rem nsec1 NSEC_PER_SEC)
  else
    mk_timespec sec1 nsec1.

(** ** tmr_create *)

(** [malloc_result] is what malloc would answer: [None] for NULL, or a new
    address together with the indeterminate contents of the new record. *)
Definition tmr_create (malloc_result : option (addr * Timer)) (clock : timespec)
    (nowP : option timespec) (proc : TimerProc) (data : TimerClientData)
    (ns : Z) (per : Z) (s : State) : res (ptr * State) :=
  let now := getnow clock nowP in
  acquired <-
    match free_timers s with
    | Some t =>
        tm <- load t s;
        Ok (Some (t, with_free_timers (next tm) s))
    | None =>
        match malloc_result with
        | Some (a, junk) => Ok (Some (a, with_heap (<[a := junk]> (heap s)) s))
        | None => Ok None
        end
    end;
  match acquired with
  | None => Ok (None, s)
  | Some (t, s0) =>
      s1 <- store t (set_timer_proc proc) s0;
      s2 <- store t (set_client_data data) s1;
      s3 <- store t (set_nsecs ns) s2;
      s4 <- store t (set_periodic per) s3;
      s5 <- store t (set_time now) s4;
      s6 <- store t (fun tm => set_time (add_nsecs (time tm) ns) tm) s5;
      s7 <- list_add t s6;
      Ok (Some t, s7)
  end.

(** ** tmr_timeout *)

Definition tmr_timeout (clock : timespec) (nowP : option timespec) (s : State)
    : res (option timespec) :=
  let now := getnow clock nowP in
  match timers s with
  | None => Ok None
  | Some hd =>
      th <- load hd s;
      let ns := add64 (mul64 (sub64 (tv_sec (time th)) (tv_sec now)) NSEC_PER_SEC)
                      (sub64 (tv_nsec (time th)) (tv_nsec now)) in
      let ns := if ns <=? 0 then 0 else ns in
      Ok (Some (mk_timespec (Z.quot ns NSEC_PER_SEC) (Z.rem ns NSEC_PER_SEC)))
  end.

(** ** tmr_cancel *)

Definition tmr_cancel (t : addr) (s : State) : res State :=
  s1 <- list_remove t s;
  s2 <- store t (set_next (free_timers s1)) s1;
  let s3 := with_free_timers (Some t) s2 in
  store t (set_prev None) s3.

(** ** tmr_reset *)

Definition tmr_reset (clock : timespec) (nowP : option timespec) (t : addr) (s : State)
    : res State :=
  let now := getnow clock nowP in
  s1 <- store t (set_time now) s;
  s2 <- store t (fun tm => set_time (add_nsecs (time tm) (nsecs tm)) tm) s1;
  list_resort t s2.

(** ** tmr_run *)

(** One call [(t->timer_proc)(t->client_data, &now)], as it is observed. *)
Record call : Type := mk_call {
  call_timer : addr;
  call_proc : TimerProc;
  call_data : TimerClientData;
  call_now : timespec
}.

Section Run.
(** What a callback does.  tmr_run calls it with the user data and with the
    address of its local [now], so a callback can change the state of the
    module, by calling back into it, and it can write to [now]: it returns
    the value that it leaves in [now] and the state that it leaves. *)
Variable procs : TimerProc -> TimerClientData -> timespec -> State -> timespec * State.

(** The body of the [for] loop for the timer [t]: [None] is [break], and
    [Some (next, c, now1)] goes on with [next] after the call [c], with
    [now1] in [now].  The loop compares with [now] as it is at each turn. *)
Definition tmr_run_body (now : timespec) (t : addr) (s : State)
    : res (option (ptr * call * timespec) * State) :=
  tm <- load t s;
  let next := next tm in
  if ts_lt now (time tm) then Ok (None, s)
  else
    let '(now1, s1) := procs (timer_proc tm) (client_data tm) now s in
    tm1 <- load t s1;
    s2 <- (if negb (periodic tm1 =? 0) then
                s' <- store t (fun x => set_time (add_nsecs (time x) (nsecs x)) x) s1;
                list_resort t s'
              else tmr_cancel t s1);
    Ok (Some (next, mk_call t (timer_proc tm) (client_data tm) now, now1), s2).

Fixpoint tmr_run_loop (fuel : nat) (now : timespec) (t : ptr) (s : State)
    (calls : list call) : res (State * list call) :=
  match t with
  | None => Ok (s, calls)
  | Some a =>
      match fuel with
      | O => OutOfFuel
      | S fuel' =>
          r <- tmr_run_body now a s;
          match r with
          | (None, s') => Ok (s', calls)
          | (Some (next, c, now1), s') => tmr_run_loop fuel' now1 next s' (calls ++ [c])
          end
      end
  end.

Definition tmr_run (fuel : nat) (clock : timespec) (nowP : option timespec) (s : State)
    : res (State * list call) :=
  tmr_run_loop fuel (getnow clock nowP) (timers s) s [].
End Run.

(** ** tmr_cleanup and tmr_destroy *)

Fixpoint tmr_cleanup_loop (fuel : nat) (s : State) : res State :=
  match free_timers s with
  | None => Ok s
  | Some t =>
      match fuel with
      | O => OutOfFuel
      | S fuel' =>
          tm <- load t s;
          tmr_cleanup_loop fuel' (mk_State (delete t (heap s)) (timers s) (next tm))
      end
  end.

(** Every turn of the loop frees one record, so [size heap] turns suffice. *)
Definition tmr_cleanup (s : State) : res State :=
  tmr_cleanup_loop (size (heap s)) s.

Fixpoint tmr_destroy_loop (fuel : nat) (s : State) : res State :=
  match timers s with
  | None => Ok s
  | Some t =>
      match fuel with
      | O => OutOfFuel
      | S fuel' =>
          s1 <- tmr_cancel t s;
          tmr_destroy_loop fuel' s1
      end
  end.

Definition tmr_destroy (s : State) : res State :=
  s1 <- tmr_destroy_loop (size (heap s)) s;
  tmr_cleanup s1.


(** * Abstract view of a state *)

(** The fields of a record that the list operations never write, and the
    two that they do. *)
Definition payload (tm : Timer) : TimerProc * TimerClientData * Z * Z * timespec :=
  (timer_proc tm, client_data tm, nsecs tm, periodic tm, time tm).
Definition links (tm : Timer) : ptr * ptr := (prev tm, next tm).

Definition same_payload (h h' : gmap addr Timer) : Prop :=
  forall a, payload <$> (h' !! a) = payload <$> (h !! a).

(** [dseg h prv hd l nxt]: starting at [hd] and following [next], the heap
    [h] holds exactly the records [l], each pointing back to the one before
    it (the first one to [prv]), and the last one pointing on to [nxt]. *)
Fixpoint dseg (h : gmap addr Timer) (prv hd : ptr) (l : list addr) (nxt : ptr) : Prop :=
  match l with
  | [] => hd = nxt
  | a :: l' =>
      hd = Some a /\
      exists tm, h !! a = Some tm /\ prev tm = prv /\ dseg h (Some a) (next tm) l' nxt
  end.

(** The active list: doubly linked, [prev] of the head and [next] of the
    tail are NULL. *)
Definition dlist (h : gmap addr Timer) (hd : ptr) (l : list addr) : Prop :=
  dseg h None hd l None.

(** The free list is linked through [next] only. *)
Fixpoint slist (h : gmap addr Timer) (hd : ptr) (l : list addr) : Prop :=
  match l with
  | [] => hd = None
  | a :: l' => hd = Some a /\ exists tm, h !! a = Some tm /\ slist h (next tm) l'
  end.

(** [last_ptr prv l]: the record before the one that follows [l]. *)
Definition last_ptr (prv : ptr) (l : list addr) : ptr :=
  match last l with
  | Some a => Some a
  | None => prv
  end.

(** A well-formed state: [la] is the active list, [lf] the free list, and no
    record is in both or twice in one. *)
Record wf (s : State) (la lf : list addr) : Prop := mk_wf {
  wf_active : dlist (heap s) (timers s) la;
  wf_free : slist (heap s) (free_timers s) lf;
  wf_nodup : NoDup (la ++ lf)
}.

(** The records reached from [p] through [next]. *)
Fixpoint chain (fuel : nat) (h : gmap addr Timer) (p : ptr) : list addr :=
  match fuel, p with
  | S fuel', Some a =>
      match h !! a with
      | Some tm => a :: chain fuel' h (next tm)
      | None => []
      end
  | _, _ => []
  end.

Definition active_list (s : State) : list addr :=
  chain (size (heap s)) (heap s) (timers s).
Definition free_list (s : State) : list addr :=
  chain (size (heap s)) (heap s) (free_timers s).

(** The expiry of the record at [a]. *)
Definition key (h : gmap addr Timer) (a : addr) : timespec :=
  from_option time (mk_timespec 0 0) (h !! a).

(** The expiries of the active list, head to tail. *)
Definition expiries (s : State) : list timespec :=
  map (key (heap s)) (active_list s).

Definition le_key (k : addr -> timespec) : relation addr :=
  fun a b => ts_le (k a) (k b).

Definition sorted (k : addr -> timespec) (l : list addr) : Prop :=
  Sorted (le_key k) l.

(** Where list_add puts [t] in [l]: before the first record whose expiry is
    strictly greater. *)
Fixpoint ins (k : addr -> timespec) (t : addr) (l : list addr) : list addr :=
  match l with
  | [] => [t]
  | b :: l' => if ts_lt (k t) (k b) then t :: b :: l' else b :: ins k t l'
  end.

(** The timers that are due at [now], as the longest prefix of [l] whose
    expiries are not after [now], and the rest. *)
Definition is_due (k : addr -> timespec) (now : timespec) (a : addr) : bool :=
  negb (ts_lt now (k a)).

Fixpoint due_prefix (k : addr -> timespec) (now : timespec) (l : list addr) : list addr :=
  match l with
  | [] => []
  | a :: l' => if is_due k now a then a :: due_prefix k now l' else []
  end.

Fixpoint due_rest (k : addr -> timespec) (now : timespec) (l : list addr) : list addr :=
  match l with
  | [] => []
  | a :: l' => if is_due k now a then due_rest k now l' else l
  end.

(** The call that firing the record at [a] makes. *)
Definition call_of (h : gmap addr Timer) (now : timespec) (a : addr) : call :=
  match h !! a with
  | Some tm => mk_call a (timer_proc tm) (client_data tm) now
  | None => mk_call a 0 0 now
  end.

(** Callbacks that leave the timer module alone; they may still write to
    the [now] that they are handed. *)
Definition procs_keep_state
    (procs : TimerProc -> TimerClientData -> timespec -> State -> timespec * State) : Prop :=
  forall p d now s, snd (procs p d now s) = s.

(** Callbacks that do not write to the [now] that they are handed. *)
Definition procs_keep_now
    (procs : TimerProc -> TimerClientData -> timespec -> State -> timespec * State) : Prop :=
  forall p d now s, fst (procs p d now s) = now.

Definition no_procs : TimerProc -> TimerClientData -> timespec -> State -> timespec * State :=
  fun _ _ now s => (now, s).

(** The states that create, cancel, reset and run lead to from the empty
    state.  cancel and reset are given a handle of the active list; malloc
    answers NULL or an address that is not allocated; run is a call that
    returns. *)
Inductive reachable
    (procs : TimerProc -> TimerClientData -> timespec -> State -> timespec * State) : State -> Prop :=
| reach_init : reachable procs init_state
| reach_create s m clock nowP proc data ns per r s' :
    reachable procs s ->
    (forall a junk, m = Some (a, junk) -> heap s !! a = None) ->
    tmr_create m clock nowP proc data ns per s = Ok (r, s') ->
    reachable procs s'
| reach_cancel s t s' :
    reachable procs s ->
    t ∈ active_list s ->
    tmr_cancel t s = Ok s' ->
    reachable procs s'
| reach_reset s clock nowP t s' :
    reachable procs s ->
    t ∈ active_list s ->
    tmr_reset clock nowP t s = Ok s' ->
    reachable procs s'
| reach_run s fuel clock nowP s' calls :
    reachable procs s ->
    tmr_run procs fuel clock nowP s = Ok (s', calls) ->
    reachable procs s'.

Definition is_periodic (h : gmap addr Timer) (a : addr) : bool :=
  match h !! a with
  | Some tm => negb (periodic tm =? 0)
  | None => false
  end.

(** The expiry of the record at [a] once it has been rescheduled. *)
Definition rescheduled (h : gmap addr Timer) (a : addr) : timespec :=
  match h !! a with
  | Some tm => add_nsecs (time tm) (nsecs tm)
  | None => mk_timespec 0 0
  end.

(** A state is well formed when its two chains are the active and the free
    list of [wf]. *)
Definition well_formed (s : State) : Prop :=
  wf s (active_list s) (free_list s).

(** A record that is allocated and in neither list. *)
Definition detached (s : State) (t : addr) : Prop :=
  is_Some (heap s !! t) /\ (t ∉ active_list s) /\ (t ∉ free_list s).

(** Callbacks that may call back into the module, as long as the callback
    of a due timer of a well-formed, sorted state returns with the lists
    well formed and sorted and with that timer, and the timer that came
    after it, still on the active list. *)
Definition procs_keep_order
    (procs : TimerProc -> TimerClientData -> timespec -> State -> timespec * State) : Prop :=
  forall now s t tm,
    well_formed s -> Sorted ts_le (expiries s) ->
    t ∈ active_list s -> heap s !! t = Some tm -> ts_lt now (time tm) = false ->
    well_formed (snd (procs (timer_proc tm) (client_data tm) now s)) /\
    Sorted ts_le (expiries (snd (procs (timer_proc tm) (client_data tm) now s))) /\
    t ∈ active_list (snd (procs (timer_proc tm) (client_data tm) now s)) /\
    (forall n, next tm = Some n ->
       n ∈ active_list (snd (procs (timer_proc tm) (client_data tm) now s))).

(** The timers that a pass at [now] finds due, and the others. *)
Definition due_timers (s : State) (now : timespec) : list addr :=
  due_prefix (key (heap s)) now (active_list s).
Definition pending_timers (s : State) (now : timespec) : list addr :=
  due_rest (key (heap s)) now (active_list s).


(** ** Executable checks of well-formedness *)

Fixpoint dsegb (h : gmap addr Timer) (prv hd : ptr) (l : list addr) (nxt : ptr) : bool :=
  match l with
  | [] => bool_decide (hd = nxt)
  | a :: l' =>
      bool_decide (hd = Some a) &&
      match h !! a with
      | Some tm => bool_decide (prev tm = prv) && dsegb h (Some a) (next tm) l' nxt
      | None => false
      end
  end.

Fixpoint slistb (h : gmap addr Timer) (hd : ptr) (l : list addr) : bool :=
  match l with
  | [] => bool_decide (hd = None)
  | a :: l' =>
      bool_decide (hd = Some a) &&
      match h !! a with
      | Some tm => slistb h (next tm) l'
      | None => false
      end
  end.

Definition well_formedb (s : State) : bool :=
  dsegb (heap s) None (timers s) (active_list s) None &&
  slistb (heap s) (free_timers s) (free_list s) &&
  bool_decide (NoDup (active_list s ++ free_list s)).

Definition ts_leb (a b : timespec) : bool := negb (ts_lt b a).

Fixpoint sortedb (l : list timespec) : bool :=
  match l with
  | [] => true
  | a :: l' =>
      match l' with
      | [] => true
      | b :: _ => ts_leb a b
      end && sortedb l'
  end.

(** ** The claims that do not hold as they are stated *)

(** run_due fires exactly the due prefix, in order, and leaves the later
    timers as they were. *)
Definition run_due_claim
    (procs : TimerProc -> TimerClientData -> timespec -> State -> timespec * State)
    (s : State) (now : timespec) : Prop :=
  exists fuel s',
    tmr_run procs fuel now (Some now) s =
      Ok (s', map (call_of (heap s) now) (due_timers s now)) /\
    active_list s' = pending_timers s now /\
    forall a, a ∈ pending_timers s now -> heap s' !! a = heap s !! a.

(** time_until_next is [none] exactly for the empty list, and otherwise
    [max(0, earliest.expiry - now)]. *)
Definition time_until_next_claim (s : State) (now : timespec) : Prop :=
  exists r,
    tmr_timeout now (Some now) s = Ok r /\
    (r = None <-> active_list s = []) /\
    forall hd d, head (active_list s) = Some hd -> r = Some d ->
      ts_to_ns d = Z.max 0 (ts_to_ns (key (heap s) hd) - ts_to_ns now).

(** add_duration normalises the nanoseconds and adds exactly. *)
Definition add_duration_claim (t : timespec) (ns : Z) : Prop :=
  0 <= tv_nsec t < NSEC_PER_SEC -> int64 ns ->
  0 <= tv_nsec (add_nsecs t ns) < NSEC_PER_SEC /\
  ts_to_ns (add_nsecs t ns) = ts_to_ns t + ns.

(** The additions of add_nsecs to the seconds stay within 64 bits: the one
    of the whole seconds of [ns], and the one of the second that the
    nanoseconds carry, when they do. *)
Definition add_nsecs_fits (t : timespec) (ns : Z) : Prop :=
  int64 (tv_sec t + Z.quot ns NSEC_PER_SEC) /\
  (NSEC_PER_SEC <= tv_nsec t + Z.rem ns NSEC_PER_SEC ->
   int64 (tv_sec t + Z.quot ns NSEC_PER_SEC + 1)).

(** After any sequence of create, cancel, reset and run the active list is
    in non-decreasing order of expiry. *)
Definition sort_invariant_claim
    (procs : TimerProc -> TimerClientData -> timespec -> State -> timespec * State) : Prop :=
  forall s, reachable procs s -> Sorted ts_le (expiries s).


(** The steps of tmr_timeout that must not overflow. *)
Definition timeout_fits (expiry now : timespec) : Prop :=
  int64 (tv_sec expiry - tv_sec now) /\
  int64 ((tv_sec expiry - tv_sec now) * NSEC_PER_SEC) /\
  int64 (tv_nsec expiry - tv_nsec now) /\
  int64 (ts_to_ns expiry - ts_to_ns now).

(** ** Example states *)

Definition ex_junk : Timer := mk_Timer 0 0 0 0 (mk_timespec 0 0) None None.

(** Three timers created at 0 s: 1 is periodic with an interval of 60 s,
    2 and 3 are one-shot and expire at 70 s and at 200 s. *)
Definition ex_late : State :=
  mk_State
    (<[1%positive := mk_Timer 11 101 60000000000 1 (mk_timespec 60 0) None (Some 2%positive)]>
     (<[2%positive := mk_Timer 12 102 70000000000 0 (mk_timespec 70 0) (Some 1%positive) (Some 3%positive)]>
      (<[3%positive := mk_Timer 13 103 200000000000 0 (mk_timespec 200 0) (Some 2%positive) None]> ∅)))
    (Some 1%positive) None.

(** The example of the spec at 50 ms: the periodic timer 2 (every 50 ms)
    expires at 50 ms, the one-shot timer 1 at 100 ms; record 3 is free. *)
Definition ex_spec : State :=
  mk_State
    (<[1%positive := mk_Timer 11 101 100000000 0 (mk_timespec 0 100000000) (Some 2%positive) None]>
     (<[2%positive := mk_Timer 12 102 50000000 1 (mk_timespec 0 50000000) None (Some 1%positive)]>
      (<[3%positive := mk_Timer 13 103 7 0 (mk_timespec 0 7) None None]> ∅)))
    (Some 2%positive) (Some 3%positive).

(** One timer created at 1 s with the largest interval. *)
Definition ex_far : State :=
  mk_State
    (<[1%positive := mk_Timer 11 101 9223372036854775807 0
                       (mk_timespec 9223372037 854775807) None None]> ∅)
    (Some 1%positive) None.

(** Timers 1 and 2 expire at 5 s and timer 3 at 9 s; record 4, which expires
    at 5 s too, is allocated and not linked yet. *)
Definition ex_tie : State :=
  mk_State
    (<[1%positive := mk_Timer 11 101 0 0 (mk_timespec 5 0) None (Some 2%positive)]>
     (<[2%positive := mk_Timer 12 102 0 0 (mk_timespec 5 0) (Some 1%positive) (Some 3%positive)]>
      (<[3%positive := mk_Timer 13 103 0 0 (mk_timespec 9 0) (Some 2%positive) None]>
       (<[4%positive := mk_Timer 14 104 0 0 (mk_timespec 5 0) None None]> ∅))))
    (Some 1%positive) None.

(** Two periodic timers with interval 0 that both expire at 0 s, in the two
    orders in which a pass at 0 s finds them. *)
Definition ex_spin_12 : State :=
  mk_State
    (<[1%positive := mk_Timer 11 101 0 1 (mk_timespec 0 0) None (Some 2%positive)]>
     (<[2%positive := mk_Timer 12 102 0 1 (mk_timespec 0 0) (Some 1%positive) None]> ∅))
    (Some 1%positive) None.

Definition ex_spin_21 : State :=
  mk_State
    (<[1%positive := mk_Timer 11 101 0 1 (mk_timespec 0 0) (Some 2%positive) None]>
     (<[2%positive := mk_Timer 12 102 0 1 (mk_timespec 0 0) None (Some 1%positive)]> ∅))
    (Some 2%positive) None.

(** One periodic timer with an interval of 1 s, created in the last second
    but one of a 64-bit [time_t]. *)
Definition ex_last : State :=
  mk_State
    (<[1%positive := mk_Timer 11 101 1000000000 1 (mk_timespec (2 ^ 63 - 1) 0) None None]> ∅)
    (Some 1%positive) None.

(** A table of callbacks in which the callback 11 creates a one-shot timer
    of 5 s: in a record of the free list or else in new memory, which malloc
    hands out at an address that is not in use.  The other callbacks leave
    the state alone. *)
Definition ex_create_procs : TimerProc -> TimerClientData -> timespec -> State -> timespec * State :=
  fun p _ now s =>
    if p =? 11 then
      match tmr_create (Some (fresh (dom (heap s)), ex_junk)) now (Some now)
              19 109 5000000000 0 s with
      | Ok (_, s') => (now, s')
      | _ => (now, s)
      end
    else (now, s).

(** A table of callbacks in which every callback sets the seconds of the
    [now] that it is handed to 0 and leaves the state alone. *)
Definition ex_clock_procs : TimerProc -> TimerClientData -> timespec -> State -> timespec * State :=
  fun _ _ now s => (mk_timespec 0 (tv_nsec now), s).

(** A table of callbacks in which the callback 11 restarts the timer 1 with
    tmr_reset and the [now] that it is handed, as the callback of an idle
    timeout does; the other callbacks leave the state alone. *)
Definition ex_reset_procs : TimerProc -> TimerClientData -> timespec -> State -> timespec * State :=
  fun p _ now s =>
    if p =? 11 then
      match tmr_reset now (Some now) 1%positive s with
      | Ok s' => (now, s')
      | _ => (now, s)
      end
    else (now, s).

(** ** Notions for the whole interface *)

(** A timespec with its nanoseconds in [0, 1e9). *)
Definition normalised (t : timespec) : Prop := 0 <= tv_nsec t < NSEC_PER_SEC.

(** Every allocated record is on one of the two lists. *)
Definition allocated_in_lists (s : State) : Prop :=
  forall a, is_Some (heap s !! a) <-> a ∈ active_list s ++ free_list s.

(** The states that the public functions lead to from the empty state:
    those of [reachable], and tmr_cleanup and tmr_destroy as well. *)
Inductive api_reachable
    (procs : TimerProc -> TimerClientData -> timespec -> State -> timespec * State) : State -> Prop :=
| api_init : api_reachable procs init_state
| api_create s m clock nowP proc data ns per r s' :
    api_reachable procs s ->
    (forall a junk, m = Some (a, junk) -> heap s !! a = None) ->
    tmr_create m clock nowP proc data ns per s = Ok (r, s') ->
    api_reachable procs s'
| api_cancel s t s' :
    api_reachable procs s ->
    t ∈ active_list s ->
    tmr_cancel t s = Ok s' ->
    api_reachable procs s'
| api_reset s clock nowP t s' :
    api_reachable procs s ->
    t ∈ active_list s ->
    tmr_reset clock nowP t s = Ok s' ->
    api_reachable procs s'
| api_run s fuel clock nowP s' calls :
    api_reachable procs s ->
    tmr_run procs fuel clock nowP s = Ok (s', calls) ->
    api_reachable procs s'
| api_cleanup s s' :
    api_reachable procs s ->
    tmr_cleanup s = Ok s' ->
    api_reachable procs s'
| api_destroy s s' :
    api_reachable procs s ->
    tmr_destroy s = Ok s' ->
    api_reachable procs s'.

(** How far the expiry [t] is behind [now], in nanoseconds and one more; 0
    when it is after [now]. *)
Definition lag_of (now t : timespec) : nat :=
  Z.to_nat (ts_to_ns now - ts_to_ns t + 1).

(** The sum of the lags of the records [l]: a bound on the turns that the
    loop of tmr_run takes. *)
Definition lag (h : gmap addr Timer) (now : timespec) (l : list addr) : nat :=
  sum_list_with (fun a => lag_of now (key h a)) l.

(** What tmr_run needs of a record to return: a normalised expiry within the
    64-bit range and, for a periodic timer, a positive interval that does
    not take the seconds of [now] out of range. *)
Definition steady (now : timespec) (tm : Timer) : Prop :=
  normalised (time tm) /\ - 2 ^ 63 <= tv_sec (time tm) /\
  (periodic tm <> 0 ->
   0 < nsecs tm /\ tv_sec now + Z.quot (nsecs tm) NSEC_PER_SEC < 2 ^ 63 - 1).

Definition steady_state (s : State) (now : timespec) : Prop :=
  normalised now /\
  forall a tm, a ∈ active_list s -> heap s !! a = Some tm -> steady now tm.

(** A table of callbacks in which the callback 11 cancels the timer 2, as a
    callback that stops another timer does; the other callbacks leave the
    state alone. *)
Definition ex_cancel_procs : TimerProc -> TimerClientData -> timespec -> State -> timespec * State :=
  fun p _ now s =>
    if p =? 11 then
      match tmr_cancel 2%positive s with
      | Ok s' => (now, s')
      | _ => (now, s)
      end
    else (now, s).

(** * 64-bit arithmetic *)

Lemma wrap64_id z : int64 z -> wrap64 z = z.
Proof.
  unfold int64, wrap64. intros H.
  rewrite Z.mod_small by lia. lia.
Qed.

Lemma wrap64_range z : int64 (wrap64 z).
Proof.
  unfold int64, wrap64.
  pose proof (Z.mod_pos_bound (z + 2 ^ 63) (2 ^ 64) ltac:(lia)). lia.
Qed.

Lemma quot_rem_nsec z :
  z = NSEC_PER_SEC * Z.quot z NSEC_PER_SEC + Z.rem z NSEC_PER_SEC.
Proof. apply Z.quot_rem'. Qed.

Lemma rem_nsec_bound z : - NSEC_PER_SEC < Z.rem z NSEC_PER_SEC < NSEC_PER_SEC.
Proof.
  unfold NSEC_PER_SEC.
  pose proof (Z.rem_bound_abs z 1000000000 ltac:(lia)). lia.
Qed.

Lemma rem_nsec_nonneg z : 0 <= z -> 0 <= Z.rem z NSEC_PER_SEC < NSEC_PER_SEC.
Proof. intros H. unfold NSEC_PER_SEC. apply Z.rem_bound_pos; lia. Qed.

Lemma quot_nsec_nonneg z : 0 <= z -> 0 <= Z.quot z NSEC_PER_SEC.
Proof. intros H. unfold NSEC_PER_SEC. apply Z.quot_pos; lia. Qed.

(** * The order on timespecs *)

Lemma ts_lt_true a b :
  ts_lt a b = true <->
  tv_sec a < tv_sec b \/ (tv_sec a = tv_sec b /\ tv_nsec a < tv_nsec b).
Proof.
  unfold ts_lt.
  rewrite orb_true_iff, andb_true_iff, !Z.ltb_lt, Z.eqb_eq. tauto.
Qed.

Lemma ts_lt_false a b : ts_lt a b = false <-> ts_le b a.
Proof.
  unfold ts_le. rewrite <- not_true_iff_false, ts_lt_true. lia.
Qed.

Lemma ts_le_refl a : ts_le a a.
Proof. unfold ts_le. lia. Qed.

Lemma ts_le_trans a b c : ts_le a b -> ts_le b c -> ts_le a c.
Proof. unfold ts_le. lia. Qed.

Lemma ts_lt_le a b : ts_lt a b = true -> ts_le a b.
Proof. rewrite ts_lt_true. unfold ts_le. lia. Qed.

Lemma ts_le_lt_trans a b c : ts_le a b -> ts_lt b c = true -> ts_lt a c = true.
Proof. rewrite !ts_lt_true. unfold ts_le. lia. Qed.

Lemma ts_lt_le_trans a b c : ts_lt a b = true -> ts_le b c -> ts_lt a c = true.
Proof. rewrite !ts_lt_true. unfold ts_le. lia. Qed.

Lemma ts_lt_irrefl a : ts_lt a a = false.
Proof. apply ts_lt_false, ts_le_refl. Qed.

Lemma ts_le_to_ns a b :
  0 <= tv_nsec a < NSEC_PER_SEC -> 0 <= tv_nsec b < NSEC_PER_SEC ->
  (ts_le a b <-> ts_to_ns a <= ts_to_ns b).
Proof. unfold ts_le, ts_to_ns, NSEC_PER_SEC. intros Ha Hb. nia. Qed.

(** * add_nsecs *)

Lemma add_nsecs_exact t ns :
  0 <= tv_nsec t < NSEC_PER_SEC ->
  - 2 ^ 63 <= tv_sec t + Z.quot ns NSEC_PER_SEC < 2 ^ 63 - 1 ->
  ts_to_ns (add_nsecs t ns) = ts_to_ns t + ns /\
  - NSEC_PER_SEC < tv_nsec (add_nsecs t ns) < NSEC_PER_SEC /\
  (0 <= tv_nsec t + Z.rem ns NSEC_PER_SEC -> 0 <= tv_nsec (add_nsecs t ns)).
Proof.
  intros Hn Hs.
  pose proof (rem_nsec_bound ns) as Hr.
  pose proof (quot_rem_nsec ns) as Hqr.
  unfold add_nsecs, add64.
  rewrite (wrap64_id (tv_sec t + _)) by (unfold int64; lia).
  rewrite (wrap64_id (tv_nsec t + _)) by (unfold int64, NSEC_PER_SEC in *; lia).
  set (n1 := tv_nsec t + Z.rem ns NSEC_PER_SEC) in *.
  destruct (Z.leb_spec NSEC_PER_SEC n1) as [Hge|Hlt].
  - assert (Hq : Z.quot n1 NSEC_PER_SEC = 1).
    { symmetry. apply (Z.quot_unique n1 NSEC_PER_SEC 1 (n1 - NSEC_PER_SEC));
        unfold NSEC_PER_SEC in *; lia. }
    assert (Hm : Z.rem n1 NSEC_PER_SEC = n1 - NSEC_PER_SEC).
    { symmetry. apply (Z.rem_unique n1 NSEC_PER_SEC 1 (n1 - NSEC_PER_SEC));
        unfold NSEC_PER_SEC in *; lia. }
    rewrite Hq, Hm.
    rewrite wrap64_id by (unfold int64; lia).
    unfold ts_to_ns; simpl. unfold NSEC_PER_SEC in *. lia.
  - unfold ts_to_ns; simpl. unfold NSEC_PER_SEC in *. lia.
Qed.

Lemma add_nsecs_exact_fits t ns :
  0 <= tv_nsec t < NSEC_PER_SEC -> add_nsecs_fits t ns ->
  ts_to_ns (add_nsecs t ns) = ts_to_ns t + ns /\
  - NSEC_PER_SEC < tv_nsec (add_nsecs t ns) < NSEC_PER_SEC /\
  (0 <= tv_nsec t + Z.rem ns NSEC_PER_SEC -> 0 <= tv_nsec (add_nsecs t ns)).
Proof.
  intros Hn [Hs Hc].
  pose proof (rem_nsec_bound ns) as Hr.
  pose proof (quot_rem_nsec ns) as Hqr.
  unfold add_nsecs, add64.
  rewrite (wrap64_id (tv_sec t + _)) by done.
  rewrite (wrap64_id (tv_nsec t + _)) by (unfold int64, NSEC_PER_SEC in *; lia).
  set (n1 := tv_nsec t + Z.rem ns NSEC_PER_SEC) in *.
  destruct (Z.leb_spec NSEC_PER_SEC n1) as [Hge|Hlt].
  - assert (Hq : Z.quot n1 NSEC_PER_SEC = 1).
    { symmetry. apply (Z.quot_unique n1 NSEC_PER_SEC 1 (n1 - NSEC_PER_SEC));
        unfold NSEC_PER_SEC in *; lia. }
    assert (Hm : Z.rem n1 NSEC_PER_SEC = n1 - NSEC_PER_SEC).
    { symmetry. apply (Z.rem_unique n1 NSEC_PER_SEC 1 (n1 - NSEC_PER_SEC));
        unfold NSEC_PER_SEC in *; lia. }
    rewrite Hq, Hm.
    rewrite wrap64_id by (by apply Hc).
    unfold ts_to_ns; simpl. unfold NSEC_PER_SEC in *. lia.
  - unfold ts_to_ns; simpl. unfold NSEC_PER_SEC in *. lia.
Qed.

(** * Sorted insertion on lists of addresses *)

Section Insertion.
Variable k : addr -> timespec.

Lemma le_key_trans : Transitive (le_key k).
Proof. intros a b c. apply ts_le_trans. Qed.

Lemma sorted_strongly l : sorted k l <-> StronglySorted (le_key k) l.
Proof.
  split.
  - apply Sorted_StronglySorted, le_key_trans.
  - apply StronglySorted_Sorted.
Qed.

Lemma strongly_cons a l :
  StronglySorted (le_key k) (a :: l) <-> StronglySorted (le_key k) l /\ Forall (le_key k a) l.
Proof.
  split.
  - intros H. inversion H; subst. auto.
  - intros [H1 H2]. by constructor.
Qed.

Lemma strongly_app l1 l2 :
  StronglySorted (le_key k) (l1 ++ l2) <->
  StronglySorted (le_key k) l1 /\ StronglySorted (le_key k) l2 /\
  forall a b, a ∈ l1 -> b ∈ l2 -> le_key k a b.
Proof.
  induction l1 as [|x l1 IH]; simpl.
  - split.
    + intros H. split; [constructor|]. split; [done|]. intros a b Ha. inversion Ha.
    + tauto.
  - rewrite !strongly_cons, IH, Forall_app, !Forall_forall.
    split.
    + intros [(H1 & H2 & H3) [H4 H5]]. repeat split; try done.
      intros a b Ha Hb. apply elem_of_cons in Ha as [->|Ha]; auto.
    + intros ([H1 H2] & H3 & H4). repeat split; try done.
      * intros a b Ha Hb. apply H4; [by apply elem_of_cons; right|done].
      * intros b Hb. apply H4; [by apply elem_of_cons; left|done].
Qed.

Lemma sorted_remove l1 t l2 : sorted k (l1 ++ t :: l2) -> sorted k (l1 ++ l2).
Proof.
  rewrite !sorted_strongly, !strongly_app, strongly_cons.
  intros (H1 & [H2 H3] & H4). repeat split; try done.
  intros a b Ha Hb. apply H4; [done|]. by apply elem_of_cons; right.
Qed.

Lemma elem_of_ins t l a : a ∈ ins k t l <-> a = t \/ a ∈ l.
Proof.
  induction l as [|b l IH]; simpl.
  - rewrite list_elem_of_singleton. split; [by left|].
    intros [H|H]; [done|inversion H].
  - destruct (ts_lt (k t) (k b)).
    + by rewrite elem_of_cons.
    + rewrite !elem_of_cons, IH. tauto.
Qed.

Lemma ins_Permutation t l : ins k t l ≡ₚ t :: l.
Proof.
  induction l as [|b l IH]; simpl; [done|].
  destruct (ts_lt (k t) (k b)); [done|].
  rewrite IH. apply Permutation_swap.
Qed.

Lemma ins_NoDup t l : NoDup l -> t ∉ l -> NoDup (ins k t l).
Proof.
  intros Hl Ht. rewrite ins_Permutation. by apply NoDup_cons.
Qed.

Lemma ins_length t l : length (ins k t l) = S (length l).
Proof. by rewrite ins_Permutation. Qed.

Lemma ins_sorted t l : sorted k l -> sorted k (ins k t l).
Proof.
  rewrite !sorted_strongly.
  induction l as [|b l IH]; simpl; intros H.
  - repeat constructor.
  - destruct (ts_lt (k t) (k b)) eqn:E.
    + apply strongly_cons. split; [done|].
      apply strongly_cons in H as [H1 H2].
      apply ts_lt_le in E.
      constructor; [done|].
      rewrite Forall_forall in *. intros x Hx.
      eapply ts_le_trans; [exact E|]. by apply H2.
    + apply ts_lt_false in E.
      apply strongly_cons in H as [H1 H2].
      apply strongly_cons. split; [auto|].
      rewrite Forall_forall in *. intros x Hx.
      apply elem_of_ins in Hx as [->|Hx]; [done|auto].
Qed.

(** list_add puts the new record after every record that is not strictly
    later, and before all the others. *)
Lemma ins_split t l :
  sorted k l ->
  exists l1 l2, l = l1 ++ l2 /\ ins k t l = l1 ++ t :: l2 /\
    Forall (fun a => ts_le (k a) (k t)) l1 /\
    Forall (fun a => ts_lt (k t) (k a) = true) l2.
Proof.
  rewrite sorted_strongly.
  induction l as [|b l IH]; simpl; intros H.
  - exists [], []. repeat split; constructor.
  - apply strongly_cons in H as [H1 H2].
    destruct (ts_lt (k t) (k b)) eqn:E.
    + exists [], (b :: l). repeat split; [constructor|].
      constructor; [done|].
      rewrite Forall_forall in *. intros x Hx.
      eapply ts_lt_le_trans; [exact E|]. by apply H2.
    + destruct (IH H1) as (l1 & l2 & -> & Hi & Hl1 & Hl2).
      exists (b :: l1), l2. rewrite Hi. repeat split; [|done].
      constructor; [|done]. by apply ts_lt_false.
Qed.

Lemma ins_app_le t l1 l2 :
  Forall (fun a => ts_le (k a) (k t)) l1 ->
  ins k t (l1 ++ l2) = l1 ++ ins k t l2.
Proof.
  induction 1 as [|a l1 Ha _ IH]; simpl; [done|].
  apply ts_lt_false in Ha. by rewrite Ha, IH.
Qed.

Lemma ins_head_lt t b l :
  ts_lt (k t) (k b) = true -> ins k t (b :: l) = t :: b :: l.
Proof. simpl. by intros ->. Qed.
End Insertion.

Lemma ins_ext k k' t l :
  k t = k' t -> (forall a, a ∈ l -> k a = k' a) -> ins k t l = ins k' t l.
Proof.
  intros Ht. induction l as [|b l IH]; simpl; intros H; [done|].
  rewrite <- Ht, <- (H b) by (by apply elem_of_cons; left).
  rewrite IH; [done|]. intros a Ha. apply H. by apply elem_of_cons; right.
Qed.

Lemma sorted_ext k k' l :
  (forall a, a ∈ l -> k a = k' a) -> sorted k l -> sorted k' l.
Proof.
  intros H. rewrite !sorted_strongly.
  induction l as [|b l IH]; intros Hs; [constructor|].
  apply strongly_cons in Hs as [H1 H2]. apply strongly_cons. split.
  - apply IH; [|done]. intros a Ha. apply H. by apply elem_of_cons; right.
  - rewrite Forall_forall in *. intros x Hx. unfold le_key.
    rewrite <- (H b), <- (H x); [by apply H2| |]; apply elem_of_cons; auto.
Qed.

Lemma sorted_map k l : sorted k l <-> Sorted ts_le (map k l).
Proof.
  unfold sorted. induction l as [|a l IH]; simpl.
  - split; constructor.
  - split; intros H; inversion H as [|? ? Hs Hh]; subst; constructor.
    + by apply IH.
    + destruct l; simpl; constructor. by inversion Hh.
    + by apply IH.
    + destruct l; simpl in *; constructor. by inversion Hh.
Qed.

(** * Reading and writing the heap *)

Lemma load_ok p s tm : heap s !! p = Some tm -> load p s = Ok tm.
Proof. unfold load. by intros ->. Qed.

Lemma store_ok p f s tm :
  heap s !! p = Some tm -> store p f s = Ok (with_heap (<[p := f tm]> (heap s)) s).
Proof. unfold store. by intros ->. Qed.

Lemma same_payload_refl h : same_payload h h.
Proof. by intros a. Qed.

Lemma same_payload_trans h1 h2 h3 :
  same_payload h1 h2 -> same_payload h2 h3 -> same_payload h1 h3.
Proof. intros H1 H2 a. by rewrite H2, H1. Qed.

Lemma same_payload_insert h a tm tm' :
  h !! a = Some tm -> payload tm' = payload tm -> same_payload h (<[a := tm']> h).
Proof.
  intros Ha Hp b. destruct (decide (a = b)) as [->|Hne].
  - rewrite lookup_insert_eq, Ha. simpl. by rewrite Hp.
  - by rewrite lookup_insert_ne.
Qed.

Lemma same_payload_key h h' a : same_payload h h' -> key h' a = key h a.
Proof.
  intros H. specialize (H a). unfold key.
  destruct (h' !! a) as [x|], (h !! a) as [y|]; simpl in *; try done.
  unfold payload in H. congruence.
Qed.

Lemma same_payload_lookup h h' a tm :
  same_payload h h' -> h !! a = Some tm ->
  exists tm', h' !! a = Some tm' /\ payload tm' = payload tm.
Proof.
  intros H Ha. specialize (H a). rewrite Ha in H.
  destruct (h' !! a) as [x|]; simpl in H; [|done].
  exists x. split; [done|congruence].
Qed.

Lemma same_payload_None h h' a : same_payload h h' -> h !! a = None -> h' !! a = None.
Proof.
  intros H Ha. specialize (H a). rewrite Ha in H.
  by destruct (h' !! a).
Qed.

Lemma key_lookup h a tm : h !! a = Some tm -> key h a = time tm.
Proof. unfold key. by intros ->. Qed.

(** * List segments in the heap *)

Lemma last_ptr_cons prv a l : last_ptr prv (a :: l) = last_ptr (Some a) l.
Proof.
  unfold last_ptr. destruct l as [|b l]; [done|].
  change (last (a :: b :: l)) with (last (b :: l)).
  destruct (last (b :: l)) eqn:E; [done|].
  by apply last_None in E.
Qed.

Lemma last_ptr_snoc prv l a : last_ptr prv (l ++ [a]) = Some a.
Proof. unfold last_ptr. by rewrite last_snoc. Qed.

Lemma dseg_ext h h' prv hd l nxt :
  (forall a, a ∈ l -> links <$> (h' !! a) = links <$> (h !! a)) ->
  dseg h prv hd l nxt -> dseg h' prv hd l nxt.
Proof.
  revert prv hd. induction l as [|a l IH]; simpl; intros prv hd Hl; [done|].
  intros (-> & tm & Ha & Hp & Hd). split; [done|].
  pose proof (Hl a ltac:(by apply elem_of_cons; left)) as Hla.
  rewrite Ha in Hla. destruct (h' !! a) as [tm'|] eqn:Ha'; simpl in Hla; [|done].
  injection Hla as Hp' Hn'.
  exists tm'. split; [done|]. split; [congruence|].
  rewrite Hn'. apply IH; [|done].
  intros b Hb. apply Hl. by apply elem_of_cons; right.
Qed.

Lemma dseg_insert_notin h prv hd l nxt a x :
  a ∉ l -> dseg h prv hd l nxt -> dseg (<[a := x]> h) prv hd l nxt.
Proof.
  intros Ha. apply dseg_ext. intros b Hb.
  rewrite lookup_insert_ne; [done|]. by intros ->.
Qed.

Lemma dseg_insert_payload h prv hd l nxt a tm tm' :
  h !! a = Some tm -> links tm' = links tm ->
  dseg h prv hd l nxt -> dseg (<[a := tm']> h) prv hd l nxt.
Proof.
  intros Ha Hl. apply dseg_ext. intros b Hb.
  destruct (decide (a = b)) as [->|Hne].
  - rewrite lookup_insert_eq, Ha. simpl. by rewrite Hl.
  - by rewrite lookup_insert_ne.
Qed.

Lemma dseg_app h prv hd l1 l2 nxt :
  dseg h prv hd (l1 ++ l2) nxt <->
  exists mid, dseg h prv hd l1 mid /\ dseg h (last_ptr prv l1) mid l2 nxt.
Proof.
  revert prv hd. induction l1 as [|a l1 IH]; simpl; intros prv hd.
  - split.
    + intros H. by exists hd.
    + by intros (mid & -> & H).
  - setoid_rewrite last_ptr_cons. split.
    + intros (-> & tm & Ha & Hp & Hd).
      apply IH in Hd as (mid & H1 & H2).
      exists mid. split; [|done]. split; [done|]. by exists tm.
    + intros (mid & (-> & tm & Ha & Hp & Hd) & H2).
      split; [done|]. exists tm. split; [done|]. split; [done|].
      apply IH. by exists mid.
Qed.

Lemma dseg_lookup h prv hd l nxt a :
  dseg h prv hd l nxt -> a ∈ l -> is_Some (h !! a).
Proof.
  revert prv hd. induction l as [|b l IH]; simpl; intros prv hd H Ha.
  - by apply elem_of_nil in Ha.
  - destruct H as (-> & tm & Hb & Hp & Hd).
    apply elem_of_cons in Ha as [->|Ha]; [by exists tm|eauto].
Qed.

Lemma dseg_nil_inv h prv l nxt : dseg h prv None l nxt -> l = [] /\ nxt = None.
Proof. destruct l; simpl; [done|]. by intros [? _]. Qed.

(** The record in the middle of a doubly linked list, and its links. *)
Lemma dlist_mid h hd l1 t l2 :
  dlist h hd (l1 ++ t :: l2) ->
  exists tm, h !! t = Some tm /\ prev tm = last_ptr None l1 /\ next tm = head l2 /\
    dseg h None hd l1 (Some t) /\ dseg h (Some t) (next tm) l2 None.
Proof.
  unfold dlist. rewrite dseg_app. intros (mid & H1 & H2). simpl in H2.
  destruct H2 as (-> & tm & Ht & Hp & Hd).
  exists tm. repeat split; try done.
  destruct l2 as [|n l2]; simpl in *; [done|]. by destruct Hd as [-> _].
Qed.

Lemma dseg_set_last_next h prv hd l p tp nxt v :
  dseg h prv hd (l ++ [p]) nxt -> p ∉ l -> h !! p = Some tp ->
  dseg (<[p := set_next v tp]> h) prv hd (l ++ [p]) v.
Proof.
  intros H Hp Hl. apply dseg_app in H as (mid & H1 & H2). simpl in H2.
  destruct H2 as (-> & tm & Ht & Hpr & Hn).
  apply dseg_app. exists (Some p). split.
  - by apply dseg_insert_notin.
  - simpl. split; [done|]. rewrite lookup_insert_eq.
    eexists. split; [done|]. simpl. split; [congruence|done].
Qed.

Lemma dseg_set_head_prev h prv n l tn nxt v :
  dseg h prv (Some n) (n :: l) nxt -> n ∉ l -> h !! n = Some tn ->
  dseg (<[n := set_prev v tn]> h) v (Some n) (n :: l) nxt.
Proof.
  simpl. intros (_ & tm & Ht & Hp & Hd) Hn Hl.
  split; [done|]. rewrite lookup_insert_eq.
  eexists. split; [done|]. simpl. split; [done|].
  apply dseg_insert_notin; [done|]. congruence.
Qed.

(** * The free list *)

Lemma slist_ext h h' hd l :
  (forall a, a ∈ l -> next <$> (h' !! a) = next <$> (h !! a)) ->
  slist h hd l -> slist h' hd l.
Proof.
  revert hd. induction l as [|a l IH]; simpl; intros hd Hl; [done|].
  intros (-> & tm & Ha & Hd). split; [done|].
  pose proof (Hl a ltac:(by apply elem_of_cons; left)) as Hla.
  rewrite Ha in Hla. destruct (h' !! a) as [tm'|] eqn:Ha'; simpl in Hla; [|done].
  injection Hla as Hn'.
  exists tm'. split; [done|].
  rewrite Hn'. apply IH; [|done].
  intros b Hb. apply Hl. by apply elem_of_cons; right.
Qed.

Lemma slist_frame h h' hd l :
  (forall a, a ∈ l -> h' !! a = h !! a) -> slist h hd l -> slist h' hd l.
Proof. intros H. apply slist_ext. intros a Ha. by rewrite H. Qed.

Lemma dseg_frame h h' prv hd l nxt :
  (forall a, a ∈ l -> h' !! a = h !! a) -> dseg h prv hd l nxt -> dseg h' prv hd l nxt.
Proof. intros H. apply dseg_ext. intros a Ha. by rewrite H. Qed.

Lemma slist_lookup h hd l a : slist h hd l -> a ∈ l -> is_Some (h !! a).
Proof.
  revert hd. induction l as [|b l IH]; simpl; intros hd H Ha.
  - by apply elem_of_nil in Ha.
  - destruct H as (-> & tm & Hb & Hd).
    apply elem_of_cons in Ha as [->|Ha]; [by exists tm|eauto].
Qed.

(** A list of distinct allocated records is no longer than the heap. *)
Lemma NoDup_allocated_length (h : gmap addr Timer) (l : list addr) :
  NoDup l -> (forall a, a ∈ l -> is_Some (h !! a)) -> (length l <= size h)%nat.
Proof.
  intros Hnd Hl.
  rewrite <- (size_list_to_set (C := gset addr) l Hnd), <- size_dom.
  apply subseteq_size. intros a Ha.
  apply elem_of_list_to_set in Ha. apply elem_of_dom. auto.
Qed.

(** * list_remove *)

Lemma list_remove_spec s l1 t l2 :
  dlist (heap s) (timers s) (l1 ++ t :: l2) -> NoDup (l1 ++ t :: l2) ->
  exists s', list_remove t s = Ok s' /\
    dlist (heap s') (timers s') (l1 ++ l2) /\
    free_timers s' = free_timers s /\
    (forall a, a ∉ l1 ++ l2 -> heap s' !! a = heap s !! a) /\
    same_payload (heap s) (heap s').
Proof.
  intros Hd Hnd.
  destruct (dlist_mid _ _ _ _ _ Hd) as (tm & Ht & Hprev & Hnext & Hpre & Hsuf).
  apply NoDup_app in Hnd as (Hnd1 & Hnd12 & Hnd2).
  apply NoDup_cons in Hnd2 as [Htl2 Hnd2].
  assert (Htl1 : t ∉ l1).
  { intros H. apply (Hnd12 t H). by apply elem_of_cons; left. }
  unfold list_remove. rewrite (load_ok _ _ _ Ht). simpl.
  destruct l1 as [|x l1' _] using rev_ind.
  - (* t is the head *)
    unfold last_ptr in Hprev; simpl in Hprev. rewrite Hprev. simpl.
    simpl in Hpre.
    unfold load; simpl. rewrite Ht. simpl.
    destruct l2 as [|n l2']; simpl in Hnext; rewrite Hnext; simpl.
    + eexists. split; [done|]. simpl. repeat split; try done.
    + simpl in Hsuf. destruct Hsuf as (_ & tn & Hn & Hpn & Hsuf).
      apply NoDup_cons in Hnd2 as [Hn2 Hnd2].
      rewrite (store_ok _ _ _ tn) by done. simpl.
      eexists. split; [done|]. simpl. repeat split.
      * rewrite lookup_insert_eq. eexists. split; [done|]. simpl. split; [done|].
        by apply dseg_insert_notin.
      * intros a Ha. rewrite lookup_insert_ne; [done|].
        intros ->. apply Ha. by apply elem_of_cons; left.
      * by apply (same_payload_insert _ _ tn).
  - (* t has a predecessor x *)
    rewrite last_ptr_snoc in Hprev. rewrite Hprev. simpl.
    assert (Hx : x ∉ l1') by (by apply NoDup_app in Hnd1 as (_ & H & _); intros H'; apply (H x H'), list_elem_of_singleton).
    assert (Hxt : x <> t) by (intros ->; apply Htl1, elem_of_app; right; by apply list_elem_of_singleton).
    assert (Hxl2 : x ∉ l2).
    { intros H. apply (Hnd12 x); [apply elem_of_app; right; by apply list_elem_of_singleton|].
      by apply elem_of_cons; right. }
    pose proof Hpre as Hpre'.
    apply dseg_app in Hpre' as (mid & Hp1 & Hp2). simpl in Hp2.
    destruct Hp2 as (-> & tx & Hxl & Hxp & Hxn).
    rewrite (store_ok _ _ _ tx) by done. simpl.
    unfold load; simpl. rewrite lookup_insert_ne by done. rewrite Ht. simpl.
    destruct l2 as [|n l2']; simpl in Hnext; rewrite Hnext; simpl.
    + eexists. split; [done|]. simpl. repeat split.
      * unfold dlist. rewrite app_nil_r.
        eapply dseg_set_last_next; [exact Hpre|done|done].
      * intros a Ha. rewrite lookup_insert_ne; [done|].
        intros ->. apply Ha. rewrite app_nil_r. apply elem_of_app; right.
        by apply list_elem_of_singleton.
      * by apply (same_payload_insert _ _ tx).
    + simpl in Hsuf. destruct Hsuf as (_ & tn & Hn & Hpn & Hsuf).
      apply NoDup_cons in Hnd2 as [Hn2 Hnd2].
      assert (Hxn' : x <> n) by (intros ->; apply Hxl2; by apply elem_of_cons; left).
      assert (Hnl1 : n ∉ l1' ++ [x]).
      { intros H. apply (Hnd12 n H). apply elem_of_cons; right. by apply elem_of_cons; left. }
      rewrite (store_ok _ _ _ tn) by (simpl; by rewrite lookup_insert_ne).
      simpl.
      eexists. split; [done|]. simpl. repeat split.
      * unfold dlist. apply dseg_app. exists (Some n). split.
        -- apply dseg_insert_notin; [done|].
           eapply dseg_set_last_next; [exact Hpre|done|done].
        -- rewrite last_ptr_snoc, Hprev.
           eapply (dseg_set_head_prev _ (Some t)); [|done|by rewrite lookup_insert_ne].
           apply dseg_insert_notin; [done|].
           simpl. split; [done|]. exists tn. done.
      * intros a Ha. rewrite !lookup_insert_ne; [done| |].
        -- intros ->. apply Ha. apply elem_of_app; left. apply elem_of_app; right.
           by apply list_elem_of_singleton.
        -- intros ->. apply Ha. apply elem_of_app; right. by apply elem_of_cons; left.
      * eapply same_payload_trans.
        -- by apply (same_payload_insert _ x tx (set_next (Some n) tx)).
        -- apply (same_payload_insert _ n tn); [by rewrite lookup_insert_ne|done].
Qed.

(** * list_add *)

Lemma list_add_walk_spec t tm l :
  forall fuel s p tp prv,
  heap s !! t = Some tm -> heap s !! p = Some tp -> prev tp = prv ->
  dseg (heap s) (Some p) (next tp) l None ->
  t <> p -> t ∉ l -> p ∉ l -> NoDup l -> (length l <= fuel)%nat ->
  exists s', list_add_walk fuel t p (next tp) s = Ok s' /\
    dseg (heap s') prv (Some p) (p :: ins (key (heap s)) t l) None /\
    timers s' = timers s /\ free_timers s' = free_timers s /\
    (forall a, a ∉ t :: p :: l -> heap s' !! a = heap s !! a) /\
    same_payload (heap s) (heap s').
Proof.
  induction l as [|b l IH]; intros fuel s p tp prv Ht Hp Hprv Hd Htp Htl Hpl Hnd Hfuel.
  - simpl in Hd. rewrite Hd.
    assert (Hw : forall f, list_add_walk f t p None s =
      (s1 <- store p (set_next (Some t)) s;
       s2 <- store t (set_prev (Some p)) s1;
       store t (set_next None) s2)) by (by intros [|f]).
    rewrite Hw.
    rewrite (store_ok _ _ _ tp) by done. simpl.
    rewrite (store_ok _ _ _ tm) by (simpl; by rewrite lookup_insert_ne).
    simpl. erewrite store_ok by (simpl; by rewrite lookup_insert_eq). simpl.
    eexists. split; [done|]. simpl. repeat split; try done.
    + rewrite lookup_insert_ne by done. rewrite lookup_insert_ne by done.
      rewrite lookup_insert_eq.
      eexists. split; [done|]. simpl. split; [done|]. split; [done|].
      rewrite lookup_insert_eq. eexists. split; [done|]. done.
    + intros a Ha. apply not_elem_of_cons in Ha as [Hat Ha].
      apply not_elem_of_cons in Ha as [Hap _].
      by rewrite !lookup_insert_ne.
    + eapply same_payload_trans; [by apply (same_payload_insert _ p tp (set_next (Some t) tp))|].
      eapply same_payload_trans.
      * apply (same_payload_insert _ t tm (set_prev (Some p) tm)); [by rewrite lookup_insert_ne|done].
      * apply (same_payload_insert _ t (set_prev (Some p) tm)); [by rewrite lookup_insert_eq|done].
  - simpl in Hd. destruct Hd as (Hnb & tb & Hb & Hpb & Hd). rewrite Hnb.
    apply not_elem_of_cons in Htl as [Htb Htl].
    apply not_elem_of_cons in Hpl as [Hpb' Hpl].
    apply NoDup_cons in Hnd as [Hbl Hnd].
    destruct fuel as [|fuel]; [simpl in Hfuel; lia|].
    simpl in Hfuel. simpl.
    rewrite (load_ok _ _ _ Ht), (load_ok _ _ _ Hb). simpl.
    rewrite (key_lookup _ _ _ Ht), (key_lookup _ _ _ Hb).
    destruct (ts_lt (time tm) (time tb)) eqn:E.
    + rewrite (store_ok _ _ _ tp) by done. simpl.
      rewrite (store_ok _ _ _ tm) by (simpl; by rewrite lookup_insert_ne).
      simpl. erewrite store_ok by (simpl; by rewrite lookup_insert_eq). simpl.
      rewrite (store_ok _ _ _ tb) by (simpl; by rewrite !lookup_insert_ne).
      simpl.
      eexists. split; [done|]. simpl. repeat split; try done.
      * rewrite !(lookup_insert_ne _ _ p) by done. rewrite lookup_insert_eq.
        eexists. split; [done|]. simpl. split; [done|]. split; [done|].
        rewrite lookup_insert_ne by done. rewrite lookup_insert_eq.
        eexists. split; [done|]. simpl. split; [done|]. split; [done|].
        rewrite lookup_insert_eq.
        eexists. split; [done|]. simpl. split; [done|].
        do 4 (apply dseg_insert_notin; [done|]). done.
      * intros a Ha. apply not_elem_of_cons in Ha as [Hat Ha].
        apply not_elem_of_cons in Ha as [Hap Ha].
        apply not_elem_of_cons in Ha as [Hab Ha].
        by rewrite !lookup_insert_ne.
      * eapply same_payload_trans; [by apply (same_payload_insert _ p tp (set_next (Some t) tp))|].
        eapply same_payload_trans.
        { apply (same_payload_insert _ t tm (set_prev (Some p) tm)); [by rewrite lookup_insert_ne|done]. }
        eapply same_payload_trans.
        { apply (same_payload_insert _ t (set_prev (Some p) tm)
                   (set_next (Some b) (set_prev (Some p) tm))); [by rewrite lookup_insert_eq|done]. }
        apply (same_payload_insert _ b tb); [by rewrite !lookup_insert_ne|done].
    + destruct (IH fuel s b tb (Some p) Ht Hb Hpb Hd) as (s' & Hrun & Hds & Htm & Hfr & Hframe & Hpay);
        try done; [lia|].
      exists s'. split; [done|]. repeat split; try done.
      * rewrite Hframe, Hp.
        2:{ intros Ha. apply elem_of_cons in Ha as [->|Ha]; [done|].
            apply elem_of_cons in Ha as [->|Ha]; done. }
        eexists. split; [done|]. split; [done|]. by rewrite Hnb.
      * intros a Ha. apply Hframe.
        apply not_elem_of_cons in Ha as [Hat Ha].
        apply not_elem_of_cons in Ha as [Hap Ha].
        apply not_elem_of_cons. split; [done|]. done.
Qed.

Lemma list_add_spec s l t tm :
  dlist (heap s) (timers s) l -> NoDup l -> t ∉ l -> heap s !! t = Some tm ->
  exists s', list_add t s = Ok s' /\
    dlist (heap s') (timers s') (ins (key (heap s)) t l) /\
    free_timers s' = free_timers s /\
    (forall a, a ∉ t :: l -> heap s' !! a = heap s !! a) /\
    same_payload (heap s) (heap s').
Proof.
  intros Hd Hnd Htl Ht. unfold list_add, dlist in *.
  destruct l as [|hd l]; simpl in Hd.
  - rewrite Hd.
    rewrite (store_ok _ _ _ tm) by done. simpl.
    erewrite store_ok by (simpl; by rewrite lookup_insert_eq). simpl.
    eexists. split; [done|]. simpl. repeat split; try done.
    + rewrite lookup_insert_eq. eexists. done.
    + intros a Ha. apply not_elem_of_cons in Ha as [Hat _].
      by rewrite !lookup_insert_ne.
    + eapply same_payload_trans; [by apply (same_payload_insert _ t tm (set_next None tm))|].
      apply (same_payload_insert _ t (set_next None tm)); [by rewrite lookup_insert_eq|done].
  - destruct Hd as (Hhd & th & Hh & Hph & Hd). rewrite Hhd.
    apply not_elem_of_cons in Htl as [Hthd Htl].
    apply NoDup_cons in Hnd as [Hhl Hnd].
    rewrite (load_ok _ _ _ Ht), (load_ok _ _ _ Hh). simpl.
    rewrite (key_lookup _ _ _ Ht), (key_lookup _ _ _ Hh).
    destruct (ts_lt (time tm) (time th)) eqn:E.
    + rewrite (store_ok _ _ _ tm) by done. simpl.
      erewrite store_ok by (simpl; by rewrite lookup_insert_eq). simpl.
      rewrite (store_ok _ _ _ th) by (simpl; by rewrite !lookup_insert_ne).
      simpl.
      eexists. split; [done|]. simpl. repeat split; try done.
      * rewrite lookup_insert_ne by done. rewrite lookup_insert_eq.
        eexists. split; [done|]. simpl. split; [done|]. split; [done|].
        rewrite lookup_insert_eq.
        eexists. split; [done|]. simpl. split; [done|].
        do 3 (apply dseg_insert_notin; [done|]). done.
      * intros a Ha. apply not_elem_of_cons in Ha as [Hat Ha].
        apply not_elem_of_cons in Ha as [Hah Ha].
        by rewrite !lookup_insert_ne.
      * eapply same_payload_trans; [by apply (same_payload_insert _ t tm (set_prev None tm))|].
        eapply same_payload_trans.
        { apply (same_payload_insert _ t (set_prev None tm)
                   (set_next (Some hd) (set_prev None tm))); [by rewrite lookup_insert_eq|done]. }
        apply (same_payload_insert _ hd th); [by rewrite !lookup_insert_ne|done].
    + destruct (list_add_walk_spec t tm l (size (heap s)) s hd th None Ht Hh Hph Hd)
        as (s' & Hrun & Hds & Htm & Hfr & Hframe & Hpay); try done.
      { assert (Hlen : (length (t :: hd :: l) <= size (heap s))%nat).
        { apply NoDup_allocated_length.
          - apply NoDup_cons. split; [by apply not_elem_of_cons|by apply NoDup_cons].
          - intros a Ha. apply elem_of_cons in Ha as [->|Ha]; [by eexists|].
            apply elem_of_cons in Ha as [->|Ha]; [by eexists|].
            eapply dseg_lookup; done. }
        simpl in Hlen. lia. }
      exists s'. split; [done|]. split; [|done].
      rewrite Htm, Hhd. done.
Qed.

(** * Well-formed states *)

Lemma dseg_chain h prv hd l fuel :
  dseg h prv hd l None -> (length l <= fuel)%nat -> chain fuel h hd = l.
Proof.
  revert prv hd fuel. induction l as [|a l IH]; simpl; intros prv hd fuel.
  - intros -> _. by destruct fuel.
  - intros (-> & tm & Ha & _ & Hd) Hf.
    destruct fuel as [|fuel]; [lia|]. simpl. rewrite Ha. f_equal.
    eapply IH; [done|lia].
Qed.

Lemma slist_chain h hd l fuel :
  slist h hd l -> (length l <= fuel)%nat -> chain fuel h hd = l.
Proof.
  revert hd fuel. induction l as [|a l IH]; simpl; intros hd fuel.
  - intros -> _. by destruct fuel.
  - intros (-> & tm & Ha & Hd) Hf.
    destruct fuel as [|fuel]; [lia|]. simpl. rewrite Ha. f_equal.
    eapply IH; [done|lia].
Qed.

Lemma wf_allocated s la lf a : wf s la lf -> a ∈ la ++ lf -> is_Some (heap s !! a).
Proof.
  intros [Ha Hf _] Hin. apply elem_of_app in Hin as [Hin|Hin].
  - eapply dseg_lookup; done.
  - eapply slist_lookup; done.
Qed.

Lemma wf_length s la lf : wf s la lf -> (length (la ++ lf) <= size (heap s))%nat.
Proof.
  intros H. apply NoDup_allocated_length; [apply H|].
  intros a. by apply wf_allocated.
Qed.

Lemma wf_active_list s la lf : wf s la lf -> active_list s = la.
Proof.
  intros H. pose proof (wf_length _ _ _ H) as Hl. rewrite length_app in Hl.
  eapply dseg_chain; [apply H|lia].
Qed.

Lemma wf_free_list s la lf : wf s la lf -> free_list s = lf.
Proof.
  intros H. pose proof (wf_length _ _ _ H) as Hl. rewrite length_app in Hl.
  eapply slist_chain; [apply H|lia].
Qed.

Lemma wf_init : wf init_state [] [].
Proof. split; simpl; try done. constructor. Qed.

Lemma wf_mid s l1 t l2 lf :
  wf s (l1 ++ t :: l2) lf ->
  exists tm, heap s !! t = Some tm /\
    prev tm = last_ptr None l1 /\ next tm = head l2 /\
    (t ∉ l1 ++ l2) /\ (t ∉ lf) /\ NoDup (l1 ++ l2) /\ NoDup ((l1 ++ l2) ++ lf).
Proof.
  intros [Ha Hf Hnd].
  destruct (dlist_mid _ _ _ _ _ Ha) as (tm & Hl & Hp & Hn & _).
  exists tm. repeat split; try done.
  - apply NoDup_app in Hnd as (Hnd & _ & _).
    apply NoDup_app in Hnd as (H1 & H12 & H2).
    apply NoDup_cons in H2 as [H2 _].
    intros H. apply elem_of_app in H as [H|H]; [|done].
    apply (H12 t H). by apply elem_of_cons; left.
  - apply NoDup_app in Hnd as (_ & H & _). apply H.
    apply elem_of_app; right. by apply elem_of_cons; left.
  - apply NoDup_app in Hnd as (Hnd & _ & _).
    rewrite <- Permutation_middle in Hnd. by apply NoDup_cons in Hnd as [_ Hnd].
  - assert (Hperm : (l1 ++ t :: l2) ++ lf ≡ₚ t :: (l1 ++ l2) ++ lf).
    { rewrite <- Permutation_middle. done. }
    rewrite Hperm in Hnd. by apply NoDup_cons in Hnd as [_ Hnd].
Qed.

(** A write to the payload of an allocated record. *)
Lemma store_payload_spec s t f tm :
  heap s !! t = Some tm -> links (f tm) = links tm ->
  exists s', store t f s = Ok s' /\
    heap s' = <[t := f tm]> (heap s) /\
    timers s' = timers s /\ free_timers s' = free_timers s.
Proof.
  intros Ht Hl. rewrite (store_ok _ _ _ tm) by done.
  eexists. split; [done|]. done.
Qed.

Lemma wf_insert_payload s la lf t tm tm' s' :
  wf s la lf -> heap s !! t = Some tm -> links tm' = links tm ->
  heap s' = <[t := tm']> (heap s) ->
  timers s' = timers s -> free_timers s' = free_timers s ->
  wf s' la lf.
Proof.
  intros [Ha Hf Hnd] Ht Hl Hh Htm Hfr. split; [| |done].
  - unfold dlist. rewrite Hh, Htm. by apply (dseg_insert_payload _ _ _ _ _ _ tm).
  - rewrite Hh, Hfr. eapply slist_ext; [|done].
    intros a _. destruct (decide (t = a)) as [->|Hne].
    + rewrite lookup_insert_eq, Ht. simpl. unfold links in Hl. congruence.
    + by rewrite lookup_insert_ne.
Qed.

(** * list_resort *)

Lemma list_resort_spec s l1 t l2 lf :
  wf s (l1 ++ t :: l2) lf ->
  exists s', list_resort t s = Ok s' /\
    wf s' (ins (key (heap s)) t (l1 ++ l2)) lf /\
    (forall a, a ∉ l1 ++ t :: l2 -> heap s' !! a = heap s !! a) /\
    same_payload (heap s) (heap s').
Proof.
  intros Hwf.
  destruct (wf_mid s l1 t l2 lf Hwf) as (tm & Ht & _ & _ & _ & Htf & _ & _).
  destruct Hwf as [Ha Hf Hnd].
  pose proof Hnd as Hnd0.
  apply NoDup_app in Hnd as (Hnda & Hdisj & Hndf).
  destruct (list_remove_spec s l1 t l2 Ha Hnda) as (s1 & Hrm & Hd1 & Hfr1 & Hframe1 & Hpay1).
  assert (Hperm : (l1 ++ t :: l2) ++ lf ≡ₚ t :: (l1 ++ l2) ++ lf).
  { rewrite <- Permutation_middle. done. }
  rewrite Hperm in Hnd0. apply NoDup_cons in Hnd0 as [Htn Hnd0].
  assert (Htl : t ∉ l1 ++ l2) by (intros H; apply Htn, elem_of_app; by left).
  assert (Ht1 : heap s1 !! t = Some tm) by (by rewrite Hframe1).
  apply NoDup_app in Hnd0 as (Hnd12 & Hdisj' & _).
  destruct (list_add_spec s1 (l1 ++ l2) t tm Hd1 Hnd12 Htl Ht1)
    as (s2 & Hadd & Hd2 & Hfr2 & Hframe2 & Hpay2).
  exists s2. unfold list_resort. rewrite Hrm. simpl. split; [done|].
  assert (Hk : ins (key (heap s1)) t (l1 ++ l2) = ins (key (heap s)) t (l1 ++ l2)).
  { apply ins_ext; [by apply same_payload_key|]. intros a _. by apply same_payload_key. }
  rewrite Hk in Hd2.
  repeat split.
  - done.
  - rewrite Hfr2, Hfr1. eapply slist_frame; [|done].
    intros a Ha'. rewrite Hframe2, Hframe1; [done| |].
    + intros H. by apply (Hdisj' a H).
    + intros H. apply elem_of_cons in H as [->|H]; [done|]. by apply (Hdisj' a H).
  - apply NoDup_app. repeat split; [|
      |done].
    + by apply ins_NoDup.
    + intros a Ha' Hfa. apply elem_of_ins in Ha' as [->|Ha']; [done|].
      by apply (Hdisj' a Ha').
  - intros a Ha'. rewrite Hframe2, Hframe1; [done| |].
    + intros H. apply Ha'. apply elem_of_app in H as [H|H]; apply elem_of_app; [by left|].
      right. by apply elem_of_cons; right.
    + intros H. apply Ha'. apply elem_of_cons in H as [->|H].
      * apply elem_of_app; right. by apply elem_of_cons; left.
      * apply elem_of_app in H as [H|H]; apply elem_of_app; [by left|].
        right. by apply elem_of_cons; right.
  - by eapply same_payload_trans.
Qed.

(** * tmr_cancel *)

Lemma tmr_cancel_spec s l1 t l2 lf :
  wf s (l1 ++ t :: l2) lf ->
  exists s', tmr_cancel t s = Ok s' /\
    wf s' (l1 ++ l2) (t :: lf) /\
    free_timers s' = Some t /\
    (forall a, a ∉ t :: l1 ++ l2 -> heap s' !! a = heap s !! a) /\
    same_payload (heap s) (heap s').
Proof.
  intros Hwf.
  destruct (wf_mid s l1 t l2 lf Hwf) as (tm & Ht & _ & _ & _ & Htf & _ & _).
  destruct Hwf as [Ha Hf Hnd].
  pose proof Hnd as Hnd0.
  apply NoDup_app in Hnd as (Hnda & Hdisj & Hndf).
  destruct (list_remove_spec s l1 t l2 Ha Hnda) as (s1 & Hrm & Hd1 & Hfr1 & Hframe1 & Hpay1).
  assert (Hperm : (l1 ++ t :: l2) ++ lf ≡ₚ t :: (l1 ++ l2) ++ lf).
  { rewrite <- Permutation_middle. done. }
  rewrite Hperm in Hnd0. apply NoDup_cons in Hnd0 as [Htn Hnd0].
  assert (Htl : t ∉ l1 ++ l2) by (intros H; apply Htn, elem_of_app; by left).
  assert (Ht1 : heap s1 !! t = Some tm) by (by rewrite Hframe1).
  pose proof Hnd0 as Hnd1.
  apply NoDup_app in Hnd0 as (Hnd12 & Hdisj' & _).
  unfold tmr_cancel. rewrite Hrm. simpl.
  rewrite (store_ok _ _ _ tm) by done. simpl.
  erewrite store_ok by (simpl; by rewrite lookup_insert_eq). simpl.
  eexists. split; [done|]. simpl. split; [split|split; [done|split]].
  - unfold dlist. do 2 (apply dseg_insert_notin; [done|]). done.
  - simpl. split; [done|]. rewrite lookup_insert_eq.
    eexists. split; [done|]. simpl. rewrite Hfr1.
    eapply slist_frame; [|done].
    intros a Ha'. rewrite !lookup_insert_ne by (by intros ->).
    apply Hframe1. intros H. by apply (Hdisj' a H).
  - simpl. assert (Hp2 : (l1 ++ l2) ++ t :: lf ≡ₚ t :: (l1 ++ l2) ++ lf).
    { rewrite <- Permutation_middle. done. }
    rewrite Hp2. by apply NoDup_cons.
  - intros a Ha'. apply not_elem_of_cons in Ha' as [Hat Ha'].
    rewrite !lookup_insert_ne by done. by apply Hframe1.
  - eapply same_payload_trans; [done|].
    eapply same_payload_trans.
    + by apply (same_payload_insert _ t tm (set_next (free_timers s1) tm)).
    + apply (same_payload_insert _ t (set_next (free_timers s1) tm)); [by rewrite lookup_insert_eq|done].
Qed.

(** * tmr_create *)

(** The part of tmr_create after a record has been acquired. *)
Lemma tmr_create_fill_spec now proc data ns per t s0 la lf tm0 :
  dlist (heap s0) (timers s0) la -> slist (heap s0) (free_timers s0) lf ->
  NoDup (la ++ lf) -> t ∉ la ++ lf -> heap s0 !! t = Some tm0 ->
  exists s',
    (s1 <- store t (set_timer_proc proc) s0;
     s2 <- store t (set_client_data data) s1;
     s3 <- store t (set_nsecs ns) s2;
     s4 <- store t (set_periodic per) s3;
     s5 <- store t (set_time now) s4;
     s6 <- store t (fun tm => set_time (add_nsecs (time tm) ns) tm) s5;
     s7 <- list_add t s6;
     Ok (Some t, s7)) = Ok (Some t, s') /\
    wf s' (ins (key (heap s')) t la) lf /\
    (exists tm, heap s' !! t = Some tm /\
       payload tm = (proc, data, ns, per, add_nsecs now ns)) /\
    (forall a, a ∉ t :: la -> heap s' !! a = heap s0 !! a) /\
    (forall a, a <> t -> payload <$> (heap s' !! a) = payload <$> (heap s0 !! a)) /\
    free_timers s' = free_timers s0.
Proof.
  intros Hd Hs Hnd Ht Hl.
  apply not_elem_of_app in Ht as [Hta Htf].
  pose proof Hnd as Hnd0. apply NoDup_app in Hnd0 as (Hnda & Hdisj & Hndf).
  rewrite (store_ok _ _ _ tm0) by done. simpl.
  do 5 (erewrite store_ok by (simpl; by rewrite lookup_insert_eq); simpl).
  rewrite !insert_insert_eq.
  set (tm6 := set_time _ _).
  set (s6 := with_heap _ _).
  assert (Hd6 : dlist (heap s6) (timers s6) la) by (by apply dseg_insert_notin).
  assert (Ht6 : heap s6 !! t = Some tm6) by (simpl; by rewrite lookup_insert_eq).
  destruct (list_add_spec s6 la t tm6 Hd6 Hnda Hta Ht6)
    as (s7 & Hadd & Hd7 & Hfr7 & Hframe7 & Hpay7).
  rewrite Hadd. simpl. exists s7. split; [done|].
  assert (Hk : ins (key (heap s6)) t la = ins (key (heap s7)) t la).
  { apply ins_ext; [by rewrite (same_payload_key _ _ _ Hpay7)|].
    intros a _. by rewrite (same_payload_key _ _ _ Hpay7). }
  rewrite Hk in Hd7.
  split; [split|split; [|split; [|split]]].
  - done.
  - rewrite Hfr7. simpl. eapply slist_frame; [|done].
    intros a Ha. rewrite Hframe7.
    + simpl. rewrite lookup_insert_ne; [done|]. by intros ->.
    + intros H. apply elem_of_cons in H as [->|H]; [done|]. by apply (Hdisj a H).
  - apply NoDup_app. split; [by apply ins_NoDup|]. split; [|done].
    intros a Ha Hfa. apply elem_of_ins in Ha as [->|Ha]; [done|].
    by apply (Hdisj a Ha).
  - destruct (same_payload_lookup _ _ _ _ Hpay7 Ht6) as (tm7 & H7 & Hp7).
    exists tm7. split; [done|]. rewrite Hp7. done.
  - intros a Ha. rewrite Hframe7 by done. simpl.
    apply not_elem_of_cons in Ha as [Hat _]. by rewrite lookup_insert_ne.
  - intros a Ha. rewrite Hpay7. simpl. by rewrite lookup_insert_ne.
  - by rewrite Hfr7.
Qed.

Lemma tmr_create_reuse_spec m clock nowP proc data ns per s la t lf :
  wf s la (t :: lf) ->
  exists s',
    tmr_create m clock nowP proc data ns per s = Ok (Some t, s') /\
    wf s' (ins (key (heap s')) t la) lf /\
    (exists tm, heap s' !! t = Some tm /\
       payload tm = (proc, data, ns, per, add_nsecs (getnow clock nowP) ns)) /\
    (forall a, a ∉ t :: la -> heap s' !! a = heap s !! a) /\
    (forall a, a <> t -> payload <$> (heap s' !! a) = payload <$> (heap s !! a)).
Proof.
  intros [Ha Hf Hnd]. simpl in Hf. destruct Hf as (Hft & tm0 & Ht & Hf).
  assert (Hp : la ++ t :: lf ≡ₚ t :: la ++ lf) by (by rewrite <- Permutation_middle).
  rewrite Hp in Hnd. apply NoDup_cons in Hnd as [Htn Hnd].
  unfold tmr_create. rewrite Hft. rewrite (load_ok _ _ _ Ht).
  unfold res_bind at 1. unfold res_bind at 1.
  destruct (tmr_create_fill_spec (getnow clock nowP) proc data ns per t
              (with_free_timers (next tm0) s) la lf tm0)
    as (s' & Hrun & Hwf & Hpay & Hframe & Hother & _); try done.
  exists s'. split; [exact Hrun|]. done.
Qed.

Lemma tmr_create_malloc_spec a junk clock nowP proc data ns per s la :
  wf s la [] -> heap s !! a = None ->
  exists s',
    tmr_create (Some (a, junk)) clock nowP proc data ns per s = Ok (Some a, s') /\
    wf s' (ins (key (heap s')) a la) [] /\
    (exists tm, heap s' !! a = Some tm /\
       payload tm = (proc, data, ns, per, add_nsecs (getnow clock nowP) ns)) /\
    (forall b, b ∉ a :: la -> heap s' !! b = heap s !! b) /\
    (forall b, b <> a -> payload <$> (heap s' !! b) = payload <$> (heap s !! b)).
Proof.
  intros Hwf Hfresh. pose proof Hwf as [Ha Hf Hnd]. simpl in Hf.
  assert (Hal : a ∉ la ++ []).
  { intros H. destruct (wf_allocated _ _ _ _ Hwf H) as [x Hx]. congruence. }
  unfold tmr_create. rewrite Hf.
  unfold res_bind at 1.
  destruct (tmr_create_fill_spec (getnow clock nowP) proc data ns per a
              (with_heap (<[a := junk]> (heap s)) s) la [] junk)
    as (s' & Hrun & Hwf' & Hpay & Hframe & Hother & _); try done.
  - simpl. apply dseg_insert_notin; [|done]. by rewrite app_nil_r in Hal.
  - simpl. by rewrite lookup_insert_eq.
  - exists s'. split; [exact Hrun|]. split; [done|]. split; [done|]. split.
    + intros b Hb. rewrite Hframe by done. simpl.
      apply not_elem_of_cons in Hb as [Hb _]. by rewrite lookup_insert_ne.
    + intros b Hb. rewrite Hother by done. simpl. by rewrite lookup_insert_ne.
Qed.

Lemma tmr_create_fail_spec clock nowP proc data ns per s :
  free_timers s = None ->
  tmr_create None clock nowP proc data ns per s = Ok (None, s).
Proof. intros H. unfold tmr_create. by rewrite H. Qed.

(** * tmr_reset *)

Lemma tmr_reset_spec clock nowP s l1 t l2 lf :
  wf s (l1 ++ t :: l2) lf ->
  exists s' tm,
    tmr_reset clock nowP t s = Ok s' /\
    wf s' (ins (key (heap s')) t (l1 ++ l2)) lf /\
    heap s !! t = Some tm /\
    key (heap s') t = add_nsecs (getnow clock nowP) (nsecs tm) /\
    (forall a, a <> t -> payload <$> (heap s' !! a) = payload <$> (heap s !! a)).
Proof.
  intros Hwf.
  destruct (wf_mid s l1 t l2 lf Hwf) as (tm & Ht & _).
  unfold tmr_reset.
  rewrite (store_ok _ _ _ tm) by done. simpl.
  erewrite store_ok by (simpl; by rewrite lookup_insert_eq). simpl.
  rewrite insert_insert_eq.
  set (tm2 := set_time _ _). set (s2 := with_heap _ _).
  assert (Hwf2 : wf s2 (l1 ++ t :: l2) lf).
  { by apply (wf_insert_payload s _ _ t tm tm2). }
  destruct (list_resort_spec s2 l1 t l2 lf Hwf2) as (s' & Hrun & Hwf' & Hframe & Hpay).
  exists s', tm. split; [done|].
  assert (Hk : ins (key (heap s2)) t (l1 ++ l2) = ins (key (heap s')) t (l1 ++ l2)).
  { apply ins_ext; [by rewrite (same_payload_key _ _ _ Hpay)|].
    intros a _. by rewrite (same_payload_key _ _ _ Hpay). }
  rewrite Hk in Hwf'. split; [done|]. split; [done|]. split.
  - rewrite (same_payload_key _ _ _ Hpay). unfold key. simpl.
    by rewrite lookup_insert_eq.
  - intros a Ha. rewrite Hpay. simpl. by rewrite lookup_insert_ne.
Qed.

(** * list_add and list_remove on well-formed states *)

Lemma list_add_wf s la lf t tm :
  wf s la lf -> t ∉ la ++ lf -> heap s !! t = Some tm ->
  exists s', list_add t s = Ok s' /\
    wf s' (ins (key (heap s)) t la) lf /\
    same_payload (heap s) (heap s').
Proof.
  intros [Ha Hf Hnd] Ht Hl.
  apply not_elem_of_app in Ht as [Hta Htf].
  pose proof Hnd as Hnd0. apply NoDup_app in Hnd0 as (Hnda & Hdisj & Hndf).
  destruct (list_add_spec s la t tm Ha Hnda Hta Hl)
    as (s' & Hadd & Hd' & Hfr' & Hframe' & Hpay').
  exists s'. split; [done|]. split; [split|done].
  - done.
  - rewrite Hfr'. eapply slist_frame; [|done].
    intros a Ha'. apply Hframe'.
    intros H. apply elem_of_cons in H as [->|H]; [done|]. by apply (Hdisj a H).
  - apply NoDup_app. split; [by apply ins_NoDup|]. split; [|done].
    intros a Ha' Hfa. apply elem_of_ins in Ha' as [->|Ha']; [done|].
    by apply (Hdisj a Ha').
Qed.

Lemma list_remove_wf s l1 t l2 lf :
  wf s (l1 ++ t :: l2) lf ->
  exists s', list_remove t s = Ok s' /\
    wf s' (l1 ++ l2) lf /\
    same_payload (heap s) (heap s').
Proof.
  intros Hwf.
  destruct Hwf as [Ha Hf Hnd].
  pose proof Hnd as Hnd0.
  apply NoDup_app in Hnd as (Hnda & Hdisj & Hndf).
  destruct (list_remove_spec s l1 t l2 Ha Hnda) as (s1 & Hrm & Hd1 & Hfr1 & Hframe1 & Hpay1).
  assert (Hperm : (l1 ++ t :: l2) ++ lf ≡ₚ t :: (l1 ++ l2) ++ lf).
  { rewrite <- Permutation_middle. done. }
  rewrite Hperm in Hnd0. apply NoDup_cons in Hnd0 as [Htn Hnd0].
  pose proof Hnd0 as Hnd1.
  apply NoDup_app in Hnd1 as (_ & Hdisj' & _).
  exists s1. split; [done|]. split; [split|done]; try done.
  rewrite Hfr1. eapply slist_frame; [|done].
  intros a Ha'. apply Hframe1. intros H. by apply (Hdisj' a H).
Qed.

Lemma wf_well_formed s la lf : wf s la lf -> well_formed s.
Proof.
  intros H. unfold well_formed.
  by rewrite (wf_active_list _ _ _ H), (wf_free_list _ _ _ H).
Qed.

Lemma sorted_expiries s : sorted (key (heap s)) (active_list s) <-> Sorted ts_le (expiries s).
Proof. apply sorted_map. Qed.

Lemma wf_next_active s la lf t tm n :
  wf s la lf -> t ∈ la -> heap s !! t = Some tm -> next tm = Some n -> n ∈ la.
Proof.
  intros Hwf Ht Htm Hn.
  apply list_elem_of_split in Ht as (l1 & l2 & ->).
  destruct (wf_mid s l1 t l2 _ Hwf) as (tm0 & Ht0 & _ & Hn0 & _).
  assert (tm0 = tm) by congruence. subst tm0. rewrite Hn in Hn0.
  apply elem_of_app; right. apply elem_of_cons; right.
  destruct l2 as [|b l2]; simplify_eq/=. by apply elem_of_cons; left.
Qed.

(** * tmr_run *)

Section RunSpec.
Variable procs : TimerProc -> TimerClientData -> timespec -> State -> timespec * State.

Lemma tmr_run_body_break now t s tm :
  heap s !! t = Some tm -> ts_lt now (time tm) = true ->
  tmr_run_body procs now t s = Ok (None, s).
Proof.
  intros Ht Hlt. unfold tmr_run_body. rewrite (load_ok _ _ _ Ht). simpl.
  by rewrite Hlt.
Qed.

(** The turn for a due timer whose callback has returned with [now1] in
    [now] and with the state [s1], in which the timer is still active. *)
Lemma tmr_run_body_fire_periodic now s t tm now1 s1 l1 l2 lf tm1 :
  heap s !! t = Some tm -> ts_lt now (time tm) = false ->
  procs (timer_proc tm) (client_data tm) now s = (now1, s1) ->
  wf s1 (l1 ++ t :: l2) lf -> heap s1 !! t = Some tm1 -> periodic tm1 <> 0 ->
  exists s' tm',
    tmr_run_body procs now t s =
      Ok (Some (next tm, mk_call t (timer_proc tm) (client_data tm) now, now1), s') /\
    wf s' (ins (key (heap s')) t (l1 ++ l2)) lf /\
    heap s' !! t = Some tm' /\
    payload tm' = (timer_proc tm1, client_data tm1, nsecs tm1, periodic tm1,
                   add_nsecs (time tm1) (nsecs tm1)) /\
    (forall a, a <> t -> payload <$> (heap s' !! a) = payload <$> (heap s1 !! a)).
Proof.
  intros Ht Hdue Hp Hwf Ht1 Hper.
  unfold tmr_run_body. rewrite (load_ok _ _ _ Ht). cbn [res_bind].
  rewrite Hdue, Hp. rewrite (load_ok _ _ _ Ht1). cbn [res_bind].
  destruct (Z.eqb_spec (periodic tm1) 0) as [|_]; [done|]. cbn [negb].
  rewrite (store_ok _ _ _ tm1) by done. cbn [res_bind].
  set (tm2 := set_time _ _). set (s2 := with_heap _ _).
  assert (Hwf2 : wf s2 (l1 ++ t :: l2) lf).
  { by apply (wf_insert_payload s1 _ _ t tm1 tm2). }
  destruct (list_resort_spec s2 l1 t l2 lf Hwf2) as (s' & Hrun & Hwf' & Hframe & Hpay).
  rewrite Hrun. cbn [res_bind].
  assert (Ht2 : heap s2 !! t = Some tm2) by (simpl; by rewrite lookup_insert_eq).
  destruct (same_payload_lookup _ _ _ _ Hpay Ht2) as (tm' & Ht' & Hp').
  exists s', tm'. split; [done|].
  assert (Hk : ins (key (heap s2)) t (l1 ++ l2) = ins (key (heap s')) t (l1 ++ l2)).
  { apply ins_ext; [by rewrite (same_payload_key _ _ _ Hpay)|].
    intros a _. by rewrite (same_payload_key _ _ _ Hpay). }
  rewrite Hk in Hwf'. split; [done|]. split; [done|]. split.
  - by rewrite Hp'.
  - intros a Ha. rewrite Hpay. simpl. by rewrite lookup_insert_ne.
Qed.

Lemma tmr_run_body_fire_oneshot now s t tm now1 s1 l1 l2 lf tm1 :
  heap s !! t = Some tm -> ts_lt now (time tm) = false ->
  procs (timer_proc tm) (client_data tm) now s = (now1, s1) ->
  wf s1 (l1 ++ t :: l2) lf -> heap s1 !! t = Some tm1 -> periodic tm1 = 0 ->
  exists s',
    tmr_run_body procs now t s =
      Ok (Some (next tm, mk_call t (timer_proc tm) (client_data tm) now, now1), s') /\
    wf s' (l1 ++ l2) (t :: lf) /\
    (forall a, a ∉ t :: l1 ++ l2 -> heap s' !! a = heap s1 !! a) /\
    same_payload (heap s1) (heap s').
Proof.
  intros Ht Hdue Hp Hwf Ht1 Hper.
  unfold tmr_run_body. rewrite (load_ok _ _ _ Ht). cbn [res_bind].
  rewrite Hdue, Hp. rewrite (load_ok _ _ _ Ht1). cbn [res_bind].
  rewrite Hper. cbn [Z.eqb negb].
  destruct (tmr_cancel_spec s1 l1 t l2 lf Hwf) as (s' & Hrun & Hwf' & _ & Hframe & Hpay).
  rewrite Hrun. cbn [res_bind]. by exists s'.
Qed.

(** The same turn when the callback has left the state as it was. *)
Lemma tmr_run_body_periodic (Hkeep : procs_keep_state procs) now s l1 t l2 lf tm :
  wf s (l1 ++ t :: l2) lf -> heap s !! t = Some tm ->
  ts_lt now (time tm) = false -> periodic tm <> 0 ->
  exists s' tm',
    tmr_run_body procs now t s =
      Ok (Some (head l2, mk_call t (timer_proc tm) (client_data tm) now,
                fst (procs (timer_proc tm) (client_data tm) now s)), s') /\
    wf s' (ins (key (heap s')) t (l1 ++ l2)) lf /\
    heap s' !! t = Some tm' /\
    payload tm' = (timer_proc tm, client_data tm, nsecs tm, periodic tm,
                   add_nsecs (time tm) (nsecs tm)) /\
    (forall a, a <> t -> payload <$> (heap s' !! a) = payload <$> (heap s !! a)).
Proof.
  intros Hwf Ht Hdue Hper.
  destruct (wf_mid s l1 t l2 lf Hwf) as (tm0 & Ht0 & _ & Hn & _).
  assert (tm0 = tm) by congruence. subst tm0.
  pose proof (Hkeep (timer_proc tm) (client_data tm) now s) as Hs1.
  destruct (procs (timer_proc tm) (client_data tm) now s) as [now1 s1] eqn:Hp.
  simpl in Hs1. subst s1. rewrite <- Hn. simpl.
  by apply (tmr_run_body_fire_periodic now s t tm now1 s l1 l2 lf tm).
Qed.

Lemma tmr_run_body_oneshot (Hkeep : procs_keep_state procs) now s l1 t l2 lf tm :
  wf s (l1 ++ t :: l2) lf -> heap s !! t = Some tm ->
  ts_lt now (time tm) = false -> periodic tm = 0 ->
  exists s',
    tmr_run_body procs now t s =
      Ok (Some (head l2, mk_call t (timer_proc tm) (client_data tm) now,
                fst (procs (timer_proc tm) (client_data tm) now s)), s') /\
    wf s' (l1 ++ l2) (t :: lf) /\
    (forall a, a ∉ t :: l1 ++ l2 -> heap s' !! a = heap s !! a) /\
    same_payload (heap s) (heap s').
Proof.
  intros Hwf Ht Hdue Hper.
  destruct (wf_mid s l1 t l2 lf Hwf) as (tm0 & Ht0 & _ & Hn & _).
  assert (tm0 = tm) by congruence. subst tm0.
  pose proof (Hkeep (timer_proc tm) (client_data tm) now s) as Hs1.
  destruct (procs (timer_proc tm) (client_data tm) now s) as [now1 s1] eqn:Hp.
  simpl in Hs1. subst s1. rewrite <- Hn. simpl.
  by apply (tmr_run_body_fire_oneshot now s t tm now1 s l1 l2 lf tm).
Qed.

(** Callbacks that keep the lists well formed and sorted and take no timer
    off the active list keep the order; those that leave the state alone do
    so. *)
Lemma procs_grow_order :
  (forall p d now s, well_formed s -> Sorted ts_le (expiries s) ->
     well_formed (snd (procs p d now s)) /\
     Sorted ts_le (expiries (snd (procs p d now s))) /\
     forall a, a ∈ active_list s -> a ∈ active_list (snd (procs p d now s))) ->
  procs_keep_order procs.
Proof.
  intros Hgrow now s t tm Hwf Hs Ht Htm _.
  destruct (Hgrow (timer_proc tm) (client_data tm) now s Hwf Hs) as (Hwf1 & Hs1 & Hsub).
  split; [done|]. split; [done|]. split; [by apply Hsub|].
  intros n Hn. apply Hsub. by eapply wf_next_active.
Qed.

Lemma procs_keep_state_order : procs_keep_state procs -> procs_keep_order procs.
Proof.
  intros Hkeep. apply procs_grow_order. intros p d now s Hwf Hs.
  by rewrite Hkeep.
Qed.

Hypothesis procs_order : procs_keep_order procs.

(** What one turn of the loop does to a well-formed, sorted state. *)
Lemma tmr_run_body_inv now s la lf t r s' :
  wf s la lf -> sorted (key (heap s)) la -> t ∈ la ->
  tmr_run_body procs now t s = Ok (r, s') ->
  exists la' lf', wf s' la' lf' /\ sorted (key (heap s')) la' /\
    (forall b c now1, r = Some (Some b, c, now1) -> b ∈ la').
Proof.
  intros Hwf Hs Ht Hrun.
  pose proof Ht as Hin.
  apply list_elem_of_split in Ht as (l1 & l2 & ->).
  destruct (wf_mid s l1 t l2 lf Hwf) as (tm & Htm & _ & Hn & Htl & _).
  destruct (ts_lt now (time tm)) eqn:Hdue.
  { rewrite (tmr_run_body_break now t s tm Htm Hdue) in Hrun.
    injection Hrun as <- <-. exists (l1 ++ t :: l2), lf. split; [done|]. split; [done|].
    by intros ? ? ? [=]. }
  (* the state that the callback leaves *)
  destruct (procs_order now s t tm) as (Hwf1 & Hs1 & Ht1 & Hn1);
    [by eapply wf_well_formed
    |apply sorted_expiries; by rewrite (wf_active_list _ _ _ Hwf)
    |by rewrite (wf_active_list _ _ _ Hwf)|done|done|].
  destruct (procs (timer_proc tm) (client_data tm) now s) as [now1 s1] eqn:Hp.
  simpl in Hwf1, Hs1, Ht1, Hn1. unfold well_formed in Hwf1.
  apply sorted_expiries in Hs1.
  apply list_elem_of_split in Ht1 as (k1 & k2 & Hla1). rewrite Hla1 in Hwf1, Hs1, Hn1.
  destruct (wf_mid s1 k1 t k2 _ Hwf1) as (tm1 & Htm1 & _ & _ & Htk & _).
  assert (Hnext : forall b, next tm = Some b -> b ∈ k1 ++ k2).
  { intros b Hb. specialize (Hn1 b Hb).
    assert (Hbt : b <> t).
    { intros ->. rewrite Hn in Hb. apply Htl. apply elem_of_app; right.
      destruct l2 as [|x l2]; simplify_eq/=. by apply elem_of_cons; left. }
    apply elem_of_app in Hn1 as [H|H]; apply elem_of_app; [by left|right].
    apply elem_of_cons in H as [H|H]; done. }
  destruct (Z.eq_dec (periodic tm1) 0) as [Hper|Hper].
  - destruct (tmr_run_body_fire_oneshot now s t tm now1 s1 k1 k2 _ tm1 Htm Hdue Hp Hwf1 Htm1 Hper)
      as (s2 & Hrun2 & Hwf2 & Hframe & Hpay).
    rewrite Hrun2 in Hrun. injection Hrun as <- <-.
    exists (k1 ++ k2), (t :: free_list s1). split; [done|]. split.
    + apply (sorted_ext (key (heap s1))); [intros a _; by rewrite (same_payload_key _ _ _ Hpay)|].
      by eapply sorted_remove.
    + intros b c now2 Hr. injection Hr as Hb _ _. auto.
  - destruct (tmr_run_body_fire_periodic now s t tm now1 s1 k1 k2 _ tm1 Htm Hdue Hp Hwf1 Htm1 Hper)
      as (s2 & tm2 & Hrun2 & Hwf2 & Ht2 & Hp2 & Hother).
    rewrite Hrun2 in Hrun. injection Hrun as <- <-.
    exists (ins (key (heap s2)) t (k1 ++ k2)), (free_list s1). split; [done|]. split.
    + apply ins_sorted.
      apply (sorted_ext (key (heap s1))); [|by eapply sorted_remove].
      intros a Ha. assert (Hat : a <> t) by (by intros ->).
      specialize (Hother a Hat). unfold key.
      destruct (heap s2 !! a), (heap s1 !! a); simpl in *; try done.
      unfold payload in Hother. congruence.
    + intros b c now2 Hr. injection Hr as Hb _ _.
      apply elem_of_ins. right. auto.
Qed.

(** tmr_run keeps a well-formed state well-formed and sorted. *)
Lemma tmr_run_loop_inv fuel :
  forall now t s calls la lf s' calls',
  wf s la lf -> sorted (key (heap s)) la ->
  (forall a, t = Some a -> a ∈ la) ->
  tmr_run_loop procs fuel now t s calls = Ok (s', calls') ->
  exists la' lf', wf s' la' lf' /\ sorted (key (heap s')) la'.
Proof.
  induction fuel as [|fuel IH]; intros now t s calls la lf s' calls' Hwf Hs Ht Hrun.
  - destruct t; simpl in Hrun; [done|]. injection Hrun as <- <-. eauto.
  - destruct t as [a|]; simpl in Hrun; [|injection Hrun as <- <-; eauto].
    destruct (tmr_run_body procs now a s) as [[r s1]| |] eqn:Hbody; simpl in Hrun; try done.
    destruct (tmr_run_body_inv now s la lf a r s1 Hwf Hs (Ht a eq_refl) Hbody)
      as (la1 & lf1 & Hwf1 & Hs1 & Hnext).
    destruct r as [[[nxt c] now1]|]; [|injection Hrun as <- <-; eauto].
    eapply IH; [exact Hwf1|exact Hs1| |exact Hrun].
    intros b ->. by eapply Hnext.
Qed.
End RunSpec.

Lemma key_other h h' t a :
  (forall b, b <> t -> payload <$> (h' !! b) = payload <$> (h !! b)) ->
  a <> t -> key h' a = key h a.
Proof.
  intros H Ha. specialize (H a Ha). unfold key.
  destruct (h' !! a), (h !! a); simpl in *; try done.
  unfold payload in H. congruence.
Qed.

Lemma sorted_other h h' t l :
  (forall b, b <> t -> payload <$> (h' !! b) = payload <$> (h !! b)) ->
  t ∉ l -> sorted (key h) l -> sorted (key h') l.
Proof.
  intros H Ht. apply sorted_ext. intros a Ha. symmetry.
  apply (key_other h h' t); [done|]. by intros ->.
Qed.

Lemma sorted_same_payload h h' l :
  same_payload h h' -> sorted (key h) l -> sorted (key h') l.
Proof.
  intros H. apply sorted_ext. intros a _. by rewrite (same_payload_key _ _ _ H).
Qed.

Lemma wf_head s la lf a : wf s la lf -> timers s = Some a -> a ∈ la.
Proof.
  intros [Hd _ _] Ht. unfold dlist in Hd. destruct la as [|b la]; simpl in Hd.
  - congruence.
  - destruct Hd as [Hb _]. rewrite Ht in Hb. injection Hb as ->.
    by apply elem_of_cons; left.
Qed.

Lemma wf_timers s la lf : wf s la lf -> timers s = head la.
Proof.
  intros [Hd _ _]. unfold dlist in Hd. destruct la as [|b la]; simpl in Hd; [done|].
  by destruct Hd as [-> _].
Qed.

Lemma wf_free_timers s la lf : wf s la lf -> free_timers s = head lf.
Proof.
  intros [_ Hf _]. destruct lf as [|b lf]; simpl in Hf; [done|].
  by destruct Hf as [-> _].
Qed.

Lemma wf_not_free s la lf a : wf s la lf -> a ∈ la -> a ∉ lf.
Proof. intros [_ _ Hnd] Ha. apply NoDup_app in Hnd as (_ & H & _). auto. Qed.

Lemma wf_NoDup_active s la lf : wf s la lf -> NoDup la.
Proof. intros [_ _ Hnd]. by apply NoDup_app in Hnd as (H & _). Qed.

(** * The invariant of the module *)

(** tmr_create keeps the lists well formed and sorted and the active timers
    active. *)
Lemma tmr_create_inv m clock nowP proc data ns per s la lf r s' :
  wf s la lf -> sorted (key (heap s)) la ->
  (forall a junk, m = Some (a, junk) -> heap s !! a = None) ->
  tmr_create m clock nowP proc data ns per s = Ok (r, s') ->
  exists la' lf', wf s' la' lf' /\ sorted (key (heap s')) la' /\
    forall a, a ∈ la -> a ∈ la'.
Proof.
  intros Hwf Hs Hfresh Hrun.
  destruct lf as [|t lf].
  - destruct m as [[a junk]|].
    + destruct (tmr_create_malloc_spec a junk clock nowP proc data ns per s la Hwf
                  (Hfresh a junk eq_refl)) as (s1 & Hrun1 & Hwf1 & _ & _ & Hother).
      rewrite Hrun1 in Hrun. injection Hrun as _ <-.
      eexists _, _. split; [exact Hwf1|]. split.
      * apply ins_sorted. apply (sorted_other (heap s) _ a); [done| |done].
        intros Ha. destruct (wf_allocated s la [] a Hwf) as [x Hx];
          [apply elem_of_app; by left|].
        rewrite (Hfresh a junk eq_refl) in Hx. done.
      * intros b Hb. apply elem_of_ins. by right.
    + rewrite tmr_create_fail_spec in Hrun by (by rewrite (wf_free_timers _ _ _ Hwf)).
      injection Hrun as _ <-. eauto.
  - destruct (tmr_create_reuse_spec m clock nowP proc data ns per s la t lf Hwf)
      as (s1 & Hrun1 & Hwf1 & _ & _ & Hother).
    rewrite Hrun1 in Hrun. injection Hrun as _ <-.
    eexists _, _. split; [exact Hwf1|]. split.
    + apply ins_sorted. apply (sorted_other (heap s) _ t); [done| |done].
      intros Ha. apply (wf_not_free _ _ _ _ Hwf Ha). by apply elem_of_cons; left.
    + intros b Hb. apply elem_of_ins. by right.
Qed.

(** The callbacks of [ex_create_procs], which create timers, keep the
    order. *)
Lemma ex_create_procs_order : procs_keep_order ex_create_procs.
Proof.
  apply procs_grow_order. intros p d now s Hwf Hs. unfold ex_create_procs.
  destruct (p =? 11); [|done].
  destruct (tmr_create _ now (Some now) 19 109 5000000000 0 s) as [[r s']| |] eqn:Hc;
    [|done|done].
  unfold well_formed in Hwf. apply sorted_expiries in Hs.
  assert (Hfresh : forall a junk,
    Some (fresh (dom (heap s)), ex_junk) = Some (a, junk) -> heap s !! a = None).
  { intros a junk [= <- _]. apply not_elem_of_dom. apply is_fresh. }
  destruct (tmr_create_inv _ _ _ _ _ _ _ _ _ _ _ _ Hwf Hs Hfresh Hc)
    as (la' & lf' & Hwf' & Hs' & Hsub).
  simpl. split; [by eapply wf_well_formed|]. split.
  - apply sorted_expiries. by rewrite (wf_active_list _ _ _ Hwf').
  - by rewrite (wf_active_list _ _ _ Hwf').
Qed.

Section Invariant.
Variable procs : TimerProc -> TimerClientData -> timespec -> State -> timespec * State.
Hypothesis procs_order : procs_keep_order procs.

Lemma reachable_inv s :
  reachable procs s -> exists la lf, wf s la lf /\ sorted (key (heap s)) la.
Proof.
  induction 1 as [|s m clock nowP proc data ns per r s' _ IH Hfresh Hrun
                  |s t s' _ IH Ht Hrun
                  |s clock nowP t s' _ IH Ht Hrun
                  |s fuel clock nowP s' calls _ IH Hrun].
  - exists [], []. split; [apply wf_init|constructor].
  - destruct IH as (la & lf & Hwf & Hs).
    destruct (tmr_create_inv _ _ _ _ _ _ _ _ _ _ _ _ Hwf Hs Hfresh Hrun)
      as (la' & lf' & Hwf' & Hs' & _).
    eauto.
  - destruct IH as (la & lf & Hwf & Hs).
    rewrite (wf_active_list _ _ _ Hwf) in Ht.
    apply list_elem_of_split in Ht as (l1 & l2 & ->).
    destruct (tmr_cancel_spec s l1 t l2 lf Hwf) as (s1 & Hrun1 & Hwf1 & _ & _ & Hpay).
    rewrite Hrun1 in Hrun. injection Hrun as <-.
    eexists _, _. split; [exact Hwf1|].
    apply (sorted_same_payload (heap s)); [done|]. by eapply sorted_remove.
  - destruct IH as (la & lf & Hwf & Hs).
    rewrite (wf_active_list _ _ _ Hwf) in Ht.
    apply list_elem_of_split in Ht as (l1 & l2 & ->).
    destruct (wf_mid s l1 t l2 lf Hwf) as (_ & _ & _ & _ & Htl & _).
    destruct (tmr_reset_spec clock nowP s l1 t l2 lf Hwf)
      as (s1 & tm & Hrun1 & Hwf1 & _ & _ & Hother).
    rewrite Hrun1 in Hrun. injection Hrun as <-.
    eexists _, _. split; [exact Hwf1|].
    apply ins_sorted. apply (sorted_other (heap s) _ t); [done|done|].
    by eapply sorted_remove.
  - destruct IH as (la & lf & Hwf & Hs).
    unfold tmr_run in Hrun.
    eapply (tmr_run_loop_inv procs procs_order); [exact Hwf|exact Hs| |exact Hrun].
    intros a Ha. by eapply wf_head.
Qed.
End Invariant.

(** * tmr_cleanup *)

Lemma tmr_cleanup_loop_spec lf :
  forall fuel s la,
  wf s la lf -> (length lf <= fuel)%nat ->
  exists s', tmr_cleanup_loop fuel s = Ok s' /\
    wf s' la [] /\ timers s' = timers s /\ free_timers s' = None /\
    (forall a, a ∉ lf -> heap s' !! a = heap s !! a) /\
    (forall a, a ∈ lf -> heap s' !! a = None).
Proof.
  induction lf as [|t lf IH]; intros fuel s la Hwf Hfuel.
  - pose proof (wf_free_timers _ _ _ Hwf) as Hf. simpl in Hf.
    exists s. split; [destruct fuel; simpl; by rewrite Hf|].
    split; [done|]. split; [done|]. split; [done|]. split; [done|].
    intros a Ha. by apply elem_of_nil in Ha.
  - destruct fuel as [|fuel]; [simpl in Hfuel; lia|]. simpl in Hfuel.
    destruct Hwf as [Ha Hf Hnd]. simpl in Hf.
    destruct Hf as (Hft & tm & Ht & Hf).
    assert (Hp : la ++ t :: lf ≡ₚ t :: la ++ lf) by (by rewrite <- Permutation_middle).
    rewrite Hp in Hnd. apply NoDup_cons in Hnd as [Htn Hnd].
    apply not_elem_of_app in Htn as [Hta Htf].
    set (s1 := mk_State (delete t (heap s)) (timers s) (next tm)).
    assert (Hwf1 : wf s1 la lf).
    { split; simpl; [| |done].
      - eapply dseg_frame; [|exact Ha]. intros a Ha'.
        rewrite lookup_delete_ne; [done|]. by intros ->.
      - eapply slist_frame; [|exact Hf]. intros a Ha'.
        rewrite lookup_delete_ne; [done|]. by intros ->. }
    destruct (IH fuel s1 la Hwf1 ltac:(lia)) as (s' & Hrun & Hwf' & Htm & Hfr & Hframe & Hgone).
    exists s'. simpl. rewrite Hft. rewrite (load_ok _ _ _ Ht). simpl.
    fold s1. split; [done|]. split; [done|]. split; [done|]. split; [done|]. split.
    + intros a Ha'. apply not_elem_of_cons in Ha' as [Hat Ha'].
      rewrite Hframe by done. simpl. by rewrite lookup_delete_ne.
    + intros a Ha'. apply elem_of_cons in Ha' as [->|Ha']; [|auto].
      rewrite Hframe by done. simpl. by rewrite lookup_delete_eq.
Qed.

Lemma tmr_cleanup_spec s la lf :
  wf s la lf ->
  exists s', tmr_cleanup s = Ok s' /\
    wf s' la [] /\ timers s' = timers s /\ free_timers s' = None /\
    (forall a, a ∉ lf -> heap s' !! a = heap s !! a) /\
    (forall a, a ∈ lf -> heap s' !! a = None).
Proof.
  intros Hwf. apply tmr_cleanup_loop_spec; [done|].
  pose proof (wf_length _ _ _ Hwf) as H. rewrite length_app in H. lia.
Qed.

Lemma tmr_cleanup_noop s : free_timers s = None -> tmr_cleanup s = Ok s.
Proof.
  intros H. unfold tmr_cleanup. destruct (size (heap s)); simpl; by rewrite H.
Qed.

(** * One pass of tmr_run over the due timers *)

Lemma other_payload_facts h h' t now a :
  (forall b, b <> t -> payload <$> (h' !! b) = payload <$> (h !! b)) ->
  a <> t ->
  key h' a = key h a /\ is_periodic h' a = is_periodic h a /\
  rescheduled h' a = rescheduled h a /\ call_of h' now a = call_of h now a.
Proof.
  intros H Ha. specialize (H a Ha).
  unfold key, is_periodic, rescheduled, call_of.
  destruct (h' !! a) as [x|], (h !! a) as [y|]; simpl in *; try done.
  unfold payload in H. injection H as -> -> -> -> ->. done.
Qed.

Lemma same_payload_others h h' t :
  same_payload h h' ->
  forall b, b <> t -> payload <$> (h' !! b) = payload <$> (h !! b).
Proof. intros H b _. apply H. Qed.

Lemma filter_ext_in {A} (P Q : A -> Prop) `{!forall x, Decision (P x)}
    `{!forall x, Decision (Q x)} (l : list A) :
  (forall x, x ∈ l -> P x <-> Q x) -> filter P l = filter Q l.
Proof.
  induction l as [|x l IH]; intros Hpq; [done|].
  rewrite !filter_cons.
  assert (Hx : P x <-> Q x) by (apply Hpq; by apply elem_of_cons; left).
  rewrite IH by (intros y Hy; apply Hpq; by apply elem_of_cons; right).
  destruct (decide (P x)), (decide (Q x)); tauto.
Qed.

Lemma map_ext_elem {A B} (f g : A -> B) (l : list A) :
  (forall x, x ∈ l -> f x = g x) -> map f l = map g l.
Proof.
  induction l as [|x l IH]; intros H; [done|]. simpl.
  rewrite H by (by apply elem_of_cons; left).
  rewrite IH; [done|]. intros y Hy. apply H. by apply elem_of_cons; right.
Qed.

Lemma ins_sublist k t l : l `sublist_of` ins k t l.
Proof.
  induction l as [|b l IH]; simpl.
  - apply sublist_nil_l.
  - destruct (ts_lt (k t) (k b)).
    + by apply sublist_cons.
    + by apply sublist_skip.
Qed.

Section DuePass.
Variable procs : TimerProc -> TimerClientData -> timespec -> State -> timespec * State.
Hypothesis procs_frame : procs_keep_state procs.
Hypothesis procs_now : procs_keep_now procs.
Variable now : timespec.

Lemma tmr_run_loop_due d :
  forall s r lf calls t,
  wf s (d ++ r) lf ->
  Forall (fun a => ts_lt now (key (heap s) a) = false) d ->
  Forall (fun a => ts_lt now (key (heap s) a) = true) r ->
  (forall a, a ∈ d -> is_periodic (heap s) a = true ->
     ts_lt now (rescheduled (heap s) a) = true) ->
  match d with
  | a :: _ => t = Some a
  | [] => forall b, t = Some b -> b ∈ r
  end ->
  exists s' la',
    tmr_run_loop procs (S (length d)) now t s calls =
      Ok (s', calls ++ map (call_of (heap s) now) d) /\
    wf s' la' (rev (filter (fun a => is_periodic (heap s) a = false) d) ++ lf) /\
    la' ≡ₚ filter (fun a => is_periodic (heap s) a = true) d ++ r /\
    r `sublist_of` la' /\
    Forall (fun a => ts_lt now (key (heap s') a) = true) la' /\
    (forall a, a ∉ d -> payload <$> (heap s' !! a) = payload <$> (heap s !! a)) /\
    (forall a tm, a ∈ d -> heap s !! a = Some tm ->
       exists tm', heap s' !! a = Some tm' /\
         payload tm' = (timer_proc tm, client_data tm, nsecs tm, periodic tm,
                        if periodic tm =? 0 then time tm
                        else add_nsecs (time tm) (nsecs tm))).
Proof.
  induction d as [|a d IH]; intros s r lf calls t Hwf Hdue Hrest Honce Hptr.
  - simpl in *. exists s, r. rewrite app_nil_r.
    split; [|split; [done|split; [done|split; [done|split; [done|split; [done|]]]]]].
    + destruct t as [b|]; [|done].
      specialize (Hptr b eq_refl).
      rewrite Forall_forall in Hrest. specialize (Hrest b Hptr).
      destruct (wf_allocated s r lf b Hwf) as [tm Htm]; [apply elem_of_app; by left|].
      rewrite (key_lookup _ _ _ Htm) in Hrest.
      by rewrite (tmr_run_body_break procs now b s tm Htm Hrest).
    + intros a tm Ha. by apply elem_of_nil in Ha.
  - subst t.
    change ((a :: d) ++ r) with ([] ++ a :: (d ++ r)) in Hwf.
    destruct (wf_mid s [] a (d ++ r) lf Hwf) as (tm & Htm & _ & Hn & Hal & Haf & Hnd & _).
    simpl in Hal, Hnd. apply not_elem_of_app in Hal as [Had Har].
    apply Forall_cons in Hdue as [Hdue_a Hdue].
    rewrite (key_lookup _ _ _ Htm) in Hdue_a.
    assert (Hnext : match d with
                    | b :: _ => head (d ++ r) = Some b
                    | [] => forall b, head (d ++ r) = Some b -> b ∈ r
                    end).
    { destruct d as [|b d]; simpl; [|done]. intros b Hb.
      destruct r; simplify_eq/=. by apply elem_of_cons; left. }
    cbn [length].
    change (tmr_run_loop procs (S (S (length d))) now (Some a) s calls) with
      (r0 <- tmr_run_body procs now a s;
       match r0 with
       | (None, s') => Ok (s', calls)
       | (Some (nxt, c, now1), s') => tmr_run_loop procs (S (length d)) now1 nxt s' (calls ++ [c])
       end).
    destruct (Z.eq_dec (periodic tm) 0) as [Hper|Hper].
    + (* one-shot: the record goes to the free list *)
      destruct (tmr_run_body_oneshot procs procs_frame now s [] a (d ++ r) lf tm Hwf Htm Hdue_a Hper)
        as (s1 & Hbody & Hwf1 & Hframe & Hpay).
      rewrite Hbody, procs_now. cbn [res_bind]. simpl in Hwf1.
      pose proof (same_payload_others _ _ a Hpay) as Hother.
      destruct (IH s1 r (a :: lf) (calls ++ [mk_call a (timer_proc tm) (client_data tm) now])
                  (head (d ++ r)) Hwf1) as (s' & la' & Hrun & Hwf' & Hperm & Hsub & Hnd' & Hout & Hin).
      * eapply Forall_impl; [exact Hdue|]. intros b Hb. simpl in Hb.
        by rewrite (same_payload_key _ _ _ Hpay).
      * eapply Forall_impl; [exact Hrest|]. intros b Hb. simpl in Hb.
        by rewrite (same_payload_key _ _ _ Hpay).
      * intros b Hb. assert (Hba : b <> a) by (by intros ->).
        destruct (other_payload_facts _ _ a now b Hother Hba) as (_ & -> & -> & _).
        apply Honce. by apply elem_of_cons; right.
      * exact Hnext.
      * assert (Hd_facts : forall b, b ∈ d ->
            is_periodic (heap s1) b = is_periodic (heap s) b /\
            call_of (heap s1) now b = call_of (heap s) now b).
        { intros b Hb. assert (Hba : b <> a) by (by intros ->).
          destruct (other_payload_facts _ _ a now b Hother Hba) as (_ & ? & _ & ?). done. }
        assert (Hpa : is_periodic (heap s) a = false).
        { unfold is_periodic. rewrite Htm, Hper. done. }
        exists s', la'. split; [|split; [|split; [|split; [done|split; [done|split]]]]].
        -- rewrite Hrun. f_equal. f_equal. rewrite <- app_assoc. f_equal. simpl.
           unfold call_of at 2. rewrite Htm. f_equal.
           apply map_ext_elem. intros b Hb. by apply Hd_facts.
        -- rewrite filter_cons_True by done. simpl. rewrite <- app_assoc. simpl.
           erewrite (filter_ext_in _ (fun b => is_periodic (heap s1) b = false)); [exact Hwf'|].
           intros b Hb. destruct (Hd_facts b Hb) as [-> _]. done.
        -- rewrite filter_cons_False by (by rewrite Hpa).
           erewrite (filter_ext_in _ (fun b => is_periodic (heap s1) b = true)); [exact Hperm|].
           intros b Hb. destruct (Hd_facts b Hb) as [-> _]. done.
        -- intros b Hb. apply not_elem_of_cons in Hb as [Hba Hb].
           rewrite Hout by done. apply Hpay.
        -- intros b tmb Hb Htmb. apply elem_of_cons in Hb as [->|Hb].
           ++ assert (tmb = tm) by congruence. subst tmb.
              destruct (same_payload_lookup _ _ _ _ Hpay Htm) as (tm1 & Htm1 & Hp1).
              pose proof (Hout a Had) as Ha'. rewrite Htm1 in Ha'.
              destruct (heap s' !! a) as [tm'|]; simpl in Ha'; [|done].
              exists tm'. split; [done|].
              apply (inj Some) in Ha'. rewrite Ha', Hp1. unfold payload. rewrite Hper. done.
           ++ destruct (same_payload_lookup _ _ _ _ Hpay Htmb) as (tm1 & Htm1 & Hp1).
              destruct (Hin b tm1 Hb Htm1) as (tm' & Htm' & Hp').
              exists tm'. split; [done|]. rewrite Hp'.
              unfold payload in Hp1. injection Hp1 as -> -> -> -> ->. done.
    + (* periodic: the record is rescheduled and re-inserted after the due ones *)
      destruct (tmr_run_body_periodic procs procs_frame now s [] a (d ++ r) lf tm Hwf Htm Hdue_a Hper)
        as (s1 & tm1 & Hbody & Hwf1 & Htm1 & Hp1 & Hother).
      rewrite Hbody, procs_now. cbn [res_bind]. simpl in Hwf1.
      assert (Hpa : is_periodic (heap s) a = true).
      { unfold is_periodic. rewrite Htm. by destruct (Z.eqb_spec (periodic tm) 0). }
      assert (Hk1 : key (heap s1) a = add_nsecs (time tm) (nsecs tm)).
      { rewrite (key_lookup _ _ _ Htm1). unfold payload in Hp1. congruence. }
      assert (Hlate : ts_lt now (key (heap s1) a) = true).
      { rewrite Hk1. specialize (Honce a ltac:(by apply elem_of_cons; left) Hpa).
        unfold rescheduled in Honce. by rewrite Htm in Honce. }
      assert (Hins : ins (key (heap s1)) a (d ++ r) = d ++ ins (key (heap s1)) a r).
      { apply ins_app_le. rewrite Forall_forall in *. intros b Hb.
        assert (Hba : b <> a) by (by intros ->).
        rewrite (key_other _ _ a b Hother Hba).
        eapply ts_le_trans; [apply ts_lt_false, Hdue, Hb|]. by apply ts_lt_le. }
      rewrite Hins in Hwf1.
      destruct (IH s1 (ins (key (heap s1)) a r) lf
                  (calls ++ [mk_call a (timer_proc tm) (client_data tm) now])
                  (head (d ++ r)) Hwf1) as (s' & la' & Hrun & Hwf' & Hperm & Hsub & Hnd' & Hout & Hin).
      * rewrite Forall_forall in *. intros b Hb.
        assert (Hba : b <> a) by (by intros ->).
        rewrite (key_other _ _ a b Hother Hba). auto.
      * rewrite Forall_forall in *. intros b Hb.
        apply elem_of_ins in Hb as [->|Hb]; [done|].
        assert (Hba : b <> a) by (by intros ->).
        rewrite (key_other _ _ a b Hother Hba). auto.
      * intros b Hb. assert (Hba : b <> a) by (by intros ->).
        destruct (other_payload_facts _ _ a now b Hother Hba) as (_ & -> & -> & _).
        apply Honce. by apply elem_of_cons; right.
      * destruct d as [|b d]; [|exact Hnext].
        intros b Hb. apply elem_of_ins. right. by apply Hnext.
      * assert (Hd_facts : forall b, b ∈ d ->
            is_periodic (heap s1) b = is_periodic (heap s) b /\
            call_of (heap s1) now b = call_of (heap s) now b).
        { intros b Hb. assert (Hba : b <> a) by (by intros ->).
          destruct (other_payload_facts _ _ a now b Hother Hba) as (_ & ? & _ & ?). done. }
        exists s', la'. split; [|split; [|split; [|split; [|split; [done|split]]]]].
        -- rewrite Hrun. f_equal. f_equal. rewrite <- app_assoc. f_equal. simpl.
           unfold call_of at 2. rewrite Htm. f_equal.
           apply map_ext_elem. intros b Hb. by apply Hd_facts.
        -- rewrite filter_cons_False by (by rewrite Hpa).
           erewrite (filter_ext_in _ (fun b => is_periodic (heap s1) b = false)); [exact Hwf'|].
           intros b Hb. destruct (Hd_facts b Hb) as [-> _]. done.
        -- rewrite filter_cons_True by done.
           rewrite Hperm. rewrite ins_Permutation.
           erewrite (filter_ext_in _ (fun b => is_periodic (heap s) b = true)).
           ++ simpl. by rewrite <- Permutation_middle.
           ++ intros b Hb. destruct (Hd_facts b Hb) as [-> _]. done.
        -- etrans; [apply (ins_sublist (key (heap s1)) a)|done].
        -- intros b Hb. apply not_elem_of_cons in Hb as [Hba Hb].
           rewrite Hout by done. by apply Hother.
        -- intros b tmb Hb Htmb. apply elem_of_cons in Hb as [->|Hb].
           ++ assert (tmb = tm) by congruence. subst tmb.
              pose proof (Hout a Had) as Ha'. rewrite Htm1 in Ha'.
              destruct (heap s' !! a) as [tm'|]; simpl in Ha'; [|done].
              exists tm'. split; [done|].
              apply (inj Some) in Ha'. rewrite Ha', Hp1.
              by destruct (Z.eqb_spec (periodic tm) 0).
           ++ assert (Hba : b <> a) by (by intros ->).
              pose proof (Hother b Hba) as Hb1. rewrite Htmb in Hb1.
              destruct (heap s1 !! b) as [tmb1|] eqn:Htmb1; simpl in Hb1; [|done].
              apply (inj Some) in Hb1.
              destruct (Hin b tmb1 Hb Htmb1) as (tm' & Htm' & Hp').
              exists tm'. split; [done|]. rewrite Hp'.
              unfold payload in Hb1. injection Hb1 as -> -> -> -> ->. done.
Qed.
End DuePass.

(** * Soundness of the executable checks *)

Lemma dsegb_sound h prv hd l nxt : dsegb h prv hd l nxt = true -> dseg h prv hd l nxt.
Proof.
  revert prv hd. induction l as [|a l IH]; simpl; intros prv hd H.
  - by apply bool_decide_eq_true in H.
  - apply andb_true_iff in H as [H1 H2]. apply bool_decide_eq_true in H1.
    split; [done|]. destruct (h !! a) as [tm|]; [|done].
    apply andb_true_iff in H2 as [H2 H3]. apply bool_decide_eq_true in H2.
    exists tm. auto.
Qed.

Lemma slistb_sound h hd l : slistb h hd l = true -> slist h hd l.
Proof.
  revert hd. induction l as [|a l IH]; simpl; intros hd H.
  - by apply bool_decide_eq_true in H.
  - apply andb_true_iff in H as [H1 H2]. apply bool_decide_eq_true in H1.
    split; [done|]. destruct (h !! a) as [tm|]; [|done].
    exists tm. auto.
Qed.

Lemma well_formedb_sound s : well_formedb s = true -> well_formed s.
Proof.
  unfold well_formedb. intros H.
  apply andb_true_iff in H as [H H3]. apply andb_true_iff in H as [H1 H2].
  split.
  - by apply dsegb_sound.
  - by apply slistb_sound.
  - by apply bool_decide_eq_true in H3.
Qed.

Lemma sortedb_sound l : sortedb l = true -> Sorted ts_le l.
Proof.
  induction l as [|a l IH]; simpl; intros H; [constructor|].
  apply andb_true_iff in H as [H1 H2]. constructor; [auto|].
  destruct l as [|b l]; constructor.
  unfold ts_leb in H1. apply negb_true_iff in H1. by apply ts_lt_false.
Qed.

(** * The due prefix of a sorted list *)

Lemma due_split k now l : l = due_prefix k now l ++ due_rest k now l.
Proof.
  induction l as [|a l IH]; simpl; [done|].
  destruct (is_due k now a); simpl; [by f_equal|done].
Qed.

Lemma due_prefix_due k now l :
  Forall (fun a => ts_lt now (k a) = false) (due_prefix k now l).
Proof.
  induction l as [|a l IH]; simpl; [constructor|].
  destruct (is_due k now a) eqn:E; [|constructor].
  constructor; [|done]. unfold is_due in E. by apply negb_true_iff in E.
Qed.

Lemma due_rest_not_due k now l :
  sorted k l -> Forall (fun a => ts_lt now (k a) = true) (due_rest k now l).
Proof.
  rewrite sorted_strongly.
  induction l as [|a l IH]; simpl; intros Hs; [constructor|].
  apply strongly_cons in Hs as [Hs Ha].
  destruct (is_due k now a) eqn:E; [auto|].
  unfold is_due in E. apply negb_false_iff in E.
  constructor; [done|].
  rewrite Forall_forall in *. intros b Hb.
  eapply ts_lt_le_trans; [exact E|]. by apply Ha.
Qed.

(** * Claim C5: add_nsecs *)

(** C5, as amended.  For a timestamp with its nanoseconds in [0, 1e9) and a
    duration for which the seconds stay within the 64-bit range when the
    whole seconds of the duration are added, and again when the second that
    the nanoseconds carry (if they do) is added, add_nsecs returns exactly
    the time plus the duration; the nanoseconds of the result are in
    [0, 1e9) when the duration is not negative, and in (-1e9, 1e9) in any
    case. *)
Theorem add_nsecs_spec (t : timespec) (ns : Z) :
  0 <= tv_nsec t < NSEC_PER_SEC -> add_nsecs_fits t ns ->
  ts_to_ns (add_nsecs t ns) = ts_to_ns t + ns /\
  (0 <= ns -> 0 <= tv_nsec (add_nsecs t ns) < NSEC_PER_SEC) /\
  - NSEC_PER_SEC < tv_nsec (add_nsecs t ns) < NSEC_PER_SEC.
Proof.
  intros Hn Hs. destruct (add_nsecs_exact_fits t ns Hn Hs) as (He & Hb & Hp).
  split; [done|]. split; [|done].
  intros Hns. pose proof (rem_nsec_nonneg ns Hns). split; [|lia].
  apply Hp. lia.
Qed.

Lemma add_nsecs_spec_witness :
  ts_to_ns (add_nsecs (mk_timespec 5 999999999) 2500000001) =
    ts_to_ns (mk_timespec 5 999999999) + 2500000001 /\
  (0 <= 2500000001 ->
   0 <= tv_nsec (add_nsecs (mk_timespec 5 999999999) 2500000001) < NSEC_PER_SEC) /\
  - NSEC_PER_SEC < tv_nsec (add_nsecs (mk_timespec 5 999999999) 2500000001) < NSEC_PER_SEC.
Proof.
  apply (add_nsecs_spec (mk_timespec 5 999999999) 2500000001).
  - simpl. unfold NSEC_PER_SEC. lia.
  - split; [|intros _]; vm_compute; (split; [discriminate|reflexivity]).
Defined.

(** C5 as it is stated fails for a negative duration: one nanosecond before
    0 s comes out as 0 s and -1 ns. *)
Lemma add_nsecs_negative_counterexample :
  ~ add_duration_claim (mk_timespec 0 0) (-1).
Proof.
  unfold add_duration_claim. intros H.
  destruct H as [[H _] _].
  - simpl. unfold NSEC_PER_SEC. lia.
  - unfold int64. lia.
  - vm_compute in H. by apply H.
Qed.

(** The bound on the seconds is needed: one second after the last second of
    a 64-bit [time_t] wraps round to the first one. *)
Lemma add_nsecs_seconds_overflow_example :
  add_nsecs (mk_timespec (2 ^ 63 - 1) 0) 1000000000 = mk_timespec (- 2 ^ 63) 0.
Proof. vm_compute. reflexivity. Qed.

(** * Claim C4: tmr_timeout *)

Lemma timeout_ns_exact expiry now :
  timeout_fits expiry now ->
  add64 (mul64 (sub64 (tv_sec expiry) (tv_sec now)) NSEC_PER_SEC)
        (sub64 (tv_nsec expiry) (tv_nsec now)) =
  ts_to_ns expiry - ts_to_ns now.
Proof.
  intros (H1 & H2 & H3 & H4). unfold add64, mul64, sub64.
  rewrite (wrap64_id (tv_sec expiry - tv_sec now)) by done.
  rewrite (wrap64_id (_ * _)) by done.
  rewrite (wrap64_id (tv_nsec expiry - tv_nsec now)) by done.
  unfold ts_to_ns in *.
  rewrite wrap64_id; [lia|].
  replace ((tv_sec expiry - tv_sec now) * NSEC_PER_SEC + (tv_nsec expiry - tv_nsec now))
    with (tv_sec expiry * NSEC_PER_SEC + tv_nsec expiry -
          (tv_sec now * NSEC_PER_SEC + tv_nsec now)) by lia.
  done.
Qed.

(** Two normalised times less than 9223372035 s apart fit. *)
Lemma timeout_fits_near expiry now :
  0 <= tv_nsec expiry < NSEC_PER_SEC -> 0 <= tv_nsec now < NSEC_PER_SEC ->
  - 9223372035 <= tv_sec expiry - tv_sec now <= 9223372035 ->
  timeout_fits expiry now.
Proof.
  unfold timeout_fits, int64, ts_to_ns, NSEC_PER_SEC. intros H1 H2 H3. lia.
Qed.

(** C4, as amended.  On a well-formed state tmr_timeout returns NULL exactly
    when the active list is empty; otherwise it returns a duration that is
    never negative, and that is [max(0, expiry - now)] for the head of the
    list whenever the difference is computed without 64-bit overflow. *)
Theorem tmr_timeout_spec (clock : timespec) (nowP : option timespec) (s : State) :
  well_formed s ->
  exists r,
    tmr_timeout clock nowP s = Ok r /\
    (r = None <-> active_list s = []) /\
    forall hd d, head (active_list s) = Some hd -> r = Some d ->
      0 <= tv_sec d /\ 0 <= tv_nsec d < NSEC_PER_SEC /\ 0 <= ts_to_ns d /\
      (timeout_fits (key (heap s) hd) (getnow clock nowP) ->
       ts_to_ns d = Z.max 0 (ts_to_ns (key (heap s) hd) - ts_to_ns (getnow clock nowP))).
Proof.
  intros Hwf. unfold tmr_timeout.
  rewrite (wf_timers _ _ _ Hwf).
  destruct (active_list s) as [|hd la] eqn:Hla; simpl.
  - exists None. split; [done|]. split; [done|]. by intros hd d [=].
  - destruct (wf_allocated s _ _ hd Hwf) as [th Hth].
    { rewrite Hla. by apply elem_of_cons; left. }
    rewrite (load_ok _ _ _ Hth). simpl.
    eexists. split; [done|]. split; [done|].
    intros hd' d [= <-] [= <-]. simpl.
    rewrite (key_lookup _ _ _ Hth).
    set (raw := add64 _ _).
    assert (Hclamp : (if raw <=? 0 then 0 else raw) = Z.max 0 raw).
    { destruct (Z.leb_spec raw 0); lia. }
    rewrite Hclamp.
    assert (Hpos : 0 <= Z.max 0 raw) by lia.
    pose proof (quot_nsec_nonneg _ Hpos) as Hq.
    pose proof (rem_nsec_nonneg _ Hpos) as Hr.
    pose proof (quot_rem_nsec (Z.max 0 raw)) as Hqr.
    split; [done|]. split; [done|].
    assert (Hts : ts_to_ns
                    {| tv_sec := Z.quot (Z.max 0 raw) NSEC_PER_SEC;
                       tv_nsec := Z.rem (Z.max 0 raw) NSEC_PER_SEC |} = Z.max 0 raw).
    { unfold ts_to_ns. simpl. lia. }
    rewrite Hts. split; [done|].
    intros Hfit. unfold raw. by rewrite timeout_ns_exact.
Qed.

Lemma ex_spec_well_formed : well_formed ex_spec.
Proof. apply well_formedb_sound. vm_compute. reflexivity. Qed.

Lemma ex_late_well_formed : well_formed ex_late.
Proof. apply well_formedb_sound. vm_compute. reflexivity. Qed.

Lemma ex_far_well_formed : well_formed ex_far.
Proof. apply well_formedb_sound. vm_compute. reflexivity. Qed.

Lemma ex_spec_sorted : Sorted ts_le (expiries ex_spec).
Proof. apply sortedb_sound. vm_compute. reflexivity. Qed.

Lemma ex_late_sorted : Sorted ts_le (expiries ex_late).
Proof. apply sortedb_sound. vm_compute. reflexivity. Qed.

(** The example states are states of the module: creates lead to them. *)
Lemma ex_far_reachable : reachable no_procs ex_far.
Proof.
  apply (reach_create no_procs init_state (Some (1%positive, ex_junk))
           (mk_timespec 0 0) (Some (mk_timespec 1 0)) 11 101 9223372036854775807 0
           (Some 1%positive) ex_far).
  - apply reach_init.
  - intros a junk _. apply lookup_empty.
  - vm_compute. reflexivity.
Qed.

Lemma ex_late_reachable procs : reachable procs ex_late.
Proof.
  pose (s1 := mk_State
    (<[1%positive := mk_Timer 11 101 60000000000 1 (mk_timespec 60 0) None None]> ∅)
    (Some 1%positive) None).
  pose (s2 := mk_State
    (<[1%positive := mk_Timer 11 101 60000000000 1 (mk_timespec 60 0) None (Some 2%positive)]>
     (<[2%positive := mk_Timer 12 102 70000000000 0 (mk_timespec 70 0) (Some 1%positive) None]> ∅))
    (Some 1%positive) None).
  assert (H1 : reachable procs s1).
  { apply (reach_create procs init_state (Some (1%positive, ex_junk))
             (mk_timespec 0 0) None 11 101 60000000000 1
             (Some 1%positive) s1).
    - apply reach_init.
    - intros a junk _. apply lookup_empty.
    - vm_compute. reflexivity. }
  assert (H2 : reachable procs s2).
  { apply (reach_create procs s1 (Some (2%positive, ex_junk))
             (mk_timespec 0 0) None 12 102 70000000000 0
             (Some 2%positive) s2); [exact H1| |vm_compute; reflexivity].
    intros a junk [= <- _]. vm_compute. reflexivity. }
  apply (reach_create procs s2 (Some (3%positive, ex_junk))
           (mk_timespec 0 0) None 13 103 200000000000 0
           (Some 3%positive) ex_late); [exact H2| |vm_compute; reflexivity].
  intros a junk [= <- _]. vm_compute. reflexivity.
Qed.

Lemma tmr_timeout_spec_witness :
  well_formed ex_spec /\
  exists r,
    tmr_timeout (mk_timespec 0 0) (Some (mk_timespec 0 20000000)) ex_spec = Ok r /\
    (r = None <-> active_list ex_spec = []) /\
    forall hd d, head (active_list ex_spec) = Some hd -> r = Some d ->
      0 <= tv_sec d /\ 0 <= tv_nsec d < NSEC_PER_SEC /\ 0 <= ts_to_ns d /\
      (timeout_fits (key (heap ex_spec) hd)
         (getnow (mk_timespec 0 0) (Some (mk_timespec 0 20000000))) ->
       ts_to_ns d =
         Z.max 0 (ts_to_ns (key (heap ex_spec) hd) -
                  ts_to_ns (getnow (mk_timespec 0 0) (Some (mk_timespec 0 20000000))))).
Proof.
  assert (H : well_formed ex_spec) by (apply well_formedb_sound; vm_compute; reflexivity).
  split; [exact H|].
  exact (tmr_timeout_spec (mk_timespec 0 0) (Some (mk_timespec 0 20000000)) ex_spec H).
Defined.

(** C4 as it is stated fails when the difference overflows: a timer created
    at 1 s with the largest interval expires 9223372037.85 s after 0 s, and
    tmr_timeout at 0 s answers 0. *)
Lemma tmr_timeout_overflow_counterexample :
  well_formed ex_far /\ ~ time_until_next_claim ex_far (mk_timespec 0 0).
Proof.
  split; [apply ex_far_well_formed|].
  intros (r & Hr & _ & H).
  vm_compute in Hr. injection Hr as <-.
  specialize (H 1%positive (mk_timespec 0 0)).
  assert (Hhd : head (active_list ex_far) = Some 1%positive) by (vm_compute; reflexivity).
  specialize (H Hhd eq_refl). vm_compute in H. discriminate H.
Qed.

(** * Claim C9: tmr_cleanup *)

(** C9.  On a well-formed state tmr_cleanup returns with the free list
    empty and its records released, and with the head pointer of the active
    list, the active list and every record on it unchanged; when the free
    list is empty already the state does not change at all. *)
Theorem tmr_cleanup_frame (s : State) :
  well_formed s ->
  exists s',
    tmr_cleanup s = Ok s' /\
    free_timers s' = None /\ free_list s' = [] /\
    timers s' = timers s /\ active_list s' = active_list s /\
    (forall a, a ∈ active_list s -> heap s' !! a = heap s !! a) /\
    (forall a, a ∈ free_list s -> heap s' !! a = None) /\
    well_formed s' /\
    (free_timers s = None -> s' = s).
Proof.
  intros Hwf. unfold well_formed in Hwf.
  destruct (tmr_cleanup_spec s _ _ Hwf) as (s' & Hrun & Hwf' & Htm & Hfr & Hframe & Hgone).
  exists s'. split; [done|]. split; [done|].
  split; [by rewrite (wf_free_list _ _ _ Hwf')|].
  split; [done|].
  split; [by rewrite (wf_active_list _ _ _ Hwf')|].
  split; [|split; [done|split; [by eapply wf_well_formed|]]].
  - intros a Ha. apply Hframe. by eapply wf_not_free.
  - intros Hnone. rewrite tmr_cleanup_noop in Hrun by done. congruence.
Qed.

Lemma tmr_cleanup_frame_witness :
  well_formed ex_spec /\
  exists s',
    tmr_cleanup ex_spec = Ok s' /\
    free_timers s' = None /\ free_list s' = [] /\
    timers s' = timers ex_spec /\ active_list s' = active_list ex_spec /\
    (forall a, a ∈ active_list ex_spec -> heap s' !! a = heap ex_spec !! a) /\
    (forall a, a ∈ free_list ex_spec -> heap s' !! a = None) /\
    well_formed s' /\
    (free_timers ex_spec = None -> s' = ex_spec).
Proof.
  assert (H : well_formed ex_spec) by (apply well_formedb_sound; vm_compute; reflexivity).
  split; [exact H|].
  exact (tmr_cleanup_frame ex_spec H).
Defined.

(** * Claims C6, C7 and C10: tmr_create and the free list *)

Lemma wf_dom_payload (h h' : gmap addr Timer) :
  (forall a, is_Some (h' !! a) <-> is_Some (h !! a)) -> dom h' = dom h.
Proof. intros H. apply set_eq. intros a. by rewrite !elem_of_dom. Qed.

(** C6.  On a well-formed state, with malloc answering NULL or a record
    that is not allocated yet, tmr_create returns; it returns NULL exactly
    when the free list is empty and malloc answers NULL, and then the state
    is unchanged; when the free list is not empty it returns the head of the
    free list, the free list loses that record, and no record is
    allocated. *)
Theorem tmr_create_failure (m : option (addr * Timer)) (clock : timespec)
    (nowP : option timespec) (proc : TimerProc) (data : TimerClientData)
    (ns per : Z) (s : State) :
  well_formed s ->
  (forall a junk, m = Some (a, junk) -> heap s !! a = None) ->
  exists r s',
    tmr_create m clock nowP proc data ns per s = Ok (r, s') /\
    (r = None <-> free_timers s = None /\ m = None) /\
    (r = None -> s' = s) /\
    (forall t, free_timers s = Some t ->
       r = Some t /\ free_list s = t :: free_list s' /\ dom (heap s') = dom (heap s)).
Proof.
  intros Hwf Hfresh. unfold well_formed in Hwf.
  pose proof (wf_free_timers _ _ _ Hwf) as Hft.
  destruct (free_list s) as [|t lf] eqn:Hlf; simpl in Hft.
  - destruct m as [[a junk]|].
    + destruct (tmr_create_malloc_spec a junk clock nowP proc data ns per s _ Hwf
                  (Hfresh a junk eq_refl)) as (s' & Hrun & _).
      exists (Some a), s'. split; [done|]. split; [|split; [done|]].
      * split; [done|]. by intros [_ ?].
      * intros t Ht. congruence.
    + exists None, s. split; [by apply tmr_create_fail_spec|].
      split; [done|]. split; [done|]. intros t Ht. congruence.
  - destruct (tmr_create_reuse_spec m clock nowP proc data ns per s _ t lf Hwf)
      as (s' & Hrun & Hwf' & (tm' & Ht' & _) & _ & Hother).
    exists (Some t), s'. split; [done|]. split; [|split; [done|]].
    + split; [done|]. intros [? _]. congruence.
    + intros t' Ht''. assert (t' = t) by congruence. subst t'.
      split; [done|]. split; [by rewrite (wf_free_list _ _ _ Hwf')|].
      apply wf_dom_payload. intros a.
      destruct (decide (a = t)) as [->|Hne].
      * split; intros _; [|by eexists].
        apply (wf_allocated s _ _ t Hwf). apply elem_of_app; right.
        by apply elem_of_cons; left.
      * specialize (Hother a Hne). rewrite <- !fmap_is_Some with (f := payload).
        by rewrite Hother.
Qed.

Lemma tmr_create_failure_witness :
  well_formed ex_late /\
  (forall a junk, (None : option (addr * Timer)) = Some (a, junk) -> heap ex_late !! a = None) /\
  exists r s',
    tmr_create None (mk_timespec 0 0) None 14 104 5 0 ex_late = Ok (r, s') /\
    (r = None <-> free_timers ex_late = None /\ (None : option (addr * Timer)) = None) /\
    (r = None -> s' = ex_late) /\
    (forall t, free_timers ex_late = Some t ->
       r = Some t /\ free_list ex_late = t :: free_list s' /\
       dom (heap s') = dom (heap ex_late)).
Proof.
  assert (H : well_formed ex_late) by (apply well_formedb_sound; vm_compute; reflexivity).
  assert (H' : forall a junk, (None : option (addr * Timer)) = Some (a, junk) ->
                 heap ex_late !! a = None) by (intros a junk Hm; discriminate Hm).
  split; [exact H|]. split; [exact H'|].
  exact (tmr_create_failure None (mk_timespec 0 0) None 14 104 5 0 ex_late H H').
Defined.

Lemma last_ptr_None l : last_ptr None l = last l.
Proof. unfold last_ptr. by destruct (last l). Qed.

(** C7.  After tmr_cancel of an active timer, tmr_create returns the same
    record with every field written anew: the callback, the user data, the
    interval and the periodic flag are the arguments of tmr_create, the
    expiry is the current time plus the interval, and prev and next are the
    neighbours of the record at its new place in the active list. *)
Theorem tmr_create_reuse_reinit (s : State) (t : addr) (m : option (addr * Timer))
    (clock : timespec) (nowP : option timespec) (proc : TimerProc)
    (data : TimerClientData) (ns per : Z) :
  well_formed s -> t ∈ active_list s ->
  exists s1 s2 tm l1 l2,
    tmr_cancel t s = Ok s1 /\
    tmr_create m clock nowP proc data ns per s1 = Ok (Some t, s2) /\
    heap s2 !! t = Some tm /\
    timer_proc tm = proc /\ client_data tm = data /\ nsecs tm = ns /\
    periodic tm = per /\ time tm = add_nsecs (getnow clock nowP) ns /\
    active_list s2 = l1 ++ t :: l2 /\ prev tm = last l1 /\ next tm = head l2.
Proof.
  intros Hwf Ht. unfold well_formed in Hwf.
  apply list_elem_of_split in Ht as (k1 & k2 & Hla). rewrite Hla in Hwf.
  destruct (tmr_cancel_spec s k1 t k2 _ Hwf) as (s1 & Hc & Hwf1 & _).
  destruct (tmr_create_reuse_spec m clock nowP proc data ns per s1 _ t _ Hwf1)
    as (s2 & Hrun & Hwf2 & (tm & Htm & Hp) & _).
  assert (Hin : t ∈ ins (key (heap s2)) t (k1 ++ k2)) by (apply elem_of_ins; by left).
  apply list_elem_of_split in Hin as (l1 & l2 & Hl). rewrite Hl in Hwf2.
  destruct (wf_mid s2 l1 t l2 _ Hwf2) as (tm' & Htm' & Hprev & Hnext & _).
  assert (tm' = tm) by congruence. subst tm'.
  exists s1, s2, tm, l1, l2. unfold payload in Hp. injection Hp as -> -> -> -> ->.
  rewrite (wf_active_list _ _ _ Hwf2). rewrite last_ptr_None in Hprev.
  repeat split; done.
Qed.

Lemma tmr_create_reuse_reinit_witness :
  well_formed ex_late /\ 2%positive ∈ active_list ex_late /\
  exists s1 s2 tm l1 l2,
    tmr_cancel 2%positive ex_late = Ok s1 /\
    tmr_create None (mk_timespec 300 0) None 77 707 1500000000 1 s1 =
      Ok (Some 2%positive, s2) /\
    heap s2 !! 2%positive = Some tm /\
    timer_proc tm = 77 /\ client_data tm = 707 /\ nsecs tm = 1500000000 /\
    periodic tm = 1 /\ time tm = add_nsecs (getnow (mk_timespec 300 0) None) 1500000000 /\
    active_list s2 = l1 ++ 2%positive :: l2 /\ prev tm = last l1 /\ next tm = head l2.
Proof.
  assert (H : well_formed ex_late) by (apply well_formedb_sound; vm_compute; reflexivity).
  assert (H' : 2%positive ∈ active_list ex_late).
  { vm_compute. apply elem_of_cons; right. apply elem_of_cons; by left. }
  split; [exact H|]. split; [exact H'|].
  exact (tmr_create_reuse_reinit ex_late 2%positive None (mk_timespec 300 0) None
           77 707 1500000000 1 H H').
Defined.

(** C10.  tmr_cancel puts the record at the head of the free list, and a
    tmr_create right after it returns that very record, whatever malloc
    would have answered. *)
Theorem cancel_create_same_handle (s : State) (t : addr) :
  well_formed s -> t ∈ active_list s ->
  exists s1,
    tmr_cancel t s = Ok s1 /\
    free_timers s1 = Some t /\ free_list s1 = t :: free_list s /\
    forall m clock nowP proc data ns per,
      exists s2, tmr_create m clock nowP proc data ns per s1 = Ok (Some t, s2).
Proof.
  intros Hwf Ht. unfold well_formed in Hwf.
  apply list_elem_of_split in Ht as (k1 & k2 & Hla). rewrite Hla in Hwf.
  destruct (tmr_cancel_spec s k1 t k2 _ Hwf) as (s1 & Hc & Hwf1 & Hfr & _).
  exists s1. split; [done|]. split; [done|].
  split; [by rewrite (wf_free_list _ _ _ Hwf1)|].
  intros m clock nowP proc data ns per.
  destruct (tmr_create_reuse_spec m clock nowP proc data ns per s1 _ t _ Hwf1)
    as (s2 & Hrun & _).
  by exists s2.
Qed.

Lemma cancel_create_same_handle_witness :
  well_formed ex_spec /\ 1%positive ∈ active_list ex_spec /\
  exists s1,
    tmr_cancel 1%positive ex_spec = Ok s1 /\
    free_timers s1 = Some 1%positive /\
    free_list s1 = 1%positive :: free_list ex_spec /\
    forall m clock nowP proc data ns per,
      exists s2, tmr_create m clock nowP proc data ns per s1 = Ok (Some 1%positive, s2).
Proof.
  assert (H : well_formed ex_spec) by (apply well_formedb_sound; vm_compute; reflexivity).
  assert (H' : 1%positive ∈ active_list ex_spec).
  { vm_compute. apply elem_of_cons; right. apply elem_of_cons; by left. }
  split; [exact H|]. split; [exact H'|].
  exact (cancel_create_same_handle ex_spec 1%positive H H').
Defined.

(** * Claim C8: list_add is stable *)

(** C8.  On a well-formed state with a sorted active list, list_add of an
    allocated record that is in neither list splits the active list in two
    and puts the record in between: no record before it expires later, every
    record after it expires strictly later, so the records with the same
    expiry are all before it. *)
Theorem list_add_stable (s : State) (t : addr) :
  well_formed s -> Sorted ts_le (expiries s) -> detached s t ->
  exists s' l1 l2,
    list_add t s = Ok s' /\
    active_list s = l1 ++ l2 /\ active_list s' = l1 ++ t :: l2 /\
    Forall (fun a => ts_le (key (heap s) a) (key (heap s) t)) l1 /\
    Forall (fun a => ts_lt (key (heap s) t) (key (heap s) a) = true) l2 /\
    (forall a, a ∈ active_list s -> key (heap s) a = key (heap s) t -> a ∈ l1) /\
    well_formed s' /\ same_payload (heap s) (heap s').
Proof.
  intros Hwf Hs ([tm Htm] & Hta & Htf). unfold well_formed in Hwf.
  apply sorted_expiries in Hs.
  destruct (list_add_wf s _ _ t tm Hwf) as (s' & Hadd & Hwf' & Hpay); [|done|].
  { by apply not_elem_of_app. }
  destruct (ins_split (key (heap s)) t _ Hs) as (l1 & l2 & Hl & Hi & H1 & H2).
  exists s', l1, l2. split; [done|]. split; [done|].
  split; [by rewrite (wf_active_list _ _ _ Hwf')|].
  split; [done|]. split; [done|]. split; [|split; [by eapply wf_well_formed|done]].
  intros a Ha Heq. rewrite Hl in Ha. apply elem_of_app in Ha as [Ha|Ha]; [done|].
  rewrite Forall_forall in H2. specialize (H2 a Ha).
  rewrite Heq, ts_lt_irrefl in H2. done.
Qed.

Lemma list_add_stable_witness :
  well_formed ex_tie /\ Sorted ts_le (expiries ex_tie) /\ detached ex_tie 4%positive /\
  exists s' l1 l2,
    list_add 4%positive ex_tie = Ok s' /\
    active_list ex_tie = l1 ++ l2 /\ active_list s' = l1 ++ 4%positive :: l2 /\
    Forall (fun a => ts_le (key (heap ex_tie) a) (key (heap ex_tie) 4%positive)) l1 /\
    Forall (fun a => ts_lt (key (heap ex_tie) 4%positive) (key (heap ex_tie) a) = true) l2 /\
    (forall a, a ∈ active_list ex_tie ->
       key (heap ex_tie) a = key (heap ex_tie) 4%positive -> a ∈ l1) /\
    well_formed s' /\ same_payload (heap ex_tie) (heap s').
Proof.
  assert (H : well_formed ex_tie) by (apply well_formedb_sound; vm_compute; reflexivity).
  assert (H' : Sorted ts_le (expiries ex_tie)) by (apply sortedb_sound; vm_compute; reflexivity).
  assert (H'' : detached ex_tie 4%positive).
  { split; [by eexists|]. split; vm_compute; intros Hin.
    - repeat (apply elem_of_cons in Hin as [Hin|Hin]; [discriminate Hin|]).
      by apply elem_of_nil in Hin.
    - by apply elem_of_nil in Hin. }
  split; [exact H|]. split; [exact H'|]. split; [exact H''|].
  exact (list_add_stable ex_tie 4%positive H H' H'').
Defined.

(** The record of the example goes after the two records with its expiry. *)
Lemma list_add_stable_example :
  exists s', list_add 4%positive ex_tie = Ok s' /\
    active_list s' = [1%positive; 2%positive; 4%positive; 3%positive].
Proof. eexists. split; vm_compute; reflexivity. Qed.

(** * Claim C2: the active list stays sorted *)

(** C2, as amended.  Take callbacks that may call back into the module and
    write to [now], as long as the callback of a due active timer, called in
    a well-formed state with a sorted active list, leaves the lists well
    formed and sorted and leaves that timer and the one after it on the
    active list.  Then every state that create, cancel, reset and run lead
    to from the empty state is well formed and its expiries are in
    non-decreasing order of (seconds, nanoseconds) from head to tail; and
    list_add, list_remove and list_resort each return with the list in that
    order (list_resort even when the expiry of its record has changed). *)
Theorem sort_invariant
    (procs : TimerProc -> TimerClientData -> timespec -> State -> timespec * State) :
  procs_keep_order procs ->
  (forall s, reachable procs s -> well_formed s /\ Sorted ts_le (expiries s)) /\
  (forall s t, well_formed s -> Sorted ts_le (expiries s) -> detached s t ->
     exists s', list_add t s = Ok s' /\
       well_formed s' /\ Sorted ts_le (expiries s') /\
       active_list s' ≡ₚ t :: active_list s) /\
  (forall s l1 t l2, well_formed s -> Sorted ts_le (expiries s) ->
     active_list s = l1 ++ t :: l2 ->
     exists s', list_remove t s = Ok s' /\
       well_formed s' /\ Sorted ts_le (expiries s') /\
       active_list s' = l1 ++ l2) /\
  (forall s l1 t l2, well_formed s -> active_list s = l1 ++ t :: l2 ->
     Sorted ts_le (map (key (heap s)) (l1 ++ l2)) ->
     exists s', list_resort t s = Ok s' /\
       well_formed s' /\ Sorted ts_le (expiries s') /\
       active_list s' ≡ₚ active_list s).
Proof.
  intros Hprocs. split; [|split; [|split]].
  - intros s Hr.
    destruct (reachable_inv procs Hprocs s Hr) as (la & lf & Hwf & Hs).
    split; [by eapply wf_well_formed|].
    apply sorted_expiries. by rewrite (wf_active_list _ _ _ Hwf).
  - intros s t Hwf Hs ([tm Htm] & Hta & Htf). unfold well_formed in Hwf.
    apply sorted_expiries in Hs.
    destruct (list_add_wf s _ _ t tm Hwf) as (s' & Hadd & Hwf' & Hpay); [|done|].
    { by apply not_elem_of_app. }
    exists s'. split; [done|]. split; [by eapply wf_well_formed|]. split.
    + apply sorted_expiries. rewrite (wf_active_list _ _ _ Hwf').
      apply (sorted_same_payload (heap s)); [done|]. by apply ins_sorted.
    + rewrite (wf_active_list _ _ _ Hwf'). apply ins_Permutation.
  - intros s l1 t l2 Hwf Hs Hla. unfold well_formed in Hwf.
    apply sorted_expiries in Hs. rewrite Hla in Hwf, Hs.
    destruct (list_remove_wf s l1 t l2 _ Hwf) as (s' & Hrm & Hwf' & Hpay).
    exists s'. split; [done|]. split; [by eapply wf_well_formed|]. split.
    + apply sorted_expiries. rewrite (wf_active_list _ _ _ Hwf').
      apply (sorted_same_payload (heap s)); [done|]. by eapply sorted_remove.
    + by rewrite (wf_active_list _ _ _ Hwf').
  - intros s l1 t l2 Hwf Hla Hs. unfold well_formed in Hwf. rewrite Hla in Hwf.
    apply sorted_map in Hs.
    destruct (list_resort_spec s l1 t l2 _ Hwf) as (s' & Hrs & Hwf' & _ & Hpay).
    exists s'. split; [done|]. split; [by eapply wf_well_formed|]. split.
    + apply sorted_expiries. rewrite (wf_active_list _ _ _ Hwf').
      apply (sorted_same_payload (heap s)); [done|]. by apply ins_sorted.
    + rewrite (wf_active_list _ _ _ Hwf'), Hla, ins_Permutation.
      apply Permutation_middle.
Qed.

(** A state reached through create, run, cancel, reset and a create that
    reuses a record. *)
Lemma ex_trace_reachable :
  exists s, reachable no_procs s /\ active_list s = [1%positive; 3%positive] /\
    free_list s = [2%positive].
Proof.
  eexists. split.
  - eapply (reach_create no_procs _ None (mk_timespec 600 0) None 15 105 1000000000 0).
    + eapply (reach_reset no_procs _ (mk_timespec 500 0) None 1%positive).
      * eapply (reach_cancel no_procs _ 3%positive).
        -- eapply (reach_run no_procs _ 10%nat (mk_timespec 100 0) None).
           ++ apply ex_late_reachable.
           ++ vm_compute. reflexivity.
        -- vm_compute. apply elem_of_cons; right. apply elem_of_cons; by left.
        -- vm_compute. reflexivity.
      * vm_compute. apply elem_of_cons; by left.
      * vm_compute. reflexivity.
    + intros a junk Hm. discriminate Hm.
    + vm_compute. reflexivity.
  - split; vm_compute; reflexivity.
Qed.

(** A state reached through a pass in which a callback creates a timer:
    at 65 s the callback of timer 1 creates timer 4, which expires at 70 s
    and goes behind timer 2, before timer 1 is rescheduled to 120 s. *)
Lemma ex_create_reachable :
  exists s, reachable ex_create_procs s /\
    active_list s = [2%positive; 4%positive; 1%positive; 3%positive] /\
    expiries s = [mk_timespec 70 0; mk_timespec 70 0; mk_timespec 120 0; mk_timespec 200 0].
Proof.
  eexists. split.
  - eapply (reach_run ex_create_procs _ 10%nat (mk_timespec 65 0) None).
    + apply ex_late_reachable.
    + vm_compute. reflexivity.
  - split; vm_compute; reflexivity.
Qed.

Lemma sort_invariant_witness :
  procs_keep_order ex_create_procs /\
  exists s, reachable ex_create_procs s /\
    active_list s = [2%positive; 4%positive; 1%positive; 3%positive] /\
    well_formed s /\ Sorted ts_le (expiries s).
Proof.
  assert (H : procs_keep_order ex_create_procs) by exact ex_create_procs_order.
  split; [exact H|].
  destruct ex_create_reachable as (s & Hr & Hla & _).
  exists s. split; [exact Hr|]. split; [exact Hla|].
  exact (proj1 (sort_invariant ex_create_procs H) s Hr).
Defined.

(** A state reached through a pass in which a callback cancels the timer
    that comes next.  Timers 1 (10 s), 2 (20 s), 3 (100 s) and 4 (50 s) are
    created and 4 and 3 are cancelled, so that the free list is 3, 4.  In
    the pass at 60 s the callback of timer 1 cancels timer 2; the pass
    retires timer 1, goes on with timer 2, whose [next] it has read before
    the call, calls it and cancels it again, and list_remove makes its
    successor on the free list the head of the active list. *)
Lemma ex_cancel_reachable :
  exists s, reachable ex_cancel_procs s /\
    active_list s = [3%positive; 4%positive] /\
    expiries s = [mk_timespec 100 0; mk_timespec 50 0].
Proof.
  eexists. split.
  - eapply (reach_run ex_cancel_procs _ 10%nat (mk_timespec 60 0) None).
    + eapply (reach_cancel ex_cancel_procs _ 3%positive).
      * eapply (reach_cancel ex_cancel_procs _ 4%positive).
        -- eapply (reach_create ex_cancel_procs _ (Some (2%positive, ex_junk))
                     (mk_timespec 0 0) None 12 102 20000000000 0).
           ++ eapply (reach_create ex_cancel_procs _ (Some (1%positive, ex_junk))
                        (mk_timespec 0 0) None 11 101 10000000000 0).
              ** eapply (reach_create ex_cancel_procs _ (Some (3%positive, ex_junk))
                           (mk_timespec 0 0) None 13 103 100000000000 0).
                 --- eapply (reach_create ex_cancel_procs init_state
                               (Some (4%positive, ex_junk))
                               (mk_timespec 0 0) None 14 104 50000000000 0).
                     +++ apply reach_init.
                     +++ intros a junk _. apply lookup_empty.
                     +++ vm_compute. reflexivity.
                 --- intros a junk [= <- _]. vm_compute. reflexivity.
                 --- vm_compute. reflexivity.
              ** intros a junk [= <- _]. vm_compute. reflexivity.
              ** vm_compute. reflexivity.
           ++ intros a junk [= <- _]. vm_compute. reflexivity.
           ++ vm_compute. reflexivity.
        -- vm_compute. do 2 (apply elem_of_cons; right). apply elem_of_cons; by left.
        -- vm_compute. reflexivity.
      * vm_compute. do 2 (apply elem_of_cons; right). apply elem_of_cons; by left.
      * vm_compute. reflexivity.
    + vm_compute. reflexivity.
  - split; vm_compute; reflexivity.
Qed.

(** C2 as it is stated fails when a callback cancels the timer that comes
    next in the pass: the state of [ex_cancel_reachable] is reached by
    create, cancel and run from the empty state, and its active list has
    the expiries 100 s and 50 s, in this order. *)
Lemma sort_invariant_counterexample : ~ sort_invariant_claim ex_cancel_procs.
Proof.
  intros H. destruct ex_cancel_reachable as (s & Hr & _ & He).
  specialize (H s Hr). rewrite He in H.
  inversion H as [|? ? _ Hhd]. inversion Hhd as [|? ? Hle].
  unfold ts_le in Hle. simpl in Hle. lia.
Qed.

(** * Claim C3: a periodic timer is rescheduled from its previous expiry *)


Section Reschedule.
Variable procs : TimerProc -> TimerClientData -> timespec -> State -> timespec * State.
Hypothesis procs_frame : procs_keep_state procs.

End Reschedule.




(** What the two passes of the counterexample leave: the expiry 185 s
    instead of 120 s, and the first second of [time_t] instead of the one
    after the last. *)
Lemma periodic_reschedule_reset_example :
  exists s1 tm1 s2 tm2,
    tmr_run ex_reset_procs 10 (mk_timespec 65 0) None ex_late =
      Ok (s1, [mk_call 1%positive 11 101 (mk_timespec 65 0)]) /\
    heap s1 !! 1%positive = Some tm1 /\ time tm1 = mk_timespec 185 0 /\
    tmr_run no_procs 10 (mk_timespec (2 ^ 63 - 1) 0) None ex_last =
      Ok (s2, [mk_call 1%positive 11 101 (mk_timespec (2 ^ 63 - 1) 0)]) /\
    heap s2 !! 1%positive = Some tm2 /\ time tm2 = mk_timespec (- 2 ^ 63) 0.
Proof.
  eexists _, _, _, _.
  split; [vm_compute; reflexivity|]. split; [vm_compute; reflexivity|].
  split; [reflexivity|].
  split; [vm_compute; reflexivity|]. split; [vm_compute; reflexivity|].
  reflexivity.
Qed.

(** In the late pass of the example, at 150 s, the periodic timer is fired
    twice and its expiry goes from 60 s to 180 s: twice its interval of
    60 s, not the current time plus the interval. *)
Lemma periodic_reschedule_late_example :
  exists s' tm',
    tmr_run no_procs 10 (mk_timespec 150 0) None ex_late =
      Ok (s', [mk_call 1%positive 11 101 (mk_timespec 150 0);
               mk_call 2%positive 12 102 (mk_timespec 150 0);
               mk_call 1%positive 11 101 (mk_timespec 150 0)]) /\
    heap s' !! 1%positive = Some tm' /\ time tm' = mk_timespec 180 0.
Proof. eexists _, _. split; [|split]; vm_compute; reflexivity. Qed.

(** * Claim C1: what one call of tmr_run fires *)

(** C1, as amended.  Take a well-formed state with a sorted active list,
    callbacks that leave the state of the module alone and do not write to
    the [now] that they are handed, and a current time at which every due
    periodic timer is no longer due once it has been rescheduled.  Then
    tmr_run returns, and it has called the callbacks of exactly the due
    timers (the longest prefix of the list with expiry <= now), once each,
    in list order.  The one-shot ones are on the free list, last fired
    first; the periodic ones are back in the active list with their
    interval added to their expiry; the timers that were not due have not
    been fired, keep their payload and their relative order, and no timer of
    the active list is due any more.  The list stays well formed and
    sorted. *)
Theorem tmr_run_fires_due_prefix
    (procs : TimerProc -> TimerClientData -> timespec -> State -> timespec * State)
    (clock : timespec) (nowP : option timespec) (now : timespec) (s : State) :
  procs_keep_state procs -> procs_keep_now procs -> getnow clock nowP = now ->
  well_formed s -> Sorted ts_le (expiries s) ->
  (forall a, a ∈ due_timers s now -> is_periodic (heap s) a = true ->
     ts_lt now (rescheduled (heap s) a) = true) ->
  exists fuel s',
    tmr_run procs fuel clock nowP s =
      Ok (s', map (call_of (heap s) now) (due_timers s now)) /\
    well_formed s' /\ Sorted ts_le (expiries s') /\
    free_list s' =
      rev (filter (fun a => is_periodic (heap s) a = false) (due_timers s now))
      ++ free_list s /\
    active_list s' ≡ₚ
      filter (fun a => is_periodic (heap s) a = true) (due_timers s now)
      ++ pending_timers s now /\
    pending_timers s now `sublist_of` active_list s' /\
    Forall (fun a => ts_lt now (key (heap s') a) = true) (active_list s') /\
    (forall a, a ∉ due_timers s now ->
       payload <$> (heap s' !! a) = payload <$> (heap s !! a)) /\
    (forall a tm, a ∈ due_timers s now -> heap s !! a = Some tm ->
       exists tm', heap s' !! a = Some tm' /\
         payload tm' = (timer_proc tm, client_data tm, nsecs tm, periodic tm,
                        if periodic tm =? 0 then time tm
                        else add_nsecs (time tm) (nsecs tm))).
Proof.
  intros Hprocs Hkeepnow Hnow Hwf Hs Honce. unfold well_formed in Hwf.
  apply sorted_expiries in Hs.
  unfold due_timers, pending_timers in *.
  set (k := key (heap s)) in *. set (la := active_list s) in *.
  pose proof (due_split k now la) as Hsplit.
  set (d := due_prefix k now la) in *. set (r := due_rest k now la) in *.
  assert (Hwf0 : wf s (d ++ r) (free_list s)) by (by rewrite <- Hsplit).
  assert (Hptr : match d with
                 | a :: _ => timers s = Some a
                 | [] => forall b, timers s = Some b -> b ∈ r
                 end).
  { rewrite (wf_timers _ _ _ Hwf0). destruct d as [|a d']; simpl; [|done].
    intros b Hb. destruct r; simplify_eq/=. by apply elem_of_cons; left. }
  destruct (tmr_run_loop_due procs Hprocs Hkeepnow now d s r (free_list s) [] (timers s) Hwf0
              (due_prefix_due k now la) (due_rest_not_due k now la Hs) Honce Hptr)
    as (s' & la' & Hrun & Hwf' & Hperm & Hsub & Hnd & Hout & Hin).
  rewrite app_nil_l in Hrun.
  exists (S (length d)), s'. unfold tmr_run. rewrite Hnow.
  split; [exact Hrun|].
  destruct (tmr_run_loop_inv procs (procs_keep_state_order procs Hprocs) _ now _ _ _ _ _ _ _ Hwf0
              ltac:(by rewrite <- Hsplit)
              ltac:(intros a Ha; by eapply wf_head) Hrun)
    as (la2 & lf2 & Hwf2 & Hs2).
  rewrite <- (wf_active_list _ _ _ Hwf2) in Hs2.
  rewrite (wf_active_list _ _ _ Hwf'), (wf_free_list _ _ _ Hwf').
  split; [by eapply wf_well_formed|].
  split; [by apply sorted_expiries|].
  done.
Qed.

Lemma tmr_run_fires_due_prefix_witness :
  procs_keep_state no_procs /\ procs_keep_now no_procs /\
  getnow (mk_timespec 0 50000000) None = mk_timespec 0 50000000 /\
  well_formed ex_spec /\ Sorted ts_le (expiries ex_spec) /\
  (forall a, a ∈ due_timers ex_spec (mk_timespec 0 50000000) ->
     is_periodic (heap ex_spec) a = true ->
     ts_lt (mk_timespec 0 50000000) (rescheduled (heap ex_spec) a) = true) /\
  exists fuel s',
    tmr_run no_procs fuel (mk_timespec 0 50000000) None ex_spec =
      Ok (s', map (call_of (heap ex_spec) (mk_timespec 0 50000000))
                (due_timers ex_spec (mk_timespec 0 50000000))) /\
    well_formed s' /\ Sorted ts_le (expiries s') /\
    free_list s' =
      rev (filter (fun a => is_periodic (heap ex_spec) a = false)
             (due_timers ex_spec (mk_timespec 0 50000000)))
      ++ free_list ex_spec /\
    active_list s' ≡ₚ
      filter (fun a => is_periodic (heap ex_spec) a = true)
        (due_timers ex_spec (mk_timespec 0 50000000))
      ++ pending_timers ex_spec (mk_timespec 0 50000000) /\
    pending_timers ex_spec (mk_timespec 0 50000000) `sublist_of` active_list s' /\
    Forall (fun a => ts_lt (mk_timespec 0 50000000) (key (heap s') a) = true)
      (active_list s') /\
    (forall a, a ∉ due_timers ex_spec (mk_timespec 0 50000000) ->
       payload <$> (heap s' !! a) = payload <$> (heap ex_spec !! a)) /\
    (forall a tm, a ∈ due_timers ex_spec (mk_timespec 0 50000000) ->
       heap ex_spec !! a = Some tm ->
       exists tm', heap s' !! a = Some tm' /\
         payload tm' = (timer_proc tm, client_data tm, nsecs tm, periodic tm,
                        if periodic tm =? 0 then time tm
                        else add_nsecs (time tm) (nsecs tm))).
Proof.
  assert (H1 : procs_keep_state no_procs) by (intros p d now s; reflexivity).
  assert (H2 : getnow (mk_timespec 0 50000000) None = mk_timespec 0 50000000)
    by reflexivity.
  assert (H3 : well_formed ex_spec) by (apply well_formedb_sound; vm_compute; reflexivity).
  assert (H4 : Sorted ts_le (expiries ex_spec))
    by (apply sortedb_sound; vm_compute; reflexivity).
  assert (H5 : forall a, a ∈ due_timers ex_spec (mk_timespec 0 50000000) ->
     is_periodic (heap ex_spec) a = true ->
     ts_lt (mk_timespec 0 50000000) (rescheduled (heap ex_spec) a) = true).
  { intros a Ha _.
    assert (Hd : due_timers ex_spec (mk_timespec 0 50000000) = [2%positive])
      by (vm_compute; reflexivity).
    rewrite Hd in Ha. apply list_elem_of_singleton in Ha. subst a.
    vm_compute. reflexivity. }
  assert (H0 : procs_keep_now no_procs) by (intros p d now s; reflexivity).
  split; [exact H1|]. split; [exact H0|]. split; [exact H2|]. split; [exact H3|].
  split; [exact H4|]. split; [exact H5|].
  exact (tmr_run_fires_due_prefix no_procs (mk_timespec 0 50000000) None
           (mk_timespec 0 50000000) ex_spec H1 H0 H2 H3 H4 H5).
Defined.

(** The example of the spec: at 50 ms timer 2 fires once and is rescheduled
    to 100 ms, behind timer 1, which expires at 100 ms too and is not
    fired. *)
Lemma tmr_run_spec_example :
  exists s',
    tmr_run no_procs 2 (mk_timespec 0 50000000) None ex_spec =
      Ok (s', [mk_call 2%positive 12 102 (mk_timespec 0 50000000)]) /\
    active_list s' = [1%positive; 2%positive] /\
    expiries s' = [mk_timespec 0 100000000; mk_timespec 0 100000000].
Proof. eexists. split; [|split]; vm_compute; reflexivity. Qed.

(** C1 as it is stated fails when a rescheduled periodic timer is still
    due: at 150 s the timers 1 (periodic, 60 s, expiry 60 s) and 2 (expiry
    70 s) of [ex_late] are due; the pass calls 1, 2 and then 1 again, and
    puts 1 before the timer 3 that was not due. *)
Lemma tmr_run_refire_counterexample :
  well_formed ex_late /\ Sorted ts_le (expiries ex_late) /\
  ~ run_due_claim no_procs ex_late (mk_timespec 150 0).
Proof.
  split; [apply ex_late_well_formed|]. split; [apply ex_late_sorted|].
  intros (fuel & s' & Hrun & _).
  destruct fuel as [|[|[|[|fuel]]]]; vm_compute in Hrun;
    try discriminate Hrun; injection Hrun as _ Hcalls; discriminate Hcalls.
Qed.

(** The callbacks must leave [now] alone as well: in the pass at 100 s the
    timers 1 and 2 of [ex_late] are due, but when the callback of timer 1
    sets the seconds of [now] to 0 the pass stops at timer 2 and has called
    timer 1 only. *)
Lemma tmr_run_now_written_example :
  due_timers ex_late (mk_timespec 100 0) = [1%positive; 2%positive] /\
  procs_keep_state ex_clock_procs /\
  exists s',
    tmr_run ex_clock_procs 10 (mk_timespec 100 0) None ex_late =
      Ok (s', [mk_call 1%positive 11 101 (mk_timespec 100 0)]).
Proof.
  split; [vm_compute; reflexivity|]. split; [by intros p d now s|].
  eexists. vm_compute. reflexivity.
Qed.

(** A pass need not return at all: two due periodic timers with interval 0
    are put behind each other for ever. *)
Lemma tmr_run_zero_interval_spins :
  forall fuel, tmr_run no_procs fuel (mk_timespec 0 0) None ex_spin_12 = OutOfFuel.
Proof.
  assert (H : forall fuel calls,
    tmr_run_loop no_procs fuel (mk_timespec 0 0) (Some 1%positive) ex_spin_12 calls = OutOfFuel /\
    tmr_run_loop no_procs fuel (mk_timespec 0 0) (Some 2%positive) ex_spin_21 calls = OutOfFuel).
  { induction fuel as [|fuel IH]; intros calls; [done|].
    assert (H1 : tmr_run_body no_procs (mk_timespec 0 0) 1%positive ex_spin_12 =
      Ok (Some (Some 2%positive, mk_call 1%positive 11 101 (mk_timespec 0 0),
                mk_timespec 0 0), ex_spin_21))
      by (vm_compute; reflexivity).
    assert (H2 : tmr_run_body no_procs (mk_timespec 0 0) 2%positive ex_spin_21 =
      Ok (Some (Some 1%positive, mk_call 2%positive 12 102 (mk_timespec 0 0),
                mk_timespec 0 0), ex_spin_12))
      by (vm_compute; reflexivity).
    split.
    - change (tmr_run_loop no_procs (S fuel) (mk_timespec 0 0) (Some 1%positive) ex_spin_12 calls)
        with (r0 <- tmr_run_body no_procs (mk_timespec 0 0) 1%positive ex_spin_12;
              match r0 with
              | (None, s') => Ok (s', calls)
              | (Some (nxt, c, now1), s') =>
                  tmr_run_loop no_procs fuel now1 nxt s' (calls ++ [c])
              end).
      rewrite H1. simpl. apply IH.
    - change (tmr_run_loop no_procs (S fuel) (mk_timespec 0 0) (Some 2%positive) ex_spin_21 calls)
        with (r0 <- tmr_run_body no_procs (mk_timespec 0 0) 2%positive ex_spin_21;
              match r0 with
              | (None, s') => Ok (s', calls)
              | (Some (nxt, c, now1), s') =>
                  tmr_run_loop no_procs fuel now1 nxt s' (calls ++ [c])
              end).
      rewrite H2. simpl. apply IH. }
  intros fuel. apply H.
Qed.

(** * The example of the spec, from the empty state

    Timer 1 (100 ms, one-shot) and timer 2 (50 ms, periodic) are created at
    0 ms.  The wait at 0 ms is 50 ms; the pass at 50 ms fires timer 2 and
    reschedules it to 100 ms; the wait at 50 ms is 50 ms again; the pass at
    100 ms fires both, retires timer 1 and reschedules timer 2 to 150 ms. *)
Lemma spec_example_from_init :
  exists s1 s2 s3 s4,
    tmr_create (Some (1%positive, ex_junk)) (mk_timespec 0 0) None 11 101 100000000 0
      init_state = Ok (Some 1%positive, s1) /\
    tmr_create (Some (2%positive, ex_junk)) (mk_timespec 0 0) None 12 102 50000000 1
      s1 = Ok (Some 2%positive, s2) /\
    active_list s2 = [2%positive; 1%positive] /\
    tmr_timeout (mk_timespec 0 0) None s2 = Ok (Some (mk_timespec 0 50000000)) /\
    tmr_run no_procs 5 (mk_timespec 0 50000000) None s2 =
      Ok (s3, [mk_call 2%positive 12 102 (mk_timespec 0 50000000)]) /\
    tmr_timeout (mk_timespec 0 50000000) None s3 = Ok (Some (mk_timespec 0 50000000)) /\
    tmr_run no_procs 5 (mk_timespec 0 100000000) None s3 =
      Ok (s4, [mk_call 1%positive 11 101 (mk_timespec 0 100000000);
               mk_call 2%positive 12 102 (mk_timespec 0 100000000)]) /\
    active_list s4 = [2%positive] /\ free_list s4 = [1%positive] /\
    expiries s4 = [mk_timespec 0 150000000].
Proof.
  eexists _, _, _, _.
  split; [vm_compute; reflexivity|].
  split; [vm_compute; reflexivity|].
  split; [vm_compute; reflexivity|].
  split; [vm_compute; reflexivity|].
  split; [vm_compute; reflexivity|].
  split; [vm_compute; reflexivity|].
  split; [vm_compute; reflexivity|].
  split; [vm_compute; reflexivity|].
  split; vm_compute; reflexivity.
Qed.

(** * More of the interface: shared lemmas *)

Lemma timer_eq tm tm' : payload tm = payload tm' -> links tm = links tm' -> tm = tm'.
Proof.
  destruct tm, tm'. unfold payload, links. simpl. intros [= -> -> -> -> ->] [= -> ->]. done.
Qed.

Lemma dseg_head h prv hd l nxt :
  dseg h prv hd l nxt -> hd = match l with [] => nxt | a :: _ => Some a end.
Proof. destruct l; simpl; [done|]. by intros [-> _]. Qed.

(** The links of the records of a list are fixed by the list. *)
Lemma dseg_links_det h h' prv hd hd' l nxt :
  dseg h prv hd l nxt -> dseg h' prv hd' l nxt ->
  forall a, a ∈ l -> links <$> (h' !! a) = links <$> (h !! a).
Proof.
  revert prv hd hd'. induction l as [|b l IH]; intros prv hd hd' H H' a Ha.
  - by apply elem_of_nil in Ha.
  - simpl in H, H'. destruct H as (_ & tm & Hb & Hp & Hd).
    destruct H' as (_ & tm' & Hb' & Hp' & Hd').
    pose proof (dseg_head _ _ _ _ _ Hd) as Hn.
    pose proof (dseg_head _ _ _ _ _ Hd') as Hn'.
    apply elem_of_cons in Ha as [->|Ha].
    + rewrite Hb, Hb'. simpl. unfold links. congruence.
    + eapply IH; [exact Hd|exact Hd'|done].
Qed.

Lemma wf_record_det s s' la lf lf' a :
  wf s la lf -> wf s' la lf' -> a ∈ la ->
  payload <$> (heap s' !! a) = payload <$> (heap s !! a) ->
  heap s' !! a = heap s !! a.
Proof.
  intros [Hd _ _] [Hd' _ _] Ha Hp.
  pose proof (dseg_links_det _ _ _ _ _ _ _ Hd Hd' a Ha) as Hl.
  destruct (heap s' !! a) as [x|], (heap s !! a) as [y|]; simpl in *; try done.
  f_equal. apply timer_eq; congruence.
Qed.

Lemma ins_split_any k t l :
  exists l1 l2, l = l1 ++ l2 /\ ins k t l = l1 ++ t :: l2.
Proof.
  induction l as [|b l IH]; simpl.
  - by exists [], [].
  - destruct (ts_lt (k t) (k b)).
    + by exists [], (b :: l).
    + destruct IH as (l1 & l2 & -> & ->). by exists (b :: l1), l2.
Qed.

(** After [t] has been put back into [l1 ++ b :: l2], everything that was
    behind [b] is still behind it. *)
Lemma ins_keeps_suffix k t l1 b l2 :
  exists p q, ins k t (l1 ++ b :: l2) = p ++ b :: q /\
    (forall x, x ∈ l2 -> x ∈ q) /\ (forall x, x ∈ q -> x = t \/ x ∈ l2).
Proof.
  induction l1 as [|x l1 IH]; simpl.
  - destruct (ts_lt (k t) (k b)).
    + exists [t], l2. auto.
    + exists [], (ins k t l2). split; [done|]. split.
      * intros y Hy. apply elem_of_ins. by right.
      * intros y Hy. by apply elem_of_ins in Hy.
  - destruct (ts_lt (k t) (k x)).
    + exists (t :: x :: l1), l2. auto.
    + destruct IH as (p & q & -> & H1 & H2). by exists (x :: p), q.
Qed.

Lemma same_dom_payload (h h' : gmap addr Timer) a :
  payload <$> (h' !! a) = payload <$> (h !! a) -> is_Some (h' !! a) <-> is_Some (h !! a).
Proof. intros H. by rewrite <- !(fmap_is_Some payload), H. Qed.

Lemma due_prefix_elem k now l a :
  sorted k l -> (a ∈ due_prefix k now l <-> a ∈ l /\ ts_lt now (k a) = false).
Proof.
  intros Hs. pose proof (due_split k now l) as Hl.
  pose proof (due_prefix_due k now l) as Hd.
  pose proof (due_rest_not_due k now l Hs) as Hr.
  rewrite Forall_forall in Hd, Hr. split.
  - intros Ha. split; [|auto]. rewrite Hl. apply elem_of_app. by left.
  - intros [Ha Hdue]. rewrite Hl in Ha. apply elem_of_app in Ha as [Ha|Ha]; [done|].
    specialize (Hr a Ha). congruence.
Qed.

(** * tmr_cancel *)

(** X3.  tmr_cancel of a timer of a well-formed state takes exactly that
    timer out of the active list: the others stay in their order, no payload
    changes, the timer is the new head of the free list, and the state is
    well formed again. *)
Theorem tmr_cancel_removes (s : State) (l1 : list addr) (t : addr) (l2 : list addr) :
  well_formed s -> active_list s = l1 ++ t :: l2 ->
  exists s',
    tmr_cancel t s = Ok s' /\
    well_formed s' /\
    active_list s' = l1 ++ l2 /\ free_list s' = t :: free_list s /\
    same_payload (heap s) (heap s') /\
    (forall a, a ∉ active_list s -> a ∉ free_list s -> heap s' !! a = heap s !! a).
Proof.
  intros Hwf Hla. unfold well_formed in Hwf. rewrite Hla in Hwf.
  destruct (tmr_cancel_spec s l1 t l2 _ Hwf) as (s' & Hc & Hwf' & _ & Hframe & Hpay).
  exists s'. split; [done|]. split; [by eapply wf_well_formed|].
  split; [by rewrite (wf_active_list _ _ _ Hwf')|].
  split; [by rewrite (wf_free_list _ _ _ Hwf')|].
  split; [done|].
  intros a Ha _. apply Hframe. rewrite Hla in Ha.
  intros H. apply Ha. apply elem_of_cons in H as [->|H].
  - apply elem_of_app; right. by apply elem_of_cons; left.
  - apply elem_of_app in H as [H|H]; apply elem_of_app; [by left|].
    right. by apply elem_of_cons; right.
Qed.

Lemma tmr_cancel_removes_witness :
  well_formed ex_late /\ active_list ex_late = [1%positive] ++ 2%positive :: [3%positive] /\
  exists s',
    tmr_cancel 2%positive ex_late = Ok s' /\
    well_formed s' /\
    active_list s' = [1%positive] ++ [3%positive] /\
    free_list s' = 2%positive :: free_list ex_late /\
    same_payload (heap ex_late) (heap s') /\
    (forall a, a ∉ active_list ex_late -> a ∉ free_list ex_late ->
       heap s' !! a = heap ex_late !! a).
Proof.
  assert (H : well_formed ex_late) by (apply well_formedb_sound; vm_compute; reflexivity).
  assert (H' : active_list ex_late = [1%positive] ++ 2%positive :: [3%positive])
    by (vm_compute; reflexivity).
  split; [exact H|]. split; [exact H'|].
  exact (tmr_cancel_removes ex_late [1%positive] 2%positive [3%positive] H H').
Defined.

(** * tmr_reset *)

(** X2.  tmr_reset of an active timer keeps its record and its payload but
    for the expiry, which becomes the current time plus its interval, and
    moves it behind the timers that do not expire later and before those
    that do; the other timers keep their order and their payload, the free
    list does not change, and a list that was sorted apart from this timer
    is sorted afterwards. *)
Theorem tmr_reset_restarts (clock : timespec) (nowP : option timespec) (s : State)
    (l1 : list addr) (t : addr) (l2 : list addr) (tm : Timer) :
  well_formed s -> active_list s = l1 ++ t :: l2 -> heap s !! t = Some tm ->
  Sorted ts_le (map (key (heap s)) (l1 ++ l2)) ->
  exists s' tm' k1 k2,
    tmr_reset clock nowP t s = Ok s' /\
    well_formed s' /\ Sorted ts_le (expiries s') /\
    heap s' !! t = Some tm' /\
    payload tm' = (timer_proc tm, client_data tm, nsecs tm, periodic tm,
                   add_nsecs (getnow clock nowP) (nsecs tm)) /\
    l1 ++ l2 = k1 ++ k2 /\ active_list s' = k1 ++ t :: k2 /\
    Forall (fun a => ts_le (key (heap s') a) (time tm')) k1 /\
    Forall (fun a => ts_lt (time tm') (key (heap s') a) = true) k2 /\
    free_list s' = free_list s /\
    (forall a, a <> t -> payload <$> (heap s' !! a) = payload <$> (heap s !! a)).
Proof.
  intros Hwf Hla Htm Hs. unfold well_formed in Hwf. rewrite Hla in Hwf.
  apply sorted_map in Hs.
  destruct (wf_mid s l1 t l2 _ Hwf) as (_ & _ & _ & _ & Htl & _).
  unfold tmr_reset.
  rewrite (store_ok _ _ _ tm) by done. simpl.
  erewrite store_ok by (simpl; by rewrite lookup_insert_eq). simpl.
  rewrite insert_insert_eq.
  set (tm2 := set_time _ _). set (s2 := with_heap _ _).
  assert (Hwf2 : wf s2 (l1 ++ t :: l2) (free_list s)).
  { by apply (wf_insert_payload s _ _ t tm tm2). }
  destruct (list_resort_spec s2 l1 t l2 _ Hwf2) as (s' & Hrun & Hwf' & Hframe & Hpay).
  assert (Ht2 : heap s2 !! t = Some tm2) by (simpl; by rewrite lookup_insert_eq).
  destruct (same_payload_lookup _ _ _ _ Hpay Ht2) as (tm' & Htm' & Hp').
  assert (Hother : forall a, a <> t ->
            payload <$> (heap s' !! a) = payload <$> (heap s !! a)).
  { intros a Ha. rewrite Hpay. simpl. by rewrite lookup_insert_ne. }
  assert (Hk : ins (key (heap s2)) t (l1 ++ l2) = ins (key (heap s')) t (l1 ++ l2)).
  { apply ins_ext; [by rewrite (same_payload_key _ _ _ Hpay)|].
    intros a _. by rewrite (same_payload_key _ _ _ Hpay). }
  rewrite Hk in Hwf'.
  assert (Hs' : sorted (key (heap s')) (l1 ++ l2)).
  { by apply (sorted_other (heap s) _ t). }
  destruct (ins_split (key (heap s')) t _ Hs') as (k1 & k2 & Hl & Hi & H1 & H2).
  rewrite (key_lookup _ _ _ Htm') in H1, H2.
  exists s', tm', k1, k2. split; [done|].
  split; [by eapply wf_well_formed|].
  split; [apply sorted_expiries; rewrite (wf_active_list _ _ _ Hwf'); by apply ins_sorted|].
  split; [done|]. split; [by rewrite Hp'|]. split; [done|].
  split; [by rewrite (wf_active_list _ _ _ Hwf')|].
  split; [done|]. split; [done|].
  split; [by rewrite (wf_free_list _ _ _ Hwf')|done].
Qed.

Lemma tmr_reset_restarts_witness :
  well_formed ex_late /\ active_list ex_late = [] ++ 1%positive :: [2%positive; 3%positive] /\
  heap ex_late !! 1%positive =
    Some (mk_Timer 11 101 60000000000 1 (mk_timespec 60 0) None (Some 2%positive)) /\
  Sorted ts_le (map (key (heap ex_late)) ([] ++ [2%positive; 3%positive])) /\
  exists s' tm' k1 k2,
    tmr_reset (mk_timespec 65 0) None 1%positive ex_late = Ok s' /\
    well_formed s' /\ Sorted ts_le (expiries s') /\
    heap s' !! 1%positive = Some tm' /\
    payload tm' = (11, 101, 60000000000, 1,
                   add_nsecs (getnow (mk_timespec 65 0) None) 60000000000) /\
    [] ++ [2%positive; 3%positive] = k1 ++ k2 /\
    active_list s' = k1 ++ 1%positive :: k2 /\
    Forall (fun a => ts_le (key (heap s') a) (time tm')) k1 /\
    Forall (fun a => ts_lt (time tm') (key (heap s') a) = true) k2 /\
    free_list s' = free_list ex_late /\
    (forall a, a <> 1%positive ->
       payload <$> (heap s' !! a) = payload <$> (heap ex_late !! a)).
Proof.
  assert (H1 : well_formed ex_late) by (apply well_formedb_sound; vm_compute; reflexivity).
  assert (H2 : active_list ex_late = [] ++ 1%positive :: [2%positive; 3%positive])
    by (vm_compute; reflexivity).
  assert (H3 : heap ex_late !! 1%positive =
    Some (mk_Timer 11 101 60000000000 1 (mk_timespec 60 0) None (Some 2%positive)))
    by (vm_compute; reflexivity).
  assert (H4 : Sorted ts_le (map (key (heap ex_late)) ([] ++ [2%positive; 3%positive])))
    by (apply sortedb_sound; vm_compute; reflexivity).
  split; [exact H1|]. split; [exact H2|]. split; [exact H3|]. split; [exact H4|].
  exact (tmr_reset_restarts (mk_timespec 65 0) None ex_late [] 1%positive
           [2%positive; 3%positive] _ H1 H2 H3 H4).
Defined.

(** * tmr_destroy *)

Lemma tmr_destroy_loop_spec la :
  forall fuel s lf,
  wf s la lf -> (length la <= fuel)%nat ->
  exists s', tmr_destroy_loop fuel s = Ok s' /\
    wf s' [] (rev la ++ lf) /\
    same_payload (heap s) (heap s') /\
    (forall a, a ∉ la ++ lf -> heap s' !! a = heap s !! a).
Proof.
  induction la as [|t la IH]; intros fuel s lf Hwf Hfuel.
  - pose proof (wf_timers _ _ _ Hwf) as Ht. simpl in Ht.
    exists s. split; [destruct fuel; simpl; by rewrite Ht|].
    split; [done|]. split; [apply same_payload_refl|done].
  - destruct fuel as [|fuel]; [simpl in Hfuel; lia|]. simpl in Hfuel.
    pose proof (wf_timers _ _ _ Hwf) as Ht. simpl in Ht.
    change (t :: la) with ([] ++ t :: la) in Hwf.
    destruct (tmr_cancel_spec s [] t la lf Hwf) as (s1 & Hc & Hwf1 & _ & Hframe1 & Hpay1).
    simpl in Hwf1, Hframe1.
    destruct (IH fuel s1 (t :: lf) Hwf1 ltac:(lia)) as (s' & Hrun & Hwf' & Hpay' & Hframe').
    exists s'. simpl. rewrite Ht, Hc. simpl. split; [done|].
    split; [by rewrite <- app_assoc|]. split; [by eapply same_payload_trans|].
    intros a Ha. rewrite Hframe', Hframe1; [done| |].
    + intros H. apply Ha. apply elem_of_cons in H as [->|H].
      * by apply elem_of_cons; left.
      * apply elem_of_cons; right. apply elem_of_app; by left.
    + intros H. apply Ha. apply elem_of_app in H as [H|H].
      * apply elem_of_cons; right. apply elem_of_app; by left.
      * apply elem_of_cons in H as [->|H]; [by apply elem_of_cons; left|].
        apply elem_of_cons; right. apply elem_of_app; by right.
Qed.

Lemma tmr_destroy_spec s la lf :
  wf s la lf ->
  exists s', tmr_destroy s = Ok s' /\
    wf s' [] [] /\ timers s' = None /\ free_timers s' = None /\
    (forall a, a ∈ la ++ lf -> heap s' !! a = None) /\
    (forall a, a ∉ la ++ lf -> heap s' !! a = heap s !! a).
Proof.
  intros Hwf.
  destruct (tmr_destroy_loop_spec la (size (heap s)) s lf Hwf) as (s1 & H1 & Hwf1 & _ & Hframe1).
  { pose proof (wf_length _ _ _ Hwf) as H. rewrite length_app in H. lia. }
  destruct (tmr_cleanup_spec s1 _ _ Hwf1) as (s' & H2 & Hwf' & Htm & Hfr & Hframe' & Hgone).
  exists s'. unfold tmr_destroy. rewrite H1. simpl. split; [done|].
  split; [done|]. split; [by rewrite (wf_timers _ _ _ Hwf')|]. split; [done|].
  assert (Hiff : forall a, a ∈ rev la ++ lf <-> a ∈ la ++ lf).
  { intros a. rewrite !elem_of_app, !list_elem_of_In, <- in_rev. done. }
  split.
  - intros a Ha. apply Hgone. by apply Hiff.
  - intros a Ha. rewrite Hframe'; [by apply Hframe1|]. by rewrite Hiff.
Qed.

(** X1.  tmr_destroy of a well-formed state returns with both lists empty
    and with every record of the active and of the free list released; the
    other records are not touched, and when every allocated record was on
    one of the lists the state is the initial one again. *)
Theorem tmr_destroy_frees_all (s : State) :
  well_formed s ->
  exists s',
    tmr_destroy s = Ok s' /\
    timers s' = None /\ free_timers s' = None /\
    (forall a, a ∈ active_list s ++ free_list s -> heap s' !! a = None) /\
    (forall a, a ∉ active_list s ++ free_list s -> heap s' !! a = heap s !! a) /\
    (allocated_in_lists s -> s' = init_state).
Proof.
  intros Hwf. unfold well_formed in Hwf.
  destruct (tmr_destroy_spec s _ _ Hwf) as (s' & Hrun & _ & Htm & Hfr & Hgone & Hframe).
  exists s'. repeat (split; [done|]).
  intros Hall. destruct s' as [h' tm' fr']. simpl in *. subst tm' fr'.
  unfold init_state. f_equal. apply map_eq. intros a. rewrite lookup_empty.
  destruct (decide (a ∈ active_list s ++ free_list s)) as [Ha|Ha]; [auto|].
  rewrite Hframe by done. apply eq_None_not_Some. by rewrite (Hall a).
Qed.

Lemma tmr_destroy_frees_all_witness :
  well_formed ex_spec /\
  exists s',
    tmr_destroy ex_spec = Ok s' /\
    timers s' = None /\ free_timers s' = None /\
    (forall a, a ∈ active_list ex_spec ++ free_list ex_spec -> heap s' !! a = None) /\
    (forall a, a ∉ active_list ex_spec ++ free_list ex_spec ->
       heap s' !! a = heap ex_spec !! a) /\
    (allocated_in_lists ex_spec -> s' = init_state).
Proof.
  assert (H : well_formed ex_spec) by (apply well_formedb_sound; vm_compute; reflexivity).
  split; [exact H|].
  exact (tmr_destroy_frees_all ex_spec H).
Defined.

(** * tmr_run in general *)

Lemma same_payload_call_of h h' now a :
  same_payload h h' -> call_of h' now a = call_of h now a.
Proof.
  intros H. specialize (H a). unfold call_of.
  destruct (h' !! a) as [x|], (h !! a) as [y|]; simpl in *; try done.
  unfold payload in H. injection H as -> -> _ _ _. done.
Qed.

Lemma sorted_later k l1 a l2 b :
  sorted k (l1 ++ a :: l2) -> b ∈ l2 -> ts_le (k a) (k b).
Proof.
  rewrite sorted_strongly, strongly_app, strongly_cons.
  intros (_ & [_ H] & _) Hb. rewrite Forall_forall in H. by apply H.
Qed.

Section RunGeneral.
Variable procs : TimerProc -> TimerClientData -> timespec -> State -> timespec * State.
Hypothesis procs_frame : procs_keep_state procs.
Hypothesis procs_now : procs_keep_now procs.
Variable now : timespec.

(** Whatever a pass that returns has done: [l2] is the part of the list from
    the cursor on. *)
Lemma tmr_run_loop_general fuel :
  forall t s calls l1 l2 lf s' calls',
  wf s (l1 ++ l2) lf -> sorted (key (heap s)) (l1 ++ l2) -> t = head l2 ->
  tmr_run_loop procs fuel now t s calls = Ok (s', calls') ->
  exists la' lf' fired,
    calls' = calls ++ fired /\
    wf s' la' lf' /\ sorted (key (heap s')) la' /\
    la' ++ lf' ≡ₚ (l1 ++ l2) ++ lf /\
    (forall a, is_Some (heap s' !! a) <-> is_Some (heap s !! a)) /\
    (forall c, c ∈ fired ->
       call_timer c ∈ l1 ++ l2 /\ ts_lt now (key (heap s) (call_timer c)) = false /\
       c = call_of (heap s) now (call_timer c)) /\
    (forall a, a ∈ l2 -> ts_lt now (key (heap s) a) = false ->
       a ∈ map call_timer fired).
Proof.
  assert (Hstop : forall s calls l1 lf,
    wf s (l1 ++ []) lf -> sorted (key (heap s)) (l1 ++ []) ->
    exists la' lf' fired,
      calls = calls ++ fired /\
      wf s la' lf' /\ sorted (key (heap s)) la' /\
      la' ++ lf' ≡ₚ (l1 ++ []) ++ lf /\
      (forall a, is_Some (heap s !! a) <-> is_Some (heap s !! a)) /\
      (forall c, c ∈ fired ->
         call_timer c ∈ l1 ++ [] /\ ts_lt now (key (heap s) (call_timer c)) = false /\
         c = call_of (heap s) now (call_timer c)) /\
      (forall a, a ∈ [] -> ts_lt now (key (heap s) a) = false ->
         a ∈ map call_timer fired)).
  { intros s calls l1 lf Hwf Hs. exists (l1 ++ []), lf, [].
    split; [by rewrite app_nil_r|]. split; [done|]. split; [done|].
    split; [done|]. split; [done|].
    split; [intros c Hc; by apply elem_of_nil in Hc|].
    intros a Ha. by apply elem_of_nil in Ha. }
  induction fuel as [|fuel IH]; intros t s calls l1 l2 lf s' calls' Hwf Hs Ht Hrun.
  - destruct t; simpl in Hrun; [done|]. injection Hrun as <- <-.
    destruct l2; [|done]. by apply Hstop.
  - destruct t as [a|]; simpl in Hrun.
    2:{ injection Hrun as <- <-. destruct l2; [|done]. by apply Hstop. }
    destruct l2 as [|a' l2]; [done|]. simpl in Ht. injection Ht as <-.
    destruct (wf_mid s l1 a l2 lf Hwf) as (tm & Htm & _ & Hn & Htl & Htf & Hnd & _).
    destruct (ts_lt now (time tm)) eqn:Hdue.
    { rewrite (tmr_run_body_break procs now a s tm Htm Hdue) in Hrun.
      simpl in Hrun. injection Hrun as <- <-.
      exists (l1 ++ a :: l2), lf, []. rewrite app_nil_r.
      split; [done|]. split; [done|]. split; [done|]. split; [done|]. split; [done|].
      split; [intros c Hc; by apply elem_of_nil in Hc|].
      intros b Hb Hbdue. exfalso.
      assert (Hle : ts_le (key (heap s) a) (key (heap s) b)).
      { apply elem_of_cons in Hb as [->|Hb]; [apply ts_le_refl|].
        by eapply sorted_later. }
      rewrite (key_lookup _ _ _ Htm) in Hle.
      pose proof (ts_lt_le_trans _ _ _ Hdue Hle) as Hlt. congruence. }
    assert (Hc0 : call_of (heap s) now a = mk_call a (timer_proc tm) (client_data tm) now).
    { unfold call_of. by rewrite Htm. }
    assert (Hdue_a : ts_lt now (key (heap s) a) = false).
    { by rewrite (key_lookup _ _ _ Htm). }
    destruct (Z.eq_dec (periodic tm) 0) as [Hper|Hper].
    + destruct (tmr_run_body_oneshot procs procs_frame now s l1 a l2 lf tm Hwf Htm Hdue Hper)
        as (s1 & Hbody & Hwf1 & _ & Hpay).
      rewrite Hbody, procs_now in Hrun. simpl in Hrun.
      assert (Hs1 : sorted (key (heap s1)) (l1 ++ l2)).
      { apply (sorted_same_payload (heap s)); [done|]. by eapply sorted_remove. }
      destruct (IH _ _ _ l1 l2 _ _ _ Hwf1 Hs1 eq_refl Hrun)
        as (la' & lf' & fired & -> & Hwf' & Hs' & Hperm & Hdom & Hfired & Hall).
      exists la', lf', (mk_call a (timer_proc tm) (client_data tm) now :: fired).
      split; [by rewrite <- app_assoc|]. split; [done|]. split; [done|].
      split; [rewrite Hperm; by rewrite <- !Permutation_middle|].
      split; [intros b; rewrite Hdom; apply same_dom_payload, Hpay|].
      split.
      * intros c Hc. apply elem_of_cons in Hc as [->|Hc].
        -- simpl. split; [apply elem_of_app; right; by apply elem_of_cons; left|]. done.
        -- destruct (Hfired c Hc) as (H1 & H2 & H3).
           rewrite (same_payload_key _ _ _ Hpay) in H2.
           rewrite (same_payload_call_of _ _ _ _ Hpay) in H3.
           split; [|done].
           apply elem_of_app in H1 as [H1|H1]; apply elem_of_app; [by left|].
           right. by apply elem_of_cons; right.
      * intros b Hb Hbdue. simpl. apply elem_of_cons in Hb as [->|Hb].
        -- by apply elem_of_cons; left.
        -- apply elem_of_cons; right. apply Hall; [done|].
           by rewrite (same_payload_key _ _ _ Hpay).
    + destruct (tmr_run_body_periodic procs procs_frame now s l1 a l2 lf tm Hwf Htm Hdue Hper)
        as (s1 & tm1 & Hbody & Hwf1 & Htm1 & Hp1 & Hother).
      rewrite Hbody, procs_now in Hrun. simpl in Hrun.
      assert (Hs1 : sorted (key (heap s1)) (ins (key (heap s1)) a (l1 ++ l2))).
      { apply ins_sorted. apply (sorted_other (heap s) _ a); [done|done|].
        by eapply sorted_remove. }
      assert (Hsplit : exists p q, ins (key (heap s1)) a (l1 ++ l2) = p ++ q /\
                head q = head l2 /\ (forall x, x ∈ l2 -> x ∈ q)).
      { destruct l2 as [|b l2'].
        - exists (ins (key (heap s1)) a (l1 ++ [])), [].
          split; [symmetry; apply app_nil_r|]. split; [done|].
          intros x Hx. by apply elem_of_nil in Hx.
        - destruct (ins_keeps_suffix (key (heap s1)) a l1 b l2') as (p & q & Hi & H1 & _).
          exists p, (b :: q). split; [done|]. split; [done|].
          intros x Hx. apply elem_of_cons in Hx as [->|Hx]; apply elem_of_cons; auto. }
      destruct Hsplit as (p & q & Hi & Hq & Hsub). rewrite Hi in Hwf1, Hs1.
      assert (Hcall : forall b, call_of (heap s1) now b = call_of (heap s) now b).
      { intros b. destruct (decide (b = a)) as [->|Hne].
        - unfold call_of. rewrite Htm, Htm1. unfold payload in Hp1.
          injection Hp1 as -> -> _ _ _. done.
        - by destruct (other_payload_facts _ _ a now b Hother Hne) as (_ & _ & _ & ?). }
      destruct (IH _ _ _ p q _ _ _ Hwf1 Hs1 (eq_sym Hq) Hrun)
        as (la' & lf' & fired & -> & Hwf' & Hs' & Hperm & Hdom & Hfired & Hall).
      exists la', lf', (mk_call a (timer_proc tm) (client_data tm) now :: fired).
      split; [by rewrite <- app_assoc|]. split; [done|]. split; [done|].
      split; [rewrite Hperm, <- Hi, ins_Permutation; by rewrite <- !Permutation_middle|].
      split.
      { intros b; rewrite Hdom. destruct (decide (b = a)) as [->|Hne].
        - rewrite Htm, Htm1. split; by eexists.
        - by apply same_dom_payload, Hother. }
      split.
      * intros c Hc. apply elem_of_cons in Hc as [->|Hc].
        -- simpl. split; [apply elem_of_app; right; by apply elem_of_cons; left|]. done.
        -- destruct (Hfired c Hc) as (H1 & H2 & H3). rewrite Hcall in H3.
           rewrite <- Hi in H1. apply elem_of_ins in H1.
           destruct (decide (call_timer c = a)) as [Hca|Hca].
           ++ rewrite Hca. split; [apply elem_of_app; right; by apply elem_of_cons; left|].
              split; [done|]. by rewrite <- Hca.
           ++ destruct H1 as [H1|H1]; [done|].
              rewrite (key_other _ _ a _ Hother Hca) in H2.
              split; [|done].
              apply elem_of_app in H1 as [H1|H1]; apply elem_of_app; [by left|].
              right. by apply elem_of_cons; right.
      * intros b Hb Hbdue. simpl. apply elem_of_cons in Hb as [->|Hb].
        -- by apply elem_of_cons; left.
        -- apply elem_of_cons; right. apply Hall; [by apply Hsub|].
           assert (Hba : b <> a).
           { intros ->. apply Htl. apply elem_of_app. by right. }
           by rewrite (key_other _ _ a _ Hother Hba).
Qed.
End RunGeneral.

(** X4.  Whenever tmr_run returns on a well-formed state with a sorted
    active list (and callbacks that leave the state of the module alone and
    do not write to the [now] that they are handed), the timers it has
    called are exactly the timers that were due, each call carries the
    callback and the user data of its timer, no record of the free list has
    been called, and the state is well formed and sorted again with the same
    records allocated and distributed over the two lists. *)
Theorem tmr_run_fires_exactly_due
    (procs : TimerProc -> TimerClientData -> timespec -> State -> timespec * State)
    (fuel : nat) (clock : timespec) (nowP : option timespec)
    (s s' : State) (calls : list call) :
  procs_keep_state procs -> procs_keep_now procs ->
  well_formed s -> Sorted ts_le (expiries s) ->
  tmr_run procs fuel clock nowP s = Ok (s', calls) ->
  (forall a, a ∈ map call_timer calls <-> a ∈ due_timers s (getnow clock nowP)) /\
  (forall c, c ∈ calls -> c = call_of (heap s) (getnow clock nowP) (call_timer c)) /\
  (forall a, a ∈ free_list s -> a ∉ map call_timer calls) /\
  well_formed s' /\ Sorted ts_le (expiries s') /\
  active_list s' ++ free_list s' ≡ₚ active_list s ++ free_list s /\
  (forall a, is_Some (heap s' !! a) <-> is_Some (heap s !! a)).
Proof.
  intros Hprocs Hkeepnow Hwf Hs Hrun. unfold well_formed in Hwf.
  apply sorted_expiries in Hs. unfold tmr_run in Hrun.
  destruct (tmr_run_loop_general procs Hprocs Hkeepnow (getnow clock nowP) fuel (timers s) s []
              [] (active_list s) (free_list s) s' calls Hwf Hs
              (wf_timers _ _ _ Hwf) Hrun)
    as (la' & lf' & fired & Hf & Hwf' & Hs' & Hperm & Hdom & Hfired & Hall).
  simpl in Hf, Hperm, Hfired. subst fired.
  assert (Hiff : forall a, a ∈ map call_timer calls <->
                   a ∈ due_timers s (getnow clock nowP)).
  { intros a. unfold due_timers. rewrite (due_prefix_elem _ _ _ _ Hs). split.
    - intros Ha. apply list_elem_of_In, in_map_iff in Ha as (c & <- & Hc).
      apply list_elem_of_In in Hc. destruct (Hfired c Hc) as (? & ? & _). done.
    - intros [Ha Hdue]. by apply Hall. }
  split; [done|]. split; [intros c Hc; by apply Hfired|]. split.
  - intros a Ha Hc. apply Hiff in Hc. unfold due_timers in Hc.
    apply (due_prefix_elem _ _ _ _ Hs) in Hc as [Hc _].
    by apply (wf_not_free _ _ _ _ Hwf Hc).
  - split; [by eapply wf_well_formed|].
    split; [apply sorted_expiries; by rewrite (wf_active_list _ _ _ Hwf')|].
    split; [|done].
    by rewrite (wf_active_list _ _ _ Hwf'), (wf_free_list _ _ _ Hwf').
Qed.

Lemma tmr_run_fires_exactly_due_witness :
  procs_keep_state no_procs /\ procs_keep_now no_procs /\
  well_formed ex_late /\ Sorted ts_le (expiries ex_late) /\
  exists s' calls,
    tmr_run no_procs 10 (mk_timespec 150 0) None ex_late = Ok (s', calls) /\
    (forall a, a ∈ map call_timer calls <->
       a ∈ due_timers ex_late (getnow (mk_timespec 150 0) None)) /\
    (forall c, c ∈ calls ->
       c = call_of (heap ex_late) (getnow (mk_timespec 150 0) None) (call_timer c)) /\
    (forall a, a ∈ free_list ex_late -> a ∉ map call_timer calls) /\
    well_formed s' /\ Sorted ts_le (expiries s') /\
    active_list s' ++ free_list s' ≡ₚ active_list ex_late ++ free_list ex_late /\
    (forall a, is_Some (heap s' !! a) <-> is_Some (heap ex_late !! a)).
Proof.
  assert (H1 : procs_keep_state no_procs) by (intros p d now s; reflexivity).
  assert (H2 : well_formed ex_late) by (apply well_formedb_sound; vm_compute; reflexivity).
  assert (H3 : Sorted ts_le (expiries ex_late))
    by (apply sortedb_sound; vm_compute; reflexivity).
  assert (H4 : exists s' calls,
            tmr_run no_procs 10 (mk_timespec 150 0) None ex_late = Ok (s', calls))
    by (eexists _, _; vm_compute; reflexivity).
  destruct H4 as (s' & calls & H4).
  assert (H0 : procs_keep_now no_procs) by (intros p d now s; reflexivity).
  split; [exact H1|]. split; [exact H0|]. split; [exact H2|]. split; [exact H3|].
  exists s', calls. split; [exact H4|].
  exact (tmr_run_fires_exactly_due no_procs 10 (mk_timespec 150 0) None ex_late s' calls
           H1 H0 H2 H3 H4).
Defined.

(** * The invariant of the whole interface *)

Section RunKeeps.
Variable procs : TimerProc -> TimerClientData -> timespec -> State -> timespec * State.
Hypothesis procs_frame : procs_keep_state procs.

(** A pass that returns keeps the lists well formed and sorted and the
    records on them, whatever the callbacks write to [now]. *)
Lemma tmr_run_loop_keeps fuel :
  forall now t s calls la lf s' calls',
  wf s la lf -> sorted (key (heap s)) la ->
  (forall a, t = Some a -> a ∈ la) ->
  tmr_run_loop procs fuel now t s calls = Ok (s', calls') ->
  exists la' lf',
    wf s' la' lf' /\ sorted (key (heap s')) la' /\
    la' ++ lf' ≡ₚ la ++ lf /\
    (forall a, is_Some (heap s' !! a) <-> is_Some (heap s !! a)).
Proof.
  induction fuel as [|fuel IH]; intros now t s calls la lf s' calls' Hwf Hs Ht Hrun.
  - destruct t; simpl in Hrun; [done|]. injection Hrun as <- <-.
    exists la, lf. split; [done|]. split; [done|]. split; [done|]. done.
  - destruct t as [a|]; simpl in Hrun.
    2:{ injection Hrun as <- <-. exists la, lf.
        split; [done|]. split; [done|]. split; [done|]. done. }
    pose proof (Ht a eq_refl) as Hin.
    apply list_elem_of_split in Hin as (l1 & l2 & ->).
    destruct (wf_mid s l1 a l2 lf Hwf) as (tm & Htm & _ & Hn & Htl & Htf & Hnd & _).
    assert (Hhead : forall b, head l2 = Some b -> b ∈ l1 ++ l2).
    { intros b Hb. apply elem_of_app; right. destruct l2; simplify_eq/=.
      by apply elem_of_cons; left. }
    destruct (ts_lt now (time tm)) eqn:Hdue.
    { rewrite (tmr_run_body_break procs now a s tm Htm Hdue) in Hrun.
      simpl in Hrun. injection Hrun as <- <-.
      exists (l1 ++ a :: l2), lf.
      split; [done|]. split; [done|]. split; [done|]. done. }
    destruct (Z.eq_dec (periodic tm) 0) as [Hper|Hper].
    + destruct (tmr_run_body_oneshot procs procs_frame now s l1 a l2 lf tm Hwf Htm Hdue Hper)
        as (s1 & Hbody & Hwf1 & _ & Hpay).
      rewrite Hbody in Hrun. simpl in Hrun.
      assert (Hs1 : sorted (key (heap s1)) (l1 ++ l2)).
      { apply (sorted_same_payload (heap s)); [done|]. by eapply sorted_remove. }
      destruct (IH _ _ _ _ _ _ _ _ Hwf1 Hs1 Hhead Hrun)
        as (la' & lf' & Hwf' & Hs' & Hperm & Hdom).
      exists la', lf'. split; [done|]. split; [done|].
      split; [rewrite Hperm; by rewrite <- !Permutation_middle|].
      intros b. rewrite Hdom. apply same_dom_payload, Hpay.
    + destruct (tmr_run_body_periodic procs procs_frame now s l1 a l2 lf tm Hwf Htm Hdue Hper)
        as (s1 & tm1 & Hbody & Hwf1 & Htm1 & Hp1 & Hother).
      rewrite Hbody in Hrun. simpl in Hrun.
      assert (Hs1 : sorted (key (heap s1)) (ins (key (heap s1)) a (l1 ++ l2))).
      { apply ins_sorted. apply (sorted_other (heap s) _ a); [done|done|].
        by eapply sorted_remove. }
      assert (Hnext : forall b, head l2 = Some b -> b ∈ ins (key (heap s1)) a (l1 ++ l2)).
      { intros b Hb. apply elem_of_ins. right. auto. }
      destruct (IH _ _ _ _ _ _ _ _ Hwf1 Hs1 Hnext Hrun)
        as (la' & lf' & Hwf' & Hs' & Hperm & Hdom).
      exists la', lf'. split; [done|]. split; [done|].
      split; [rewrite Hperm, ins_Permutation; by rewrite <- !Permutation_middle|].
      intros b. rewrite Hdom. destruct (decide (b = a)) as [->|Hne].
      * rewrite Htm, Htm1. split; by eexists.
      * by apply same_dom_payload, Hother.
Qed.
End RunKeeps.

Section ApiInvariant.
Variable procs : TimerProc -> TimerClientData -> timespec -> State -> timespec * State.
Hypothesis procs_frame : procs_keep_state procs.

Lemma api_reachable_inv s :
  api_reachable procs s ->
  exists la lf, wf s la lf /\ sorted (key (heap s)) la /\
    forall a, is_Some (heap s !! a) <-> a ∈ la ++ lf.
Proof.
  induction 1 as [|s m clock nowP proc data ns per r s' _ IH Hfresh Hrun
                  |s t s' _ IH Ht Hrun
                  |s clock nowP t s' _ IH Ht Hrun
                  |s fuel clock nowP s' calls _ IH Hrun
                  |s s' _ IH Hrun
                  |s s' _ IH Hrun].
  - exists [], []. split; [apply wf_init|]. split; [constructor|].
    intros a. simpl. rewrite lookup_empty. split; [by intros [? ?]|].
    intros Ha. by apply elem_of_nil in Ha.
  - destruct IH as (la & lf & Hwf & Hs & Hdom).
    destruct lf as [|t lf].
    + destruct m as [[a junk]|].
      * destruct (tmr_create_malloc_spec a junk clock nowP proc data ns per s la Hwf
                    (Hfresh a junk eq_refl)) as (s1 & Hrun1 & Hwf1 & (tm1 & Ha1 & _) & _ & Hother).
        rewrite Hrun1 in Hrun. injection Hrun as _ <-.
        assert (Hala : a ∉ la).
        { intros Ha. destruct (wf_allocated s la [] a Hwf) as [x Hx];
            [apply elem_of_app; by left|].
          rewrite (Hfresh a junk eq_refl) in Hx. done. }
        eexists _, _. split; [exact Hwf1|]. split.
        -- apply ins_sorted. by apply (sorted_other (heap s) _ a).
        -- intros b. rewrite app_nil_r, elem_of_ins.
           destruct (decide (b = a)) as [->|Hne].
           ++ rewrite Ha1. split; [by left|by eexists].
           ++ rewrite (same_dom_payload _ _ _ (Hother b Hne)), Hdom, app_nil_r.
              split; [by right|]. by intros [?|?].
      * rewrite tmr_create_fail_spec in Hrun by (by rewrite (wf_free_timers _ _ _ Hwf)).
        injection Hrun as _ <-. eauto.
    + destruct (tmr_create_reuse_spec m clock nowP proc data ns per s la t lf Hwf)
        as (s1 & Hrun1 & Hwf1 & (tm1 & Ht1 & _) & _ & Hother).
      rewrite Hrun1 in Hrun. injection Hrun as _ <-.
      assert (Htla : t ∉ la).
      { intros Ha. apply (wf_not_free _ _ _ _ Hwf Ha). by apply elem_of_cons; left. }
      eexists _, _. split; [exact Hwf1|]. split.
      * apply ins_sorted. by apply (sorted_other (heap s) _ t).
      * intros b. rewrite elem_of_app, elem_of_ins.
        destruct (decide (b = t)) as [->|Hne].
        -- rewrite Ht1. split; [by left; left|by eexists].
        -- rewrite (same_dom_payload _ _ _ (Hother b Hne)), Hdom,
             elem_of_app, elem_of_cons. tauto.
  - destruct IH as (la & lf & Hwf & Hs & Hdom).
    rewrite (wf_active_list _ _ _ Hwf) in Ht.
    apply list_elem_of_split in Ht as (l1 & l2 & ->).
    destruct (tmr_cancel_spec s l1 t l2 lf Hwf) as (s1 & Hrun1 & Hwf1 & _ & _ & Hpay).
    rewrite Hrun1 in Hrun. injection Hrun as <-.
    eexists _, _. split; [exact Hwf1|]. split.
    + apply (sorted_same_payload (heap s)); [done|]. by eapply sorted_remove.
    + intros a. rewrite (same_dom_payload _ _ _ (Hpay a)), Hdom.
      rewrite !elem_of_app, !elem_of_cons. tauto.
  - destruct IH as (la & lf & Hwf & Hs & Hdom).
    rewrite (wf_active_list _ _ _ Hwf) in Ht.
    apply list_elem_of_split in Ht as (l1 & l2 & ->).
    destruct (wf_mid s l1 t l2 lf Hwf) as (tm0 & Ht0 & _ & _ & Htl & _).
    destruct (tmr_reset_spec clock nowP s l1 t l2 lf Hwf)
      as (s1 & tm & Hrun1 & Hwf1 & _ & _ & Hother).
    rewrite Hrun1 in Hrun. injection Hrun as <-.
    eexists _, _. split; [exact Hwf1|]. split.
    + apply ins_sorted. apply (sorted_other (heap s) _ t); [done|done|].
      by eapply sorted_remove.
    + intros a. rewrite elem_of_app, elem_of_ins.
      destruct (decide (a = t)) as [->|Hne].
      * split; [by left; left|]. intros _.
        apply (wf_allocated s1 _ _ t Hwf1). apply elem_of_app; left.
        apply elem_of_ins. by left.
      * rewrite (same_dom_payload _ _ _ (Hother a Hne)), Hdom.
        rewrite !elem_of_app, !elem_of_cons. tauto.
  - destruct IH as (la & lf & Hwf & Hs & Hdom).
    unfold tmr_run in Hrun.
    destruct (tmr_run_loop_keeps procs procs_frame fuel (getnow clock nowP) (timers s) s []
                la lf s' calls Hwf Hs) as (la' & lf' & Hwf' & Hs' & Hperm & Hdom');
      [intros a Ha; by eapply wf_head|exact Hrun|].
    exists la', lf'. split; [done|]. split; [done|].
    intros a. rewrite Hdom', Hdom. by rewrite Hperm.
  - destruct IH as (la & lf & Hwf & Hs & Hdom).
    destruct (tmr_cleanup_spec s la lf Hwf) as (s1 & Hrun1 & Hwf1 & _ & _ & Hframe & Hgone).
    rewrite Hrun1 in Hrun. injection Hrun as <-.
    exists la, []. split; [done|]. split.
    + apply (sorted_ext (key (heap s))); [|done].
      intros a Ha. unfold key. rewrite Hframe; [done|]. by eapply wf_not_free.
    + intros a. rewrite app_nil_r.
      destruct (decide (a ∈ lf)) as [Ha|Ha].
      * rewrite (Hgone a Ha). split; [by intros [? ?]|].
        intros Hla. by destruct (wf_not_free _ _ _ _ Hwf Hla).
      * rewrite (Hframe a Ha), Hdom, elem_of_app. tauto.
  - destruct IH as (la & lf & Hwf & Hs & Hdom).
    destruct (tmr_destroy_spec s la lf Hwf) as (s1 & Hrun1 & Hwf1 & _ & _ & Hgone & Hframe).
    rewrite Hrun1 in Hrun. injection Hrun as <-.
    exists [], []. split; [done|]. split; [constructor|].
    intros a. simpl. split; [|intros Ha; by apply elem_of_nil in Ha].
    intros Ha. destruct (decide (a ∈ la ++ lf)) as [Hin|Hin].
    + rewrite (Hgone a Hin) in Ha. by destruct Ha.
    + rewrite (Hframe a Hin) in Ha. by apply Hdom in Ha.
Qed.
End ApiInvariant.

(** X6.  With callbacks that leave the module alone, every state that the
    public functions tmr_create, tmr_cancel, tmr_reset, tmr_run (when it
    returns), tmr_cleanup and tmr_destroy lead to from the empty state is
    well formed, has its active list sorted by expiry, and has every
    allocated record on exactly one of the two lists: no record is lost and
    none is on both. *)
Theorem api_invariant
    (procs : TimerProc -> TimerClientData -> timespec -> State -> timespec * State) (s : State) :
  procs_keep_state procs -> api_reachable procs s ->
  well_formed s /\ Sorted ts_le (expiries s) /\ allocated_in_lists s /\
  NoDup (active_list s ++ free_list s).
Proof.
  intros Hprocs Hr.
  destruct (api_reachable_inv procs Hprocs s Hr) as (la & lf & Hwf & Hs & Hdom).
  split; [by eapply wf_well_formed|].
  unfold allocated_in_lists.
  rewrite (wf_active_list _ _ _ Hwf), (wf_free_list _ _ _ Hwf).
  split; [apply sorted_map; unfold expiries; by rewrite (wf_active_list _ _ _ Hwf)|].
  split; [done|]. apply Hwf.
Qed.

(** A state reached through all six state-changing functions. *)
Lemma ex_api_reachable :
  exists s, api_reachable no_procs s /\
    active_list s = [1%positive; 3%positive] /\ free_list s = [].
Proof.
  eexists. split.
  - eapply (api_reset no_procs _ (mk_timespec 30 0) None 1%positive).
    + eapply (api_create no_procs _ (Some (3%positive, ex_junk)) (mk_timespec 100 0) None
                15 105 5000000000 0).
      * eapply (api_cleanup no_procs).
        -- eapply (api_cancel no_procs _ 2%positive).
           ++ eapply (api_run no_procs _ 10%nat (mk_timespec 65 0) None).
              ** eapply (api_create no_procs _ (Some (2%positive, ex_junk))
                           (mk_timespec 0 0) None 12 102 70000000000 0).
                 --- eapply (api_create no_procs _ (Some (1%positive, ex_junk))
                               (mk_timespec 0 0) None 11 101 60000000000 1).
                     +++ eapply (api_destroy no_procs).
                         *** eapply (api_create no_procs init_state
                                       (Some (9%positive, ex_junk))
                                       (mk_timespec 0 0) None 19 109 1 0).
                             ---- apply api_init.
                             ---- intros a junk _. apply lookup_empty.
                             ---- vm_compute. reflexivity.
                         *** vm_compute. reflexivity.
                     +++ intros a junk [= <- _]. vm_compute. reflexivity.
                     +++ vm_compute. reflexivity.
                 --- intros a junk [= <- _]. vm_compute. reflexivity.
                 --- vm_compute. reflexivity.
              ** vm_compute. reflexivity.
           ++ vm_compute. apply elem_of_cons; by left.
           ++ vm_compute. reflexivity.
        -- vm_compute. reflexivity.
      * intros a junk [= <- _]. vm_compute. reflexivity.
      * vm_compute. reflexivity.
    + vm_compute. apply elem_of_cons; right. apply elem_of_cons; by left.
    + vm_compute. reflexivity.
  - split; vm_compute; reflexivity.
Qed.

Lemma api_invariant_witness :
  procs_keep_state no_procs /\
  exists s, api_reachable no_procs s /\ active_list s = [1%positive; 3%positive] /\
    well_formed s /\ Sorted ts_le (expiries s) /\ allocated_in_lists s /\
    NoDup (active_list s ++ free_list s).
Proof.
  assert (H : procs_keep_state no_procs) by (intros p d now s; reflexivity).
  split; [exact H|].
  destruct ex_api_reachable as (s & Hr & Hla & _).
  exists s. split; [exact Hr|]. split; [exact Hla|].
  exact (api_invariant no_procs s H Hr).
Defined.

(** * add_nsecs with a duration that is not negative *)

Lemma add_nsecs_nsec_normalised t ns :
  normalised t -> 0 <= ns -> normalised (add_nsecs t ns).
Proof.
  unfold normalised. intros Hn Hns.
  pose proof (rem_nsec_nonneg ns Hns) as Hr.
  unfold add_nsecs, add64.
  rewrite (wrap64_id (tv_nsec t + _)) by (unfold int64, NSEC_PER_SEC in *; lia).
  set (n1 := tv_nsec t + Z.rem ns NSEC_PER_SEC) in *.
  destruct (Z.leb_spec NSEC_PER_SEC n1) as [Hge|Hlt]; simpl; [|lia].
  apply rem_nsec_nonneg. unfold NSEC_PER_SEC in *. lia.
Qed.

Lemma add_nsecs_later t ns :
  normalised t -> 0 <= ns ->
  - 2 ^ 63 <= tv_sec t + Z.quot ns NSEC_PER_SEC < 2 ^ 63 - 1 ->
  tv_sec t <= tv_sec (add_nsecs t ns) /\ ts_le t (add_nsecs t ns) /\
  (0 < ns -> ts_lt t (add_nsecs t ns) = true).
Proof.
  intros Hn Hns Hfit.
  pose proof (add_nsecs_nsec_normalised t ns Hn Hns) as Hn'.
  destruct (add_nsecs_exact t ns Hn Hfit) as (He & _ & _).
  unfold normalised, ts_to_ns, NSEC_PER_SEC in *.
  assert (Hsec : tv_sec t <= tv_sec (add_nsecs t ns)) by lia.
  split; [done|]. split.
  - unfold ts_le. lia.
  - intros Hpos. apply ts_lt_true. lia.
Qed.

(** X9.  add_nsecs of a duration that is not negative keeps the nanoseconds
    of a normalised timestamp in [0, 1e9) whatever happens to the seconds;
    and when the seconds stay within the 64-bit range the result is not
    earlier than the input, and strictly later for a positive duration. *)
Theorem add_nsecs_forward (t : timespec) (ns : Z) :
  normalised t -> 0 <= ns ->
  normalised (add_nsecs t ns) /\
  (- 2 ^ 63 <= tv_sec t + Z.quot ns NSEC_PER_SEC < 2 ^ 63 - 1 ->
   ts_le t (add_nsecs t ns) /\ (0 < ns -> ts_lt t (add_nsecs t ns) = true)).
Proof.
  intros Hn Hns. split; [by apply add_nsecs_nsec_normalised|].
  intros Hfit. by destruct (add_nsecs_later t ns Hn Hns Hfit) as (_ & ? & ?).
Qed.

Lemma add_nsecs_forward_witness :
  normalised (mk_timespec (2 ^ 63 - 1) 999999999) /\ 0 <= 3000000001 /\
  normalised (add_nsecs (mk_timespec (2 ^ 63 - 1) 999999999) 3000000001) /\
  (- 2 ^ 63 <= tv_sec (mk_timespec (2 ^ 63 - 1) 999999999)
               + Z.quot 3000000001 NSEC_PER_SEC < 2 ^ 63 - 1 ->
   ts_le (mk_timespec (2 ^ 63 - 1) 999999999)
     (add_nsecs (mk_timespec (2 ^ 63 - 1) 999999999) 3000000001) /\
   (0 < 3000000001 ->
    ts_lt (mk_timespec (2 ^ 63 - 1) 999999999)
      (add_nsecs (mk_timespec (2 ^ 63 - 1) 999999999) 3000000001) = true)).
Proof.
  assert (H1 : normalised (mk_timespec (2 ^ 63 - 1) 999999999))
    by (unfold normalised, NSEC_PER_SEC; simpl; lia).
  assert (H2 : 0 <= 3000000001) by lia.
  split; [exact H1|]. split; [exact H2|].
  exact (add_nsecs_forward (mk_timespec (2 ^ 63 - 1) 999999999) 3000000001 H1 H2).
Defined.

(** * tmr_run returns *)

Lemma lag_app_cons h now l1 a l2 :
  lag h now (l1 ++ a :: l2) = (lag_of now (key h a) + lag h now (l1 ++ l2))%nat.
Proof.
  unfold lag. rewrite !sum_list_with_app. simpl. lia.
Qed.

Lemma lag_ins h now k a l :
  lag h now (ins k a l) = (lag_of now (key h a) + lag h now l)%nat.
Proof.
  destruct (ins_split_any k a l) as (l1 & l2 & -> & ->). apply lag_app_cons.
Qed.

Lemma lag_ext h h' now l :
  (forall a, a ∈ l -> key h' a = key h a) -> lag h' now l = lag h now l.
Proof.
  unfold lag. induction l as [|b l IH]; intros H; [done|]. simpl.
  rewrite H by (by apply elem_of_cons; left).
  rewrite IH; [done|]. intros a Ha. apply H. by apply elem_of_cons; right.
Qed.

Lemma due_lag now t :
  normalised now -> normalised t -> ts_lt now t = false -> (1 <= lag_of now t)%nat.
Proof.
  intros Hn Ht Hdue. apply ts_lt_false in Hdue.
  apply (ts_le_to_ns t now Ht Hn) in Hdue. unfold lag_of. lia.
Qed.

Lemma steady_fired now tm :
  normalised now -> steady now tm -> ts_lt now (time tm) = false -> periodic tm <> 0 ->
  normalised (add_nsecs (time tm) (nsecs tm)) /\
  - 2 ^ 63 <= tv_sec (add_nsecs (time tm) (nsecs tm)) /\
  (lag_of now (add_nsecs (time tm) (nsecs tm)) < lag_of now (time tm))%nat.
Proof.
  intros Hn (Ht & Hlo & Hper) Hdue Hp. destruct (Hper Hp) as [Hpos Hhi].
  pose proof (due_lag now (time tm) Hn Ht Hdue) as Hlag.
  apply ts_lt_false in Hdue.
  assert (Hsec : tv_sec (time tm) <= tv_sec now) by (unfold ts_le in Hdue; lia).
  pose proof (quot_nsec_nonneg (nsecs tm) ltac:(lia)) as Hq.
  assert (Hfit : - 2 ^ 63 <= tv_sec (time tm) + Z.quot (nsecs tm) NSEC_PER_SEC < 2 ^ 63 - 1)
    by lia.
  destruct (add_nsecs_later (time tm) (nsecs tm) Ht ltac:(lia) Hfit) as (Hs & _ & _).
  destruct (add_nsecs_exact (time tm) (nsecs tm) Ht Hfit) as (He & _ & _).
  split; [apply add_nsecs_nsec_normalised; [done|lia]|]. split; [lia|].
  unfold lag_of in *. rewrite He. lia.
Qed.

Section RunReturns.
Variable procs : TimerProc -> TimerClientData -> timespec -> State -> timespec * State.
Hypothesis procs_frame : procs_keep_state procs.
Hypothesis procs_now : procs_keep_now procs.
Variable now : timespec.
Hypothesis now_normalised : normalised now.

Lemma tmr_run_loop_returns n :
  forall t s calls la lf,
  wf s la lf -> (forall a, t = Some a -> a ∈ la) ->
  (forall a tm, a ∈ la -> heap s !! a = Some tm -> steady now tm) ->
  (lag (heap s) now la <= n)%nat ->
  exists s' fired,
    tmr_run_loop procs (S n) now t s calls = Ok (s', calls ++ fired) /\
    (length fired <= n)%nat.
Proof.
  induction n as [|n IH]; intros t s calls la lf Hwf Ht Hst Hlag.
  - destruct t as [a|].
    2:{ exists s, []. rewrite app_nil_r. by split. }
    pose proof (Ht a eq_refl) as Hin.
    apply list_elem_of_split in Hin as (l1 & l2 & ->).
    destruct (wf_mid s l1 a l2 lf Hwf) as (tm & Htm & _).
    destruct (ts_lt now (time tm)) eqn:Hdue.
    + exists s, []. rewrite app_nil_r. simpl.
      by rewrite (tmr_run_body_break procs now a s tm Htm Hdue).
    + exfalso. rewrite lag_app_cons, (key_lookup _ _ _ Htm) in Hlag.
      destruct (Hst a tm ltac:(apply elem_of_app; right; by apply elem_of_cons; left) Htm)
        as (Hn & _).
      pose proof (due_lag now (time tm) now_normalised Hn Hdue). lia.
  - destruct t as [a|].
    2:{ exists s, []. rewrite app_nil_r. split; [done|simpl; lia]. }
    pose proof (Ht a eq_refl) as Hin.
    apply list_elem_of_split in Hin as (l1 & l2 & ->).
    destruct (wf_mid s l1 a l2 lf Hwf) as (tm & Htm & _ & Hn & Htl & _).
    assert (Hsta : steady now tm).
    { apply (Hst a); [|done]. apply elem_of_app; right. by apply elem_of_cons; left. }
    assert (Hhead : forall b, head l2 = Some b -> b ∈ l1 ++ l2).
    { intros b Hb. apply elem_of_app; right. destruct l2; simplify_eq/=.
      by apply elem_of_cons; left. }
    change (tmr_run_loop procs (S (S n)) now (Some a) s calls) with
      (r0 <- tmr_run_body procs now a s;
       match r0 with
       | (None, s') => Ok (s', calls)
       | (Some (nxt, c, now1), s') => tmr_run_loop procs (S n) now1 nxt s' (calls ++ [c])
       end).
    destruct (ts_lt now (time tm)) eqn:Hdue.
    { exists s, []. rewrite app_nil_r.
      rewrite (tmr_run_body_break procs now a s tm Htm Hdue). split; [done|simpl; lia]. }
    rewrite lag_app_cons, (key_lookup _ _ _ Htm) in Hlag.
    pose proof (due_lag now (time tm) now_normalised (proj1 Hsta) Hdue) as Hlag_a.
    destruct (Z.eq_dec (periodic tm) 0) as [Hper|Hper].
    + destruct (tmr_run_body_oneshot procs procs_frame now s l1 a l2 lf tm Hwf Htm Hdue Hper)
        as (s1 & Hbody & Hwf1 & _ & Hpay).
      rewrite Hbody, procs_now. cbn [res_bind].
      destruct (IH (head l2) s1 (calls ++ [mk_call a (timer_proc tm) (client_data tm) now])
                  _ _ Hwf1 Hhead) as (s' & fired & Hrun & Hlen).
      * intros b tmb Hb Htmb.
        destruct (same_payload_lookup _ _ _ _ (fun x => eq_sym (Hpay x)) Htmb)
          as (tmb0 & Hb0 & Hp0).
        assert (Hsb : steady now tmb0).
        { apply (Hst b); [|done].
          apply elem_of_app in Hb as [Hb|Hb]; apply elem_of_app; [by left|].
          right. by apply elem_of_cons; right. }
        unfold payload in Hp0. injection Hp0 as _ _ Hq3 Hq4 Hq5.
        unfold steady in *. by rewrite <- Hq3, <- Hq4, <- Hq5.
      * rewrite (lag_ext (heap s)); [lia|].
        intros b _. by rewrite (same_payload_key _ _ _ Hpay).
      * exists s', (mk_call a (timer_proc tm) (client_data tm) now :: fired).
        split; [by rewrite Hrun, <- app_assoc|]. simpl. lia.
    + destruct (tmr_run_body_periodic procs procs_frame now s l1 a l2 lf tm Hwf Htm Hdue Hper)
        as (s1 & tm1 & Hbody & Hwf1 & Htm1 & Hp1 & Hother).
      rewrite Hbody, procs_now. cbn [res_bind].
      destruct (steady_fired now tm now_normalised Hsta Hdue Hper) as (Hn1 & Hlo1 & Hlag1).
      unfold payload in Hp1. injection Hp1 as _ _ Hq3 Hq4 Hq5.
      destruct (IH (head l2) s1 (calls ++ [mk_call a (timer_proc tm) (client_data tm) now])
                  _ _ Hwf1) as (s' & fired & Hrun & Hlen).
      * intros b Hb. apply elem_of_ins. right. auto.
      * intros b tmb Hb Htmb. apply elem_of_ins in Hb.
        destruct (decide (b = a)) as [->|Hne].
        -- assert (tmb = tm1) by congruence. subst tmb.
           unfold steady. rewrite Hq3, Hq4, Hq5.
           split; [done|]. split; [done|]. apply Hsta.
        -- destruct Hb as [Hb|Hb]; [done|].
           pose proof (Hother b Hne) as Hb1. rewrite Htmb in Hb1.
           destruct (heap s !! b) as [tmb0|] eqn:Hb0; simpl in Hb1; [|done].
           apply (inj Some) in Hb1.
           assert (Hsb : steady now tmb0).
           { apply (Hst b); [|done].
             apply elem_of_app in Hb as [Hb|Hb]; apply elem_of_app; [by left|].
             right. by apply elem_of_cons; right. }
           unfold payload in Hb1. injection Hb1 as _ _ Hr3 Hr4 Hr5.
           unfold steady in *. by rewrite Hr3, Hr4, Hr5.
      * rewrite lag_ins, (key_lookup _ _ _ Htm1), Hq5.
        rewrite (lag_ext (heap s)); [lia|].
        intros b Hb. apply (key_other _ _ a); [done|]. by intros ->.
      * exists s', (mk_call a (timer_proc tm) (client_data tm) now :: fired).
        split; [by rewrite Hrun, <- app_assoc|]. simpl. lia.
Qed.
End RunReturns.

(** X5.  tmr_run returns, with callbacks that leave the state of the module
    alone and do not write to the [now] that they are handed, whenever the
    current time and the expiries of the active timers are normalised, no
    expiry has its seconds below -2^63, and every periodic active timer has
    a positive interval whose whole seconds, added to the seconds of the
    current time, stay below 2^63 - 1: the loop takes at most as many turns
    as the due timers are behind the current time, counted in nanoseconds
    and one more for each. *)
Theorem tmr_run_returns
    (procs : TimerProc -> TimerClientData -> timespec -> State -> timespec * State)
    (clock : timespec) (nowP : option timespec) (s : State) :
  procs_keep_state procs -> procs_keep_now procs ->
  well_formed s -> steady_state s (getnow clock nowP) ->
  exists s' calls,
    tmr_run procs (S (lag (heap s) (getnow clock nowP) (active_list s))) clock nowP s =
      Ok (s', calls) /\
    (length calls <= lag (heap s) (getnow clock nowP) (active_list s))%nat.
Proof.
  intros Hprocs Hkeepnow Hwf [Hnow Hst]. unfold well_formed in Hwf. unfold tmr_run.
  destruct (tmr_run_loop_returns procs Hprocs Hkeepnow (getnow clock nowP) Hnow
              (lag (heap s) (getnow clock nowP) (active_list s)) (timers s) s []
              _ _ Hwf) as (s' & fired & Hrun & Hlen); [| |done|].
  - intros a Ha. by eapply wf_head.
  - done.
  - exists s', fired. by split.
Qed.

Lemma ex_late_steady : steady_state ex_late (mk_timespec 150 0).
Proof.
  split; [unfold normalised, NSEC_PER_SEC; simpl; lia|].
  intros a tm Ha Htm.
  assert (Hl : active_list ex_late = [1%positive; 2%positive; 3%positive])
    by (vm_compute; reflexivity).
  rewrite Hl in Ha.
  repeat (apply elem_of_cons in Ha as [->|Ha]);
    [| | |by apply elem_of_nil in Ha];
    vm_compute in Htm; injection Htm as <-;
    unfold steady, normalised, NSEC_PER_SEC; simpl;
    (split; [lia|]); (split; [lia|]); intros _; (split; [lia|]);
    vm_compute; reflexivity.
Qed.

Lemma tmr_run_returns_witness :
  procs_keep_state no_procs /\ procs_keep_now no_procs /\ well_formed ex_late /\
  steady_state ex_late (getnow (mk_timespec 150 0) None) /\
  exists s' calls,
    tmr_run no_procs
      (S (lag (heap ex_late) (getnow (mk_timespec 150 0) None) (active_list ex_late)))
      (mk_timespec 150 0) None ex_late = Ok (s', calls) /\
    (length calls <=
     lag (heap ex_late) (getnow (mk_timespec 150 0) None) (active_list ex_late))%nat.
Proof.
  assert (H1 : procs_keep_state no_procs) by (intros p d now s; reflexivity).
  assert (H2 : well_formed ex_late) by (apply well_formedb_sound; vm_compute; reflexivity).
  assert (H3 : steady_state ex_late (getnow (mk_timespec 150 0) None))
    by exact ex_late_steady.
  assert (H0 : procs_keep_now no_procs) by (intros p d now s; reflexivity).
  split; [exact H1|]. split; [exact H0|]. split; [exact H2|]. split; [exact H3|].
  exact (tmr_run_returns no_procs (mk_timespec 150 0) None ex_late H1 H0 H2 H3).
Defined.

(** * tmr_create and tmr_cancel together *)

(** X7.  tmr_cancel of the timer that tmr_create has just returned undoes
    the insertion: the active list has the head, the records and the order
    it had before tmr_create, every record of it has all its fields and
    links as before, and the new record is the head of the free list. *)
Theorem create_cancel_restores (m : option (addr * Timer)) (clock : timespec)
    (nowP : option timespec) (proc : TimerProc) (data : TimerClientData)
    (ns per : Z) (s : State) :
  well_formed s ->
  (forall a junk, m = Some (a, junk) -> heap s !! a = None) ->
  exists r s1,
    tmr_create m clock nowP proc data ns per s = Ok (r, s1) /\
    forall t, r = Some t ->
      exists s2,
        tmr_cancel t s1 = Ok s2 /\
        timers s2 = timers s /\ active_list s2 = active_list s /\
        (forall a, a ∈ active_list s -> heap s2 !! a = heap s !! a) /\
        free_timers s2 = Some t /\ well_formed s2.
Proof.
  intros Hwf Hfresh. unfold well_formed in Hwf.
  assert (Hback : forall t s1 lf1,
    wf s1 (ins (key (heap s1)) t (active_list s)) lf1 -> t ∉ active_list s ->
    (forall b, b <> t -> payload <$> (heap s1 !! b) = payload <$> (heap s !! b)) ->
    exists s2,
      tmr_cancel t s1 = Ok s2 /\
      timers s2 = timers s /\ active_list s2 = active_list s /\
      (forall a, a ∈ active_list s -> heap s2 !! a = heap s !! a) /\
      free_timers s2 = Some t /\ well_formed s2).
  { intros t s1 lf1 Hwf1 Ht Hother.
    destruct (ins_split_any (key (heap s1)) t (active_list s)) as (l1 & l2 & Hl & Hi).
    rewrite Hi in Hwf1.
    destruct (tmr_cancel_spec s1 l1 t l2 lf1 Hwf1) as (s2 & Hc & Hwf2 & Hfr & _ & Hpay).
    rewrite <- Hl in Hwf2.
    exists s2. split; [done|].
    split; [by rewrite (wf_timers _ _ _ Hwf2), (wf_timers _ _ _ Hwf)|].
    split; [by rewrite (wf_active_list _ _ _ Hwf2)|].
    split; [|split; [done|by eapply wf_well_formed]].
    intros a Ha. apply (wf_record_det s s2 _ _ _ a Hwf Hwf2 Ha).
    rewrite Hpay. apply Hother. by intros ->. }
  pose proof (wf_free_timers _ _ _ Hwf) as Hft.
  destruct (free_list s) as [|t lf] eqn:Hlf; simpl in Hft.
  - destruct m as [[a junk]|].
    + destruct (tmr_create_malloc_spec a junk clock nowP proc data ns per s _ Hwf
                  (Hfresh a junk eq_refl)) as (s1 & Hrun & Hwf1 & _ & _ & Hother).
      exists (Some a), s1. split; [done|]. intros t [= <-].
      apply (Hback a s1 [] Hwf1); [|done].
      intros Ha. destruct (wf_allocated s _ _ a Hwf) as [x Hx];
        [apply elem_of_app; by left|].
      rewrite (Hfresh a junk eq_refl) in Hx. done.
    + exists None, s. split; [by apply tmr_create_fail_spec|]. by intros t [=].
  - destruct (tmr_create_reuse_spec m clock nowP proc data ns per s _ t lf Hwf)
      as (s1 & Hrun & Hwf1 & _ & _ & Hother).
    exists (Some t), s1. split; [done|]. intros t' [= <-].
    apply (Hback t s1 lf Hwf1); [|done].
    intros Ha. apply (wf_not_free _ _ _ _ Hwf Ha). by apply elem_of_cons; left.
Qed.

Lemma create_cancel_restores_witness :
  well_formed ex_spec /\
  (forall a junk, (None : option (addr * Timer)) = Some (a, junk) ->
     heap ex_spec !! a = None) /\
  exists r s1,
    tmr_create None (mk_timespec 0 70000000) None 14 104 10000000 0 ex_spec = Ok (r, s1) /\
    forall t, r = Some t ->
      exists s2,
        tmr_cancel t s1 = Ok s2 /\
        timers s2 = timers ex_spec /\ active_list s2 = active_list ex_spec /\
        (forall a, a ∈ active_list ex_spec -> heap s2 !! a = heap ex_spec !! a) /\
        free_timers s2 = Some t /\ well_formed s2.
Proof.
  assert (H : well_formed ex_spec) by (apply well_formedb_sound; vm_compute; reflexivity).
  assert (H' : forall a junk, (None : option (addr * Timer)) = Some (a, junk) ->
                 heap ex_spec !! a = None) by (intros a junk Hm; discriminate Hm).
  split; [exact H|]. split; [exact H'|].
  exact (create_cancel_restores None (mk_timespec 0 70000000) None 14 104 10000000 0
           ex_spec H H').
Defined.

(** * tmr_create writes every field *)

Lemma wf_states_equal s1 s2 la lf :
  wf s1 la lf -> wf s2 la lf ->
  (forall a, a ∈ la -> payload <$> (heap s2 !! a) = payload <$> (heap s1 !! a)) ->
  (forall a, a ∉ la -> heap s2 !! a = heap s1 !! a) ->
  s2 = s1.
Proof.
  intros Hwf1 Hwf2 Hpay Hframe.
  pose proof (wf_timers _ _ _ Hwf1) as Ht1. pose proof (wf_timers _ _ _ Hwf2) as Ht2.
  pose proof (wf_free_timers _ _ _ Hwf1) as Hf1.
  pose proof (wf_free_timers _ _ _ Hwf2) as Hf2.
  assert (Hh : heap s2 = heap s1).
  { apply map_eq. intros a. destruct (decide (a ∈ la)) as [Ha|Ha]; [|auto].
    apply (wf_record_det s1 s2 _ _ _ a Hwf1 Hwf2 Ha). auto. }
  destruct s1, s2. simpl in *. congruence.
Qed.

(** X10.  What tmr_create returns and the state it leaves do not depend on
    the contents of the memory that malloc hands out: every field of the new
    record is written before it is read. *)
Theorem tmr_create_ignores_junk (a : addr) (junk1 junk2 : Timer) (clock : timespec)
    (nowP : option timespec) (proc : TimerProc) (data : TimerClientData)
    (ns per : Z) (s : State) :
  well_formed s -> heap s !! a = None ->
  tmr_create (Some (a, junk1)) clock nowP proc data ns per s =
  tmr_create (Some (a, junk2)) clock nowP proc data ns per s.
Proof.
  intros Hwf Hfresh. unfold well_formed in Hwf.
  pose proof (wf_free_timers _ _ _ Hwf) as Hft.
  destruct (free_list s) as [|t lf] eqn:Hlf; simpl in Hft.
  - destruct (tmr_create_malloc_spec a junk1 clock nowP proc data ns per s _ Hwf Hfresh)
      as (s1 & Hrun1 & Hwf1 & (tm1 & Ha1 & Hp1) & Hframe1 & Hother1).
    destruct (tmr_create_malloc_spec a junk2 clock nowP proc data ns per s _ Hwf Hfresh)
      as (s2 & Hrun2 & Hwf2 & (tm2 & Ha2 & Hp2) & Hframe2 & Hother2).
    rewrite Hrun1, Hrun2. f_equal. f_equal.
    assert (Hpay : forall b, payload <$> (heap s2 !! b) = payload <$> (heap s1 !! b)).
    { intros b. destruct (decide (b = a)) as [->|Hne].
      - rewrite Ha1, Ha2. simpl. by rewrite Hp1, Hp2.
      - by rewrite Hother1, Hother2. }
    assert (Hk : ins (key (heap s2)) a (active_list s) = ins (key (heap s1)) a (active_list s)).
    { apply ins_ext; [|intros b _]; exact (same_payload_key (heap s1) (heap s2) _ Hpay). }
    rewrite Hk in Hwf2. symmetry.
    apply (wf_states_equal _ _ _ _ Hwf1 Hwf2); [auto|].
    intros b Hb. rewrite Hframe1, Hframe2; [done| |];
      intros H; apply Hb; by apply elem_of_ins, elem_of_cons.
  - unfold tmr_create. by rewrite Hft.
Qed.

Lemma tmr_create_ignores_junk_witness :
  well_formed ex_late /\ heap ex_late !! 4%positive = None /\
  tmr_create (Some (4%positive, ex_junk)) (mk_timespec 0 0) None 14 104 65000000000 1 ex_late =
  tmr_create (Some (4%positive,
                    mk_Timer 99 99 99 99 (mk_timespec 9 9) (Some 1%positive) (Some 1%positive)))
    (mk_timespec 0 0) None 14 104 65000000000 1 ex_late.
Proof.
  assert (H : well_formed ex_late) by (apply well_formedb_sound; vm_compute; reflexivity).
  assert (H' : heap ex_late !! 4%positive = None) by (vm_compute; reflexivity).
  split; [exact H|]. split; [exact H'|].
  exact (tmr_create_ignores_junk 4%positive _ _ (mk_timespec 0 0) None 14 104 65000000000 1
           ex_late H H').
Defined.

(** X11.  Nor do they depend on what the record that tmr_create takes from
    the free list held before, apart from its link to the rest of the free
    list: the old callback, user data, interval, flag, expiry and prev link
    of a recycled record have no effect. *)
Theorem tmr_create_ignores_stale (t : addr) (tm stale : Timer)
    (m : option (addr * Timer)) (clock : timespec)
    (nowP : option timespec) (proc : TimerProc) (data : TimerClientData)
    (ns per : Z) (s : State) :
  well_formed s -> free_timers s = Some t -> heap s !! t = Some tm ->
  next stale = next tm ->
  exists s',
    tmr_create m clock nowP proc data ns per s = Ok (Some t, s') /\
    tmr_create m clock nowP proc data ns per (with_heap (<[t := stale]> (heap s)) s) =
      Ok (Some t, s').
Proof.
  intros Hwf Hft Htm Hnext. unfold well_formed in Hwf.
  pose proof (wf_free_timers _ _ _ Hwf) as Hft'.
  destruct (free_list s) as [|t' lf] eqn:Hlf; simpl in Hft'; [congruence|].
  assert (t' = t) by congruence. subst t'.
  assert (Htla : t ∉ active_list s).
  { intros Ha. apply (wf_not_free _ _ _ _ Hwf Ha). by apply elem_of_cons; left. }
  set (s0 := with_heap (<[t := stale]> (heap s)) s).
  assert (Hwf0 : wf s0 (active_list s) (t :: lf)).
  { destruct Hwf as [Ha Hf Hnd]. split; [| |done].
    - unfold s0; cbn [with_heap heap timers]. by apply dseg_insert_notin.
    - unfold s0; cbn [with_heap heap free_timers]. eapply slist_ext; [|exact Hf].
      intros b _. destruct (decide (t = b)) as [->|Hne].
      + rewrite lookup_insert_eq, Htm. simpl. by rewrite Hnext.
      + by rewrite lookup_insert_ne. }
  destruct (tmr_create_reuse_spec m clock nowP proc data ns per s _ t lf Hwf)
    as (s1 & Hrun1 & Hwf1 & (tm1 & Ha1 & Hp1) & Hframe1 & Hother1).
  destruct (tmr_create_reuse_spec m clock nowP proc data ns per s0 _ t lf Hwf0)
    as (s2 & Hrun2 & Hwf2 & (tm2 & Ha2 & Hp2) & Hframe2 & Hother2).
  exists s1. split; [done|]. rewrite Hrun2. f_equal. f_equal.
  assert (Hpay : forall b, payload <$> (heap s2 !! b) = payload <$> (heap s1 !! b)).
  { intros b. destruct (decide (b = t)) as [->|Hne].
    - rewrite Ha1, Ha2. simpl. by rewrite Hp1, Hp2.
    - rewrite Hother1, Hother2 by done. simpl. by rewrite lookup_insert_ne. }
  assert (Hk : ins (key (heap s2)) t (active_list s) = ins (key (heap s1)) t (active_list s)).
  { apply ins_ext; [|intros b _]; exact (same_payload_key (heap s1) (heap s2) _ Hpay). }
  rewrite Hk in Hwf2.
  apply (wf_states_equal _ _ _ _ Hwf1 Hwf2); [auto|].
  intros b Hb. rewrite Hframe1, Hframe2.
  - simpl. rewrite lookup_insert_ne; [done|]. intros ->. apply Hb, elem_of_ins. by left.
  - intros H; apply Hb; by apply elem_of_ins, elem_of_cons.
  - intros H; apply Hb; by apply elem_of_ins, elem_of_cons.
Qed.

Lemma tmr_create_ignores_stale_witness :
  well_formed ex_spec /\ free_timers ex_spec = Some 3%positive /\
  heap ex_spec !! 3%positive = Some (mk_Timer 13 103 7 0 (mk_timespec 0 7) None None) /\
  next (mk_Timer 99 99 99 1 (mk_timespec 9 9) (Some 1%positive) None) =
    next (mk_Timer 13 103 7 0 (mk_timespec 0 7) None None) /\
  exists s',
    tmr_create None (mk_timespec 0 0) None 14 104 75000000 0 ex_spec =
      Ok (Some 3%positive, s') /\
    tmr_create None (mk_timespec 0 0) None 14 104 75000000 0
      (with_heap (<[3%positive := mk_Timer 99 99 99 1 (mk_timespec 9 9) (Some 1%positive) None]>
                    (heap ex_spec)) ex_spec) =
      Ok (Some 3%positive, s').
Proof.
  assert (H1 : well_formed ex_spec) by (apply well_formedb_sound; vm_compute; reflexivity).
  assert (H2 : free_timers ex_spec = Some 3%positive) by reflexivity.
  assert (H3 : heap ex_spec !! 3%positive =
                 Some (mk_Timer 13 103 7 0 (mk_timespec 0 7) None None))
    by (vm_compute; reflexivity).
  assert (H4 : next (mk_Timer 99 99 99 1 (mk_timespec 9 9) (Some 1%positive) None) =
               next (mk_Timer 13 103 7 0 (mk_timespec 0 7) None None)) by reflexivity.
  split; [exact H1|]. split; [exact H2|]. split; [exact H3|]. split; [exact H4|].
  exact (tmr_create_ignores_stale 3%positive _ _ None (mk_timespec 0 0) None
           14 104 75000000 0 ex_spec H1 H2 H3 H4).
Defined.

(** * tmr_timeout and tmr_run agree *)

Lemma tmr_timeout_head clock nowP s la lf hd th :
  wf s la lf -> head la = Some hd -> heap s !! hd = Some th ->
  timeout_fits (time th) (getnow clock nowP) ->
  exists d, tmr_timeout clock nowP s = Ok (Some d) /\
    ts_to_ns d = Z.max 0 (ts_to_ns (time th) - ts_to_ns (getnow clock nowP)).
Proof.
  intros Hwf Hhd Hth Hfit. unfold tmr_timeout.
  rewrite (wf_timers _ _ _ Hwf), Hhd, (load_ok _ _ _ Hth). simpl.
  rewrite (timeout_ns_exact _ _ Hfit).
  set (raw := ts_to_ns (time th) - ts_to_ns (getnow clock nowP)).
  assert (Hclamp : (if raw <=? 0 then 0 else raw) = Z.max 0 raw).
  { destruct (Z.leb_spec raw 0); lia. }
  rewrite Hclamp. eexists. split; [done|].
  pose proof (quot_rem_nsec (Z.max 0 raw)) as Hqr.
  unfold ts_to_ns at 1. simpl. lia.
Qed.

Lemma tmr_run_loop_prefix procs fuel :
  forall now t s calls s' calls',
  tmr_run_loop procs fuel now t s calls = Ok (s', calls') ->
  exists fired, calls' = calls ++ fired.
Proof.
  induction fuel as [|fuel IH]; intros now t s calls s' calls' Hrun.
  - destruct t; simpl in Hrun; [done|]. injection Hrun as _ <-.
    exists []. by rewrite app_nil_r.
  - destruct t as [a|]; simpl in Hrun.
    2:{ injection Hrun as _ <-. exists []. by rewrite app_nil_r. }
    destruct (tmr_run_body procs now a s) as [[[[[nxt c] now1]|] s1]| |];
      simpl in Hrun; try done.
    + destruct (IH _ _ _ _ _ _ Hrun) as (fired & ->).
      exists (c :: fired). by rewrite <- app_assoc.
    + injection Hrun as _ <-. exists []. by rewrite app_nil_r.
Qed.

(** X8.  For a well-formed state whose earliest timer and current time are
    normalised and close enough for the difference to fit in 64 bits, the
    answer of tmr_timeout tells what tmr_run does at the same time: it is
    zero exactly when the earliest timer is due; when it is positive tmr_run
    calls nothing and leaves the state as it is; when it is zero the first
    call of tmr_run is the callback of the earliest timer. *)
Theorem tmr_timeout_agrees_with_run
    (procs : TimerProc -> TimerClientData -> timespec -> State -> timespec * State)
    (clock : timespec) (nowP : option timespec) (s : State) (hd : addr) :
  well_formed s -> head (active_list s) = Some hd ->
  normalised (key (heap s) hd) -> normalised (getnow clock nowP) ->
  timeout_fits (key (heap s) hd) (getnow clock nowP) ->
  exists d,
    tmr_timeout clock nowP s = Ok (Some d) /\
    (ts_to_ns d = 0 <-> ts_lt (getnow clock nowP) (key (heap s) hd) = false) /\
    (0 < ts_to_ns d ->
     forall fuel, tmr_run procs (S fuel) clock nowP s = Ok (s, [])) /\
    (ts_to_ns d = 0 ->
     forall fuel s' calls, tmr_run procs fuel clock nowP s = Ok (s', calls) ->
       head calls = Some (call_of (heap s) (getnow clock nowP) hd)).
Proof.
  intros Hwf Hhd Hnk Hnn Hfit. unfold well_formed in Hwf.
  destruct (wf_allocated s _ _ hd Hwf) as [th Hth].
  { apply elem_of_app; left. destruct (active_list s); simplify_eq/=.
    by apply elem_of_cons; left. }
  rewrite (key_lookup _ _ _ Hth) in *.
  destruct (tmr_timeout_head clock nowP s _ _ hd th Hwf Hhd Hth Hfit) as (d & Hd & Hval).
  pose proof (ts_le_to_ns (time th) (getnow clock nowP) Hnk Hnn) as Hle.
  assert (Hzero : ts_to_ns d = 0 <-> ts_lt (getnow clock nowP) (time th) = false).
  { rewrite ts_lt_false, Hle, Hval. lia. }
  exists d. split; [done|]. split; [done|]. split.
  - intros Hpos fuel.
    assert (Hlt : ts_lt (getnow clock nowP) (time th) = true).
    { apply not_false_iff_true. intros E. apply Hzero in E. lia. }
    unfold tmr_run. rewrite (wf_timers _ _ _ Hwf), Hhd. simpl.
    by rewrite (tmr_run_body_break procs _ hd s th Hth Hlt).
  - intros Hz fuel s' calls Hrun. apply Hzero in Hz.
    unfold tmr_run in Hrun. rewrite (wf_timers _ _ _ Hwf), Hhd in Hrun.
    destruct fuel as [|fuel]; simpl in Hrun; [done|].
    unfold tmr_run_body in Hrun. rewrite (load_ok _ _ _ Hth) in Hrun.
    simpl in Hrun. rewrite Hz in Hrun.
    destruct (procs (timer_proc th) (client_data th) (getnow clock nowP) s) as [now1 s1].
    destruct (load hd _) as [tm1| |]; simpl in Hrun; try done.
    destruct (if negb (periodic tm1 =? 0) then _ else _) as [s2| |]; simpl in Hrun; try done.
    destruct (tmr_run_loop_prefix _ _ _ _ _ _ _ _ Hrun) as (fired & ->).
    unfold call_of. by rewrite Hth.
Qed.

Lemma tmr_timeout_agrees_with_run_witness :
  well_formed ex_spec /\ head (active_list ex_spec) = Some 2%positive /\
  normalised (key (heap ex_spec) 2%positive) /\
  normalised (getnow (mk_timespec 0 20000000) None) /\
  timeout_fits (key (heap ex_spec) 2%positive) (getnow (mk_timespec 0 20000000) None) /\
  exists d,
    tmr_timeout (mk_timespec 0 20000000) None ex_spec = Ok (Some d) /\
    (ts_to_ns d = 0 <->
     ts_lt (getnow (mk_timespec 0 20000000) None) (key (heap ex_spec) 2%positive) = false) /\
    (0 < ts_to_ns d ->
     forall fuel, tmr_run no_procs (S fuel) (mk_timespec 0 20000000) None ex_spec =
                    Ok (ex_spec, [])) /\
    (ts_to_ns d = 0 ->
     forall fuel s' calls,
       tmr_run no_procs fuel (mk_timespec 0 20000000) None ex_spec = Ok (s', calls) ->
       head calls =
         Some (call_of (heap ex_spec) (getnow (mk_timespec 0 20000000) None) 2%positive)).
Proof.
  assert (H1 : well_formed ex_spec) by (apply well_formedb_sound; vm_compute; reflexivity).
  assert (H2 : head (active_list ex_spec) = Some 2%positive) by (vm_compute; reflexivity).
  assert (H3 : normalised (key (heap ex_spec) 2%positive)).
  { unfold normalised. vm_compute. split; [discriminate|reflexivity]. }
  assert (H4 : normalised (getnow (mk_timespec 0 20000000) None)).
  { unfold normalised. vm_compute. split; [discriminate|reflexivity]. }
  assert (H5 : timeout_fits (key (heap ex_spec) 2%positive)
                 (getnow (mk_timespec 0 20000000) None)).
  { apply timeout_fits_near; [exact H3|exact H4|]. vm_compute. split; discriminate. }
  split; [exact H1|]. split; [exact H2|]. split; [exact H3|]. split; [exact H4|].
  split; [exact H5|].
  exact (tmr_timeout_agrees_with_run no_procs (mk_timespec 0 20000000) None ex_spec
           2%positive H1 H2 H3 H4 H5).
Defined.

(** * What tmr_create adds *)

(** X12.  On a well-formed state with a sorted active list, a tmr_create
    that returns a timer adds exactly that timer to the active list: it was
    not an active timer before, it stands behind the timers that do not
    expire later and before those that do, its payload is the arguments with
    the expiry [now + interval], and every other timer keeps its payload and
    its place relative to the others; the list is sorted again. *)
Theorem tmr_create_inserts (m : option (addr * Timer)) (clock : timespec)
    (nowP : option timespec) (proc : TimerProc) (data : TimerClientData)
    (ns per : Z) (s s1 : State) (t : addr) :
  well_formed s -> Sorted ts_le (expiries s) ->
  (forall a junk, m = Some (a, junk) -> heap s !! a = None) ->
  tmr_create m clock nowP proc data ns per s = Ok (Some t, s1) ->
  (t ∉ active_list s) /\
  well_formed s1 /\ Sorted ts_le (expiries s1) /\
  (exists tm, heap s1 !! t = Some tm /\
     payload tm = (proc, data, ns, per, add_nsecs (getnow clock nowP) ns)) /\
  (forall a, a <> t -> payload <$> (heap s1 !! a) = payload <$> (heap s !! a)) /\
  exists l1 l2,
    active_list s = l1 ++ l2 /\ active_list s1 = l1 ++ t :: l2 /\
    Forall (fun a => ts_le (key (heap s) a) (add_nsecs (getnow clock nowP) ns)) l1 /\
    Forall (fun a => ts_lt (add_nsecs (getnow clock nowP) ns) (key (heap s) a) = true) l2.
Proof.
  intros Hwf Hs Hfresh Hrun. unfold well_formed in Hwf. apply sorted_expiries in Hs.
  assert (Hgen : forall lf1,
    wf s1 (ins (key (heap s1)) t (active_list s)) lf1 -> t ∉ active_list s ->
    (exists tm, heap s1 !! t = Some tm /\
       payload tm = (proc, data, ns, per, add_nsecs (getnow clock nowP) ns)) ->
    (forall a, a <> t -> payload <$> (heap s1 !! a) = payload <$> (heap s !! a)) ->
    (t ∉ active_list s) /\
    well_formed s1 /\ Sorted ts_le (expiries s1) /\
    (exists tm, heap s1 !! t = Some tm /\
       payload tm = (proc, data, ns, per, add_nsecs (getnow clock nowP) ns)) /\
    (forall a, a <> t -> payload <$> (heap s1 !! a) = payload <$> (heap s !! a)) /\
    exists l1 l2,
      active_list s = l1 ++ l2 /\ active_list s1 = l1 ++ t :: l2 /\
      Forall (fun a => ts_le (key (heap s) a) (add_nsecs (getnow clock nowP) ns)) l1 /\
      Forall (fun a => ts_lt (add_nsecs (getnow clock nowP) ns) (key (heap s) a) = true) l2).
  { intros lf1 Hwf1 Ht Hpt Hother.
    assert (Hs1 : sorted (key (heap s1)) (active_list s))
      by (by apply (sorted_other (heap s) _ t)).
    destruct (ins_split (key (heap s1)) t _ Hs1) as (l1 & l2 & Hl & Hi & H1 & H2).
    destruct Hpt as (tm & Htm & Hp).
    assert (Hkt : key (heap s1) t = add_nsecs (getnow clock nowP) ns).
    { rewrite (key_lookup _ _ _ Htm). unfold payload in Hp. congruence. }
    rewrite Hkt in H1, H2.
    split; [done|]. split; [by eapply wf_well_formed|].
    split; [apply sorted_expiries; rewrite (wf_active_list _ _ _ Hwf1); by apply ins_sorted|].
    split; [by exists tm|]. split; [done|].
    exists l1, l2. split; [done|]. split; [by rewrite (wf_active_list _ _ _ Hwf1)|].
    assert (Hkeys : forall a, a ∈ active_list s -> key (heap s1) a = key (heap s) a).
    { intros a Ha. apply (key_other _ _ t); [done|]. by intros ->. }
    split.
    - rewrite Forall_forall in *. intros a Ha. rewrite <- Hkeys; [auto|].
      rewrite Hl. apply elem_of_app. by left.
    - rewrite Forall_forall in *. intros a Ha. rewrite <- Hkeys; [auto|].
      rewrite Hl. apply elem_of_app. by right. }
  pose proof (wf_free_timers _ _ _ Hwf) as Hft.
  destruct (free_list s) as [|t' lf] eqn:Hlf; simpl in Hft.
  - destruct m as [[a junk]|].
    + destruct (tmr_create_malloc_spec a junk clock nowP proc data ns per s _ Hwf
                  (Hfresh a junk eq_refl)) as (s1' & Hrun' & Hwf1 & Hpt & _ & Hother).
      rewrite Hrun' in Hrun. injection Hrun as <- <-.
      apply (Hgen [] Hwf1); [|done|done].
      intros Ha. destruct (wf_allocated s _ _ a Hwf) as [x Hx];
        [apply elem_of_app; by left|].
      rewrite (Hfresh a junk eq_refl) in Hx. done.
    + rewrite tmr_create_fail_spec in Hrun by done. done.
  - destruct (tmr_create_reuse_spec m clock nowP proc data ns per s _ t' lf Hwf)
      as (s1' & Hrun' & Hwf1 & Hpt & _ & Hother).
    rewrite Hrun' in Hrun. injection Hrun as <- <-.
    apply (Hgen lf Hwf1); [|done|done].
    intros Ha. apply (wf_not_free _ _ _ _ Hwf Ha). by apply elem_of_cons; left.
Qed.

Lemma tmr_create_inserts_witness :
  well_formed ex_spec /\ Sorted ts_le (expiries ex_spec) /\
  (forall a junk, (None : option (addr * Timer)) = Some (a, junk) ->
     heap ex_spec !! a = None) /\
  exists s1,
    tmr_create None (mk_timespec 0 70000000) None 14 104 10000000 0 ex_spec =
      Ok (Some 3%positive, s1) /\
    (3%positive ∉ active_list ex_spec) /\
    well_formed s1 /\ Sorted ts_le (expiries s1) /\
    (exists tm, heap s1 !! 3%positive = Some tm /\
       payload tm = (14, 104, 10000000, 0,
                     add_nsecs (getnow (mk_timespec 0 70000000) None) 10000000)) /\
    (forall a, a <> 3%positive ->
       payload <$> (heap s1 !! a) = payload <$> (heap ex_spec !! a)) /\
    exists l1 l2,
      active_list ex_spec = l1 ++ l2 /\ active_list s1 = l1 ++ 3%positive :: l2 /\
      Forall (fun a => ts_le (key (heap ex_spec) a)
                         (add_nsecs (getnow (mk_timespec 0 70000000) None) 10000000)) l1 /\
      Forall (fun a => ts_lt (add_nsecs (getnow (mk_timespec 0 70000000) None) 10000000)
                         (key (heap ex_spec) a) = true) l2.
Proof.
  assert (H1 : well_formed ex_spec) by (apply well_formedb_sound; vm_compute; reflexivity).
  assert (H2 : Sorted ts_le (expiries ex_spec))
    by (apply sortedb_sound; vm_compute; reflexivity).
  assert (H3 : forall a junk, (None : option (addr * Timer)) = Some (a, junk) ->
                 heap ex_spec !! a = None) by (intros a junk Hm; discriminate Hm).
  assert (H4 : exists s1,
            tmr_create None (mk_timespec 0 70000000) None 14 104 10000000 0 ex_spec =
              Ok (Some 3%positive, s1))
    by (eexists; vm_compute; reflexivity).
  destruct H4 as (s1 & H4).
  split; [exact H1|]. split; [exact H2|]. split; [exact H3|].
  exists s1. split; [exact H4|].
  exact (tmr_create_inserts None (mk_timespec 0 70000000) None 14 104 10000000 0
           ex_spec s1 3%positive H1 H2 H3 H4).
Defined.

(** * list_remove writes two links *)

(** X14.  list_remove of an active timer of a well-formed state unlinks it:
    the active list is the old one without the timer, in the same order.
    The only writes are the next link of the timer before it (or the list
    head when it was the first) and the prev link of the timer after it; the
    removed record itself, with its links to its old neighbours, and every
    other record, are left as they were. *)
Theorem list_remove_unlinks (s : State) (l1 : list addr) (t : addr) (l2 : list addr) :
  well_formed s -> active_list s = l1 ++ t :: l2 ->
  exists s',
    list_remove t s = Ok s' /\
    active_list s' = l1 ++ l2 /\ timers s' = head (l1 ++ l2) /\
    free_timers s' = free_timers s /\
    (forall a, last l1 <> Some a -> head l2 <> Some a -> heap s' !! a = heap s !! a) /\
    (forall p, last l1 = Some p ->
       heap s' !! p = set_next (head l2) <$> (heap s !! p)) /\
    (forall n, head l2 = Some n ->
       heap s' !! n = set_prev (last l1) <$> (heap s !! n)).
Proof.
  intros Hwf Hla. unfold well_formed in Hwf. rewrite Hla in Hwf.
  destruct (list_remove_wf s l1 t l2 _ Hwf) as (s' & Hrm & Hwf' & _).
  exists s'. split; [done|].
  split; [by rewrite (wf_active_list _ _ _ Hwf')|].
  split; [by rewrite (wf_timers _ _ _ Hwf')|].
  destruct (wf_mid s l1 t l2 _ Hwf) as (tm & Htm & Hprev & Hnext & Htl & _).
  rewrite last_ptr_None in Hprev.
  assert (Hl1 : forall p, last l1 = Some p -> p ∈ l1).
  { intros p Hp. apply last_Some in Hp as (l' & ->). apply elem_of_app; right.
    by apply list_elem_of_singleton. }
  assert (Hl2 : forall n, head l2 = Some n -> n ∈ l2).
  { intros n Hn. destruct l2; simplify_eq/=. by apply elem_of_cons; left. }
  assert (Hnd : NoDup (l1 ++ l2)).
  { destruct (wf_mid s l1 t l2 _ Hwf) as (_ & _ & _ & _ & _ & _ & H & _). done. }
  assert (Hpn : forall p n, last l1 = Some p -> head l2 = Some n -> p <> n).
  { intros p n Hp Hn ->. apply NoDup_app in Hnd as (_ & H & _).
    by apply (H n (Hl1 _ Hp)), Hl2. }
  assert (Hpt : forall p, last l1 = Some p -> p <> t).
  { intros p Hp ->. apply Htl, elem_of_app. left. by apply Hl1. }
  assert (Hnt : forall n, head l2 = Some n -> n <> t).
  { intros n Hn ->. apply Htl, elem_of_app. right. by apply Hl2. }
  assert (Halloc : forall a, a ∈ l1 ++ l2 -> is_Some (heap s !! a)).
  { intros a Ha. apply (wf_allocated s _ _ a Hwf). apply elem_of_app; left.
    apply elem_of_app in Ha as [Ha|Ha]; apply elem_of_app; [by left|].
    right. by apply elem_of_cons; right. }
  unfold list_remove in Hrm. rewrite (load_ok _ _ _ Htm) in Hrm. simpl in Hrm.
  rewrite Hprev, Hnext in Hrm.
  destruct (last l1) as [p|] eqn:Hp; destruct (head l2) as [n|] eqn:Hn.
  - destruct (Halloc p) as [tp Htp]; [apply elem_of_app; left; by apply Hl1|].
    destruct (Halloc n) as [tn Htn]; [apply elem_of_app; right; by apply Hl2|].
    pose proof (Hpn p n eq_refl eq_refl) as Hne.
    pose proof (Hpt p eq_refl) as Hne1. pose proof (Hnt n eq_refl) as Hne2.
    rewrite (store_ok _ _ _ tp) in Hrm by done. simpl in Hrm.
    unfold load in Hrm. simpl in Hrm. rewrite lookup_insert_ne, Htm in Hrm by done.
    simpl in Hrm. rewrite Hnext in Hrm.
    rewrite (store_ok _ _ _ tn) in Hrm by (simpl; by rewrite lookup_insert_ne).
    simpl in Hrm. injection Hrm as <-. simpl. rewrite Hprev.
    split; [done|]. split; [|split].
    + intros a Ha1 Ha2. rewrite !lookup_insert_ne; [done| |]; congruence.
    + intros p' [= <-]. rewrite lookup_insert_ne by done.
      by rewrite lookup_insert_eq, Htp.
    + intros n' [= <-]. by rewrite lookup_insert_eq, Htn.
  - destruct (Halloc p) as [tp Htp]; [apply elem_of_app; left; by apply Hl1|].
    pose proof (Hpt p eq_refl) as Hne1.
    rewrite (store_ok _ _ _ tp) in Hrm by done. simpl in Hrm.
    unfold load in Hrm. simpl in Hrm. rewrite lookup_insert_ne, Htm in Hrm by done.
    simpl in Hrm. rewrite Hnext in Hrm. injection Hrm as <-. simpl.
    split; [done|]. split; [|split].
    + intros a Ha1 Ha2. rewrite !lookup_insert_ne; [done|]. congruence.
    + intros p' [= <-]. by rewrite lookup_insert_eq, Htp.
    + by intros n' [=].
  - destruct (Halloc n) as [tn Htn]; [apply elem_of_app; right; by apply Hl2|].
    unfold load in Hrm. simpl in Hrm. rewrite Htm in Hrm. simpl in Hrm.
    rewrite Hnext in Hrm.
    rewrite (store_ok _ _ _ tn) in Hrm by done.
    simpl in Hrm. injection Hrm as <-. simpl. rewrite Hprev.
    split; [done|]. split; [|split].
    + intros a Ha1 Ha2. rewrite !lookup_insert_ne; [done|]. congruence.
    + by intros p' [=].
    + intros n' [= <-]. by rewrite lookup_insert_eq, Htn.
  - unfold load in Hrm. simpl in Hrm. rewrite Htm in Hrm. simpl in Hrm.
    rewrite Hnext in Hrm. injection Hrm as <-. simpl.
    split; [done|]. split; [done|]. split; [by intros p' [=]|by intros n' [=]].
Qed.

Lemma list_remove_unlinks_witness :
  well_formed ex_late /\ active_list ex_late = [1%positive] ++ 2%positive :: [3%positive] /\
  exists s',
    list_remove 2%positive ex_late = Ok s' /\
    active_list s' = [1%positive] ++ [3%positive] /\
    timers s' = head ([1%positive] ++ [3%positive]) /\
    free_timers s' = free_timers ex_late /\
    (forall a, last [1%positive] <> Some a -> head [3%positive] <> Some a ->
       heap s' !! a = heap ex_late !! a) /\
    (forall p, last [1%positive] = Some p ->
       heap s' !! p = set_next (head [3%positive]) <$> (heap ex_late !! p)) /\
    (forall n, head [3%positive] = Some n ->
       heap s' !! n = set_prev (last [1%positive]) <$> (heap ex_late !! n)).
Proof.
  assert (H : well_formed ex_late) by (apply well_formedb_sound; vm_compute; reflexivity).
  assert (H' : active_list ex_late = [1%positive] ++ 2%positive :: [3%positive])
    by (vm_compute; reflexivity).
  split; [exact H|]. split; [exact H'|].
  exact (list_remove_unlinks ex_late [1%positive] 2%positive [3%positive] H H').
Defined.

(** * A callback that cancels the next timer *)

(** X13.  tmr_run reads the next pointer of a timer before it calls its
    callback.  So when the callback of the first timer cancels the second
    one, which is due as well (at the time that the callback leaves in
    [now]), the second record is on the free list and no longer on the
    active list, and tmr_run, whenever it returns, has still gone on with
    that record and called its callback right after the first one. *)
Theorem tmr_run_calls_cancelled_next
    (procs : TimerProc -> TimerClientData -> timespec -> State -> timespec * State)
    (clock : timespec) (nowP : option timespec) (s sc : State) (now1 : timespec)
    (a b : addr) (l : list addr) (ta tb : Timer) :
  well_formed s -> active_list s = a :: b :: l ->
  heap s !! a = Some ta -> heap s !! b = Some tb ->
  ts_lt (getnow clock nowP) (time ta) = false ->
  ts_lt now1 (time tb) = false ->
  tmr_cancel b s = Ok sc ->
  procs (timer_proc ta) (client_data ta) (getnow clock nowP) s = (now1, sc) ->
  (b ∉ active_list sc) /\ b ∈ free_list sc /\
  forall fuel s' calls,
    tmr_run procs fuel clock nowP s = Ok (s', calls) ->
    exists rest,
      calls = mk_call a (timer_proc ta) (client_data ta) (getnow clock nowP)
              :: mk_call b (timer_proc tb) (client_data tb) now1
              :: rest.
Proof.
  intros Hwf Hla Hta Htb Hdue_a Hdue_b Hcancel Hprocs.
  unfold well_formed in Hwf. rewrite Hla in Hwf.
  set (now := getnow clock nowP) in *.
  change (a :: b :: l) with ([a] ++ b :: l) in Hwf.
  destruct (tmr_cancel_spec s [a] b l _ Hwf) as (sc' & Hc & Hwfc & _ & _ & Hpayc).
  rewrite Hc in Hcancel. injection Hcancel as ->. simpl in Hwfc.
  pose proof (wf_NoDup_active _ _ _ Hwfc) as Hndc.
  assert (Hab : a <> b).
  { destruct Hwf as [_ _ Hnd]. apply NoDup_app in Hnd as (Hnd & _).
    simpl in Hnd. apply NoDup_cons in Hnd as [Hn _]. intros ->.
    apply Hn. by apply elem_of_cons; left. }
  split.
  { rewrite (wf_active_list _ _ _ Hwfc). intros Hb.
    apply (wf_not_free _ _ _ _ Hwfc Hb). by apply elem_of_cons; left. }
  split; [rewrite (wf_free_list _ _ _ Hwfc); by apply elem_of_cons; left|].
  intros fuel s' calls Hrun.
  change ([a] ++ b :: l) with ([] ++ a :: b :: l) in Hwf.
  destruct (wf_mid s [] a (b :: l) _ Hwf) as (ta0 & Hta0 & _ & Hnext & _).
  assert (ta0 = ta) by congruence. subst ta0. simpl in Hnext.
  unfold tmr_run in Hrun. rewrite (wf_timers _ _ _ Hwf) in Hrun. simpl in Hrun.
  destruct fuel as [|fuel]; simpl in Hrun; [done|].
  unfold tmr_run_body at 1 in Hrun. rewrite (load_ok _ _ _ Hta) in Hrun.
  cbn [res_bind] in Hrun. fold now in Hrun. rewrite Hdue_a, Hprocs, Hnext in Hrun.
  destruct (same_payload_lookup _ _ _ _ Hpayc Hta) as (tac & Htac & Hpac).
  cbv iota in Hrun.
  rewrite (load_ok _ _ _ Htac) in Hrun. cbn [res_bind] in Hrun.
  (* the state after the first turn keeps the payload of [b] *)
  assert (Hs2 : forall s2,
    (if negb (periodic tac =? 0)
     then s0 <- store a (fun x => set_time (add_nsecs (time x) (nsecs x)) x) sc;
          list_resort a s0
     else tmr_cancel a sc) = Ok s2 ->
    exists tb2, heap s2 !! b = Some tb2 /\ payload tb2 = payload tb).
  { intros s2 H2.
    destruct (same_payload_lookup _ _ _ _ Hpayc Htb) as (tbc & Htbc & Hpbc).
    change (a :: l) with ([] ++ a :: l) in Hwfc.
    destruct (negb (periodic tac =? 0)).
    - rewrite (store_ok _ _ _ tac) in H2 by done. simpl in H2.
      set (tm2 := set_time _ _) in H2. set (s0 := with_heap _ _) in H2.
      assert (Hwf0 : wf s0 ([] ++ a :: l) (b :: free_list s)).
      { by apply (wf_insert_payload sc _ _ a tac tm2). }
      destruct (list_resort_spec s0 [] a l _ Hwf0) as (s2' & Hr & _ & _ & Hpay).
      rewrite Hr in H2. injection H2 as <-.
      assert (Hb0 : heap s0 !! b = Some tbc) by (simpl; by rewrite lookup_insert_ne).
      destruct (same_payload_lookup _ _ _ _ Hpay Hb0) as (tb2 & Hb2 & Hp2).
      exists tb2. split; [done|]. congruence.
    - destruct (tmr_cancel_spec sc [] a l _ Hwfc) as (s2' & Hr & _ & _ & _ & Hpay).
      rewrite Hr in H2. injection H2 as <-.
      destruct (same_payload_lookup _ _ _ _ Hpay Htbc) as (tb2 & Hb2 & Hp2).
      exists tb2. split; [done|]. congruence. }
  destruct (if negb (periodic tac =? 0) then _ else _) as [s2| |] eqn:Hstep;
    cbn [res_bind] in Hrun; try done.
  destruct (Hs2 s2 eq_refl) as (tb2 & Htb2 & Hpb2).
  unfold payload in Hpb2. injection Hpb2 as Hq1 Hq2 _ _ Hq5.
  destruct fuel as [|fuel]; simpl in Hrun; [done|].
  unfold tmr_run_body in Hrun. rewrite (load_ok _ _ _ Htb2) in Hrun.
  cbn [res_bind] in Hrun. rewrite Hq5, Hdue_b in Hrun.
  destruct (procs (timer_proc tb2) (client_data tb2) now1 s2) as [now2 s2'].
  destruct (load b _) as [tm3| |]; cbn [res_bind] in Hrun; try done.
  destruct (if negb (periodic tm3 =? 0) then _ else _) as [s3| |];
    cbn [res_bind] in Hrun; try done.
  destruct (tmr_run_loop_prefix _ _ _ _ _ _ _ _ Hrun) as (rest & ->).
  exists rest. simpl. by rewrite Hq1, Hq2.
Qed.

Lemma tmr_run_calls_cancelled_next_witness :
  well_formed ex_late /\
  active_list ex_late = 1%positive :: 2%positive :: [3%positive] /\
  heap ex_late !! 1%positive =
    Some (mk_Timer 11 101 60000000000 1 (mk_timespec 60 0) None (Some 2%positive)) /\
  heap ex_late !! 2%positive =
    Some (mk_Timer 12 102 70000000000 0 (mk_timespec 70 0) (Some 1%positive)
            (Some 3%positive)) /\
  tmr_cancel 2%positive ex_late =
    Ok (snd (ex_cancel_procs 11 101 (mk_timespec 150 0) ex_late)) /\
  ex_cancel_procs 11 101 (mk_timespec 150 0) ex_late =
    (mk_timespec 150 0, snd (ex_cancel_procs 11 101 (mk_timespec 150 0) ex_late)) /\
  (2%positive ∉ active_list (snd (ex_cancel_procs 11 101 (mk_timespec 150 0) ex_late))) /\
  2%positive ∈ free_list (snd (ex_cancel_procs 11 101 (mk_timespec 150 0) ex_late)) /\
  forall fuel s' calls,
    tmr_run ex_cancel_procs fuel (mk_timespec 150 0) None ex_late = Ok (s', calls) ->
    exists rest,
      calls = mk_call 1%positive 11 101 (mk_timespec 150 0)
              :: mk_call 2%positive 12 102 (mk_timespec 150 0) :: rest.
Proof.
  assert (H1 : well_formed ex_late) by (apply well_formedb_sound; vm_compute; reflexivity).
  assert (H2 : active_list ex_late = 1%positive :: 2%positive :: [3%positive])
    by (vm_compute; reflexivity).
  assert (H3 : heap ex_late !! 1%positive =
    Some (mk_Timer 11 101 60000000000 1 (mk_timespec 60 0) None (Some 2%positive)))
    by (vm_compute; reflexivity).
  assert (H4 : heap ex_late !! 2%positive =
    Some (mk_Timer 12 102 70000000000 0 (mk_timespec 70 0) (Some 1%positive)
            (Some 3%positive)))
    by (vm_compute; reflexivity).
  assert (H5 : tmr_cancel 2%positive ex_late =
               Ok (snd (ex_cancel_procs 11 101 (mk_timespec 150 0) ex_late)))
    by (vm_compute; reflexivity).
  assert (H6 : ex_cancel_procs 11 101 (mk_timespec 150 0) ex_late =
    (mk_timespec 150 0, snd (ex_cancel_procs 11 101 (mk_timespec 150 0) ex_late)))
    by (vm_compute; reflexivity).
  split; [exact H1|]. split; [exact H2|]. split; [exact H3|]. split; [exact H4|].
  split; [exact H5|]. split; [exact H6|].
  exact (tmr_run_calls_cancelled_next ex_cancel_procs (mk_timespec 150 0) None ex_late
           (snd (ex_cancel_procs 11 101 (mk_timespec 150 0) ex_late)) (mk_timespec 150 0)
           1%positive 2%positive [3%positive] _ _ H1 H2 H3 H4 eq_refl eq_refl H5 H6).
Defined.

(** In that run the second call cancels the record 2 a second time: the pass
    returns with the head of the active list cleared, although the timers 1
    and 3 are still allocated, and with the record 2 as its own successor on
    the free list. *)
Lemma tmr_run_cancelled_next_example :
  exists s',
    tmr_run ex_cancel_procs 10 (mk_timespec 150 0) None ex_late =
      Ok (s', [mk_call 1%positive 11 101 (mk_timespec 150 0);
               mk_call 2%positive 12 102 (mk_timespec 150 0)]) /\
    timers s' = None /\ free_timers s' = Some 2%positive /\
    (next <$> heap s' !! 2%positive) = Some (Some 2%positive) /\
    is_Some (heap s' !! 1%positive) /\ is_Some (heap s' !! 3%positive).
Proof.
  eexists. split; [vm_compute; reflexivity|].
  split; [reflexivity|]. split; [reflexivity|]. split; [vm_compute; reflexivity|].
  split; eexists; vm_compute; reflexivity.
Qed.

(** * Cancelling a timer twice *)

Lemma tmr_cancel_prev t s s' :
  tmr_cancel t s = Ok s' -> exists tm, heap s' !! t = Some tm /\ prev tm = None.
Proof.
  unfold tmr_cancel. intros H.
  destruct (list_remove t s) as [s1| |]; cbn [res_bind] in H; try done.
  destruct (store t _ s1) as [s2| |]; cbn [res_bind] in H; try done.
  unfold store in H.
  destruct (heap (with_free_timers (Some t) s2) !! t) as [tm|]; [|done].
  injection H as <-. simpl. rewrite lookup_insert_eq. by eexists.
Qed.

Lemma wf_free_twice s la t (tm : Timer) :
  free_timers s = Some t -> heap s !! t = Some tm -> next tm = Some t ->
  forall lf, ~ wf s la lf.
Proof.
  intros Hft Ht Hn lf [_ Hf Hnd]. rewrite Hft in Hf.
  destruct lf as [|x lf]; simpl in Hf; [done|].
  destruct Hf as (Hx & tm' & Htm' & Hsl). injection Hx as <-.
  assert (tm' = tm) by congruence. subst tm'. rewrite Hn in Hsl.
  destruct lf as [|y lf]; simpl in Hsl; [done|].
  destruct Hsl as (Hy & _). injection Hy as <-.
  apply NoDup_app in Hnd as (_ & _ & Hnd).
  apply NoDup_cons in Hnd as [Hnd _]. apply Hnd. by apply elem_of_cons; left.
Qed.

(** X15.  tmr_cancel does not notice that a timer is cancelled already.  A
    second tmr_cancel of the same timer returns, and afterwards the head of
    the active list is what the head of the free list was before the first
    call, so that the timers that are still active are allocated but no
    longer on the active list; the record is its own successor on the free
    list, and the state is not well formed any more. *)
Theorem tmr_cancel_twice (s : State) (l1 : list addr) (t : addr) (l2 : list addr) :
  well_formed s -> active_list s = l1 ++ t :: l2 ->
  exists s1 s2 tm2,
    tmr_cancel t s = Ok s1 /\ active_list s1 = l1 ++ l2 /\
    tmr_cancel t s1 = Ok s2 /\
    timers s2 = free_timers s /\
    free_timers s2 = Some t /\
    heap s2 !! t = Some tm2 /\ next tm2 = Some t /\
    (forall a, a ∈ l1 ++ l2 -> is_Some (heap s2 !! a)) /\
    ~ well_formed s2.
Proof.
  intros Hwf Hla. unfold well_formed in Hwf. rewrite Hla in Hwf.
  destruct (tmr_cancel_spec s l1 t l2 _ Hwf) as (s1 & Hc1 & Hwf1 & Hft1 & _ & _).
  destruct (tmr_cancel_prev _ _ _ Hc1) as (tm1 & Ht1 & Hp1).
  pose proof (wf_free_timers _ _ _ Hwf) as Hft.
  pose proof (wf_active_list _ _ _ Hwf1) as Hla1.
  assert (Hall : forall a, a ∈ l1 ++ l2 -> is_Some (heap s1 !! a)).
  { intros a Ha. apply (wf_allocated _ _ _ _ Hwf1). apply elem_of_app. by left. }
  destruct Hwf1 as [_ Hf1 Hnd1].
  apply NoDup_app in Hnd1 as (_ & _ & Hndf).
  simpl in Hf1. destruct Hf1 as (_ & tm & Htm & Hsl).
  assert (tm = tm1) by congruence. subst tm.
  assert (Hcase : (free_list s = [] /\ next tm1 = None) \/
                  exists b lf tb, free_list s = b :: lf /\ next tm1 = Some b /\
                                  heap s1 !! b = Some tb /\ b <> t).
  { destruct (free_list s) as [|b lf]; simpl in Hsl; [by left|]. right.
    destruct Hsl as (Hb & tb & Htb & _). exists b, lf, tb.
    split; [done|]. split; [done|]. split; [done|].
    apply NoDup_cons in Hndf as [Hn _]. intros ->. apply Hn. by apply elem_of_cons; left. }
  destruct Hcase as [(Hlf & Hn1)|(b & lf & tb & Hlf & Hn1 & Htb & Hbt)].
  - assert (Hc2 : tmr_cancel t s1 =
      Ok (with_heap (<[t := set_prev None (set_next (Some t) tm1)]>
                       (<[t := set_next (Some t) tm1]> (heap s1)))
            (with_free_timers (Some t) (with_timers None s1)))).
    { unfold tmr_cancel, list_remove. rewrite (load_ok _ _ _ Ht1). cbn [res_bind].
      rewrite Hp1, Hn1. cbn [res_bind].
      rewrite (load_ok t (with_timers None s1) tm1) by done. cbn [res_bind].
      rewrite Hn1. cbn [res_bind].
      rewrite (store_ok t _ (with_timers None s1) tm1) by done. cbn [res_bind].
      simpl. unfold store. simpl. rewrite lookup_insert_eq, Hft1. reflexivity. }
    eexists s1, _, _. split; [done|]. split; [done|]. split; [exact Hc2|].
    simpl. split; [by rewrite Hft, Hlf|]. split; [done|].
    split; [by rewrite lookup_insert_eq|]. split; [done|].
    split.
    + intros a Ha. apply lookup_insert_is_Some'. right.
      apply lookup_insert_is_Some'. right. by apply Hall.
    + unfold well_formed.
      apply (wf_free_twice _ _ t (set_prev None (set_next (Some t) tm1)));
        [done| |done].
      simpl. by rewrite lookup_insert_eq.
  - assert (Hc2 : tmr_cancel t s1 =
      Ok (with_heap (<[t := set_prev None (set_next (Some t) tm1)]>
                       (<[t := set_next (Some t) tm1]>
                          (<[b := set_prev None tb]> (heap s1))))
            (with_free_timers (Some t) (with_timers (Some b) s1)))).
    { unfold tmr_cancel, list_remove. rewrite (load_ok _ _ _ Ht1). cbn [res_bind].
      rewrite Hp1, Hn1. cbn [res_bind].
      rewrite (load_ok t (with_timers (Some b) s1) tm1) by done. cbn [res_bind].
      rewrite Hn1, Hp1.
      rewrite (store_ok b _ (with_timers (Some b) s1) tb) by done. cbn [res_bind].
      unfold store. simpl. rewrite lookup_insert_ne by done. rewrite Ht1. simpl.
      rewrite lookup_insert_eq, Hft1. reflexivity. }
    eexists s1, _, _. split; [done|]. split; [done|]. split; [exact Hc2|].
    simpl. split; [by rewrite Hft, Hlf|]. split; [done|].
    split; [by rewrite lookup_insert_eq|]. split; [done|].
    split.
    + intros a Ha. apply lookup_insert_is_Some'. right.
      apply lookup_insert_is_Some'. right.
      apply lookup_insert_is_Some'. right. by apply Hall.
    + unfold well_formed.
      apply (wf_free_twice _ _ t (set_prev None (set_next (Some t) tm1)));
        [done| |done].
      simpl. by rewrite lookup_insert_eq.
Qed.

Lemma tmr_cancel_twice_witness :
  well_formed ex_late /\ active_list ex_late = [1%positive] ++ 2%positive :: [3%positive] /\
  exists s1 s2 tm2,
    tmr_cancel 2%positive ex_late = Ok s1 /\
    active_list s1 = [1%positive] ++ [3%positive] /\
    tmr_cancel 2%positive s1 = Ok s2 /\
    timers s2 = free_timers ex_late /\
    free_timers s2 = Some 2%positive /\
    heap s2 !! 2%positive = Some tm2 /\ next tm2 = Some 2%positive /\
    (forall a, a ∈ [1%positive] ++ [3%positive] -> is_Some (heap s2 !! a)) /\
    ~ well_formed s2.
Proof.
  assert (H : well_formed ex_late) by (apply well_formedb_sound; vm_compute; reflexivity).
  assert (H' : active_list ex_late = [1%positive] ++ 2%positive :: [3%positive])
    by (vm_compute; reflexivity).
  split; [exact H|]. split; [exact H'|].
  exact (tmr_cancel_twice ex_late [1%positive] 2%positive [3%positive] H H').
Defined.
